(** * GestureLSM: flow-matching / consistency training and Euler inference

    A shallow embedding of [src/models/LSM.py], and of the entry point,
    the validation records and the batch collation of [src/train.py]
    (module [TrainPy]).

    Numbers.  Tensor entries are idealised as real numbers ([R]); the
    special values that torch produces when a reduction or a division has
    nothing to divide by (the mean of an empty tensor is [nan], [0/0] is
    [nan], [x/0] is an infinity) are kept, in the type [fnum], for every
    scalar that comes out of a division.  Rounding is not modelled, except
    for [huber_loss], whose exactness at equal inputs depends on it: module
    [Float32] gives that function in the arithmetic of the program.

    Tensors.  A tensor of rank at least one is a list of rows, one row per
    index of the leading (batch) dimension, each row holding the entries of
    that example in row-major order, together with the trailing dimensions
    ([trail]); its shape is [length rows :: trail].  Slicing [x[:f]] and
    [x[f:]] is [firstn] and [skipn] on the rows.

    Effects.  Random draws thread an explicit generator state (one for
    torch, one for numpy), calls of the velocity network are recorded with
    the gradient mode they ran under, and Python exceptions are results. *)

From Stdlib Require Import String Reals Lra Lia Arith Bool List Permutation.
From Stdlib Require DecimalString SpecFloat.
Import ListNotations.
Open Scope R_scope.

(* ================================================================== *)
(** ** Scalars with the special values of floating point *)

Inductive fnum : Type :=
| Fin (r : R)
| PInf
| NInf
| NaN.

Definition fadd (x y : fnum) : fnum :=
  match x, y with
  | NaN, _ => NaN
  | _, NaN => NaN
  | PInf, NInf => NaN
  | NInf, PInf => NaN
  | PInf, _ => PInf
  | _, PInf => PInf
  | NInf, _ => NInf
  | _, NInf => NInf
  | Fin a, Fin b => Fin (a + b)
  end.

(** Division of a scalar by a finite entry; zero divisors are taken as [+0]. *)
Definition fdiv (x : fnum) (r : R) : fnum :=
  match x with
  | NaN => NaN
  | Fin a =>
      if Req_EM_T r 0 then
        (if Req_EM_T a 0 then NaN else if Rlt_dec 0 a then PInf else NInf)
      else Fin (a / r)
  | PInf => if Rlt_dec r 0 then NInf else PInf
  | NInf => if Rlt_dec r 0 then PInf else NInf
  end.

Definition fsum (l : list fnum) : fnum := fold_right fadd (Fin 0) l.

(** [tensor.mean()] of a 1-D tensor of scalars: the sum over the count. *)
Definition fmean (l : list fnum) : fnum := fdiv (fsum l) (INR (length l)).

Definition Rsum (l : list R) : R := fold_right Rplus 0 l.

(** [tensor.mean()] over finite entries. *)
Definition Rmean (l : list R) : fnum := fdiv (Fin (Rsum l)) (INR (length l)).

(** [0 <= x] as floating point has it: false on [nan]. *)
Definition fnonneg (x : fnum) : Prop :=
  match x with Fin r => 0 <= r | PInf => True | NInf => False | NaN => False end.

(* ================================================================== *)
(** ** Tensors *)

Record tensor : Type := mkT { trail : list nat; rows : list (list R) }.

(** A Python-level tensor value: 0-D (a scalar) or of rank at least one. *)
Inductive pytensor : Type :=
| Scalar0 (v : R)
| Batched (t : tensor).

Definition prod (l : list nat) : nat := fold_right Nat.mul 1%nat l.

Definition shape (t : tensor) : list nat := length (rows t) :: trail t.
Definition row_size (t : tensor) : nat := prod (trail t).
Definition numel (t : tensor) : nat := (length (rows t) * row_size t)%nat.

(** Row-major contents. *)
Definition flat (t : tensor) : list R := concat (rows t).

(** Every row has as many entries as the trailing dimensions say. *)
Definition wf (t : tensor) : Prop :=
  Forall (fun r => length r = row_size t) (rows t).

(** A 1-D tensor. *)
Definition vec (l : list R) : tensor := mkT [] (map (fun v => [v]) l).

Definition pyshape (t : pytensor) : list nat :=
  match t with Scalar0 _ => [] | Batched t => shape t end.

Definition pyflat (t : pytensor) : list R :=
  match t with Scalar0 v => [v] | Batched t => flat t end.

(** [x[:f]] and [x[f:]] along the leading dimension. *)
Definition slice_to (f : nat) (t : tensor) : tensor :=
  mkT (trail t) (firstn f (rows t)).
Definition slice_from (f : nat) (t : tensor) : tensor :=
  mkT (trail t) (skipn f (rows t)).

(** [tensor.flatten()]. *)
Definition flatten (t : tensor) : tensor := vec (flat t).

(** Elementwise map. *)
Definition tmap (f : R -> R) (t : tensor) : tensor :=
  mkT (trail t) (map (map f) (rows t)).

Fixpoint zip_with {A B C} (f : A -> B -> C) (l : list A) (m : list B) : list C :=
  match l, m with
  | a :: l', b :: m' => f a b :: zip_with f l' m'
  | _, _ => []
  end.

(** Two rows of one example under broadcasting: a row with a single entry
    (all trailing dimensions 1) is stretched over the other row. *)
Definition row_bcast (f : R -> R -> R) (ra rb : list R) : list R :=
  match ra, rb with
  | [a], _ :: _ :: _ => map (fun b => f a b) rb
  | _ :: _ :: _, [b] => map (fun a => f a b) ra
  | _, _ => zip_with f ra rb
  end.

(** Elementwise binary operation of two tensors with the same leading
    dimension, on the shape patterns [forward] and [train_forward] build:
    equal shapes, or one operand of shape (B,1,..,1) against (B,C,J,L);
    the result has the trailing dimensions of the operand that is not
    stretched.  Outside these patterns torch broadcasts otherwise or
    raises: [broadcast2] below is the general rule, used where an operand
    comes from the caller with a shape of its own. *)
Definition tmap2 (f : R -> R -> R) (a b : tensor) : tensor :=
  mkT (if (row_size a =? 1)%nat then trail b else trail a)
      (zip_with (row_bcast f) (rows a) (rows b)).

Definition tadd := tmap2 Rplus.
Definition tsub := tmap2 Rminus.
Definition tmul := tmap2 Rmult.

(** [b] rows of [k] entries each, cut from a row-major list. *)
Fixpoint chunk (b k : nat) (l : list R) : list (list R) :=
  match b with
  | O => []
  | S b' => firstn k l :: chunk b' k (skipn k l)
  end.

(* ================================================================== *)
(** ** Python exceptions and results *)

Inductive exn : Type :=
| IndexError (msg : string)
| RuntimeError (msg : string)
| NameError (name : string)
| UnboundLocalError (name : string)
| TypeError (msg : string)
| ZeroDivisionError
| AttributeError (msg : string).

Inductive result (A : Type) : Type :=
| Ok (a : A)
| Raise (e : exn).
Arguments Ok {A} a.
Arguments Raise {A} e.

(** [tensor.reshape((b, d1, .., dn))]: the row-major contents are kept;
    torch refuses a shape whose number of entries differs. *)
Definition reshape (b : nat) (tl : list nat) (t : tensor) : result tensor :=
  if (b * prod tl =? numel t)%nat
  then Ok (mkT tl (chunk b (prod tl) (flat t)))
  else Raise (RuntimeError "shape is invalid for input size").

(** [reshape_coefs(t)]: [t.reshape((t.shape[0], 1, 1, 1))].  A 0-D tensor
    has an empty shape tuple, so [t.shape[0]] raises. *)
Definition reshape_coefs (t : pytensor) : result tensor :=
  match t with
  | Scalar0 _ => Raise (IndexError "tuple index out of range")
  | Batched t => reshape (length (rows t)) [1; 1; 1]%nat t
  end.

(* ================================================================== *)
(** ** Random generators

    torch and numpy each draw from a global generator.  Its state is made
    explicit: the stream of variates it will deliver and the position
    reached.  A draw of [n] values reads the next [n] positions and
    advances the state, so equal states give equal draws. *)

Record TorchGen : Type := mkTorchGen {
  normal_at : nat -> R;            (* standard normal variates *)
  uniform_at : nat -> R;           (* uniform variates of [torch.rand] *)
  beta_at : R -> R -> nat -> R;    (* Beta(alpha, beta) variates *)
  index_at : nat -> nat;           (* raw integers for categorical draws *)
  torch_pos : nat
}.

Record NumpyGen : Type := mkNumpyGen {
  np_uniform_at : nat -> R;        (* uniform variates of [random_sample] *)
  np_pos : nat
}.

Definition torch_advance (n : nat) (g : TorchGen) : TorchGen :=
  mkTorchGen (normal_at g) (uniform_at g) (beta_at g) (index_at g)
             (torch_pos g + n).

Definition numpy_advance (n : nat) (g : NumpyGen) : NumpyGen :=
  mkNumpyGen (np_uniform_at g) (np_pos g + n).

(** What the libraries promise of their variates: [torch.rand] draws from
    [0, 1), a Beta variate lies in [0, 1], [random_sample] draws from
    [0, 1). *)
Definition torch_gen_ok (g : TorchGen) : Prop :=
  (forall k, 0 <= uniform_at g k < 1) /\
  (forall al be k, 0 <= beta_at g al be k <= 1).

(** [torch.randperm(m)] by insertion: the new index [m'] is put at a drawn
    position of the permutation of the smaller indices. *)
Definition insert_at (j x : nat) (l : list nat) : list nat :=
  firstn j l ++ x :: skipn j l.

Fixpoint shuffle (draw : nat -> nat) (m : nat) : list nat :=
  match m with
  | O => []
  | S m' => insert_at (draw m' mod S m') m' (shuffle draw m')
  end.

(** [t[idx]] for an index tensor [idx]. *)
Definition index_select {A} (d : A) (t : list A) (idx : list nat) : list A :=
  map (fun i => nth i t d) idx.

(* ================================================================== *)
(** ** The velocity network as an oracle, and the state of a call *)

Inductive oracle_method : Type :=
| Forward            (* [self.denoiser(...)] *)
| ForwardWithCfg.    (* [self.denoiser.forward_with_cfg(...)] *)

Record DenoiserArgs : Type := mkArgs {
  arg_x : tensor;
  arg_timesteps : tensor;
  arg_seed : tensor;
  arg_at_feat : tensor;
  arg_intent_feat : option tensor;
  arg_cond_time : tensor;
  arg_instance_ids : option tensor;
  arg_style_features : option tensor;
  arg_force_cfg : option (list bool);
  arg_guidance_scale : option R
}.

Record OracleCall : Type := mkCall {
  call_method : oracle_method;
  call_grad : bool;          (* was gradient tracking enabled? *)
  call_args : DenoiserArgs
}.

Record World : Type := mkWorld {
  torch_gen : TorchGen;
  numpy_gen : NumpyGen;
  grad_enabled : bool;
  oracle_calls : list OracleCall   (* in the order they were made *)
}.

(** Computations that draw, call the oracle and may raise. *)
Definition M (A : Type) : Type := World -> result A * World.

Definition ret {A} (a : A) : M A := fun w => (Ok a, w).

Definition raise {A} (e : exn) : M A := fun w => (Raise e, w).

Definition bind {A B} (m : M A) (k : A -> M B) : M B :=
  fun w =>
    match m w with
    | (Ok a, w') => k a w'
    | (Raise e, w') => (Raise e, w')
    end.

Definition lift {A} (r : result A) : M A := fun w => (r, w).

Notation "x <- m ;; k" := (bind m (fun x => k))
  (at level 61, m at next level, right associativity).

Definition with_torch {A} (f : TorchGen -> A * TorchGen) : M A :=
  fun w =>
    let (a, g) := f (torch_gen w) in
    (Ok a, mkWorld g (numpy_gen w) (grad_enabled w) (oracle_calls w)).

Definition draw_from {A} (stream : nat -> A) (pos n : nat) : list A :=
  map stream (seq pos n).

(** [torch.randn(n)], [torch.rand(n)], [Beta(al, be).sample((n,))]. *)
Definition torch_randn (n : nat) : M (list R) :=
  with_torch (fun g => (draw_from (normal_at g) (torch_pos g) n, torch_advance n g)).

Definition torch_rand (n : nat) : M (list R) :=
  with_torch (fun g => (draw_from (uniform_at g) (torch_pos g) n, torch_advance n g)).

Definition beta_sample (al be : R) (n : nat) : M (list R) :=
  with_torch (fun g => (draw_from (beta_at g al be) (torch_pos g) n, torch_advance n g)).

Definition torch_randperm (m : nat) : M (list nat) :=
  with_torch (fun g =>
    (shuffle (fun k => index_at g (torch_pos g + k)) m, torch_advance m g)).

(** [probs.multinomial(n, replacement=True)] for positive weights: [n]
    category indices below [len(probs)].  torch refuses [n = 0]
    ("cannot sample n_sample <= 0 samples"). *)
Definition multinomial (probs : list R) (n : nat) : M (list nat) :=
  match n with
  | O => raise (RuntimeError "cannot sample n_sample <= 0 samples")
  | S _ =>
      with_torch (fun g =>
        (map (fun r => r mod length probs)%nat (draw_from (index_at g) (torch_pos g) n),
         torch_advance n g))
  end.

(** [np.random.choice([True, False], size=n, p=[p, 1-p])]: a uniform
    variate below [p] selects the first entry. *)
Definition np_choice_flags (p : R) (n : nat) : M (list bool) :=
  fun w =>
    let g := numpy_gen w in
    (Ok (map (fun u => if Rlt_dec u p then true else false)
             (draw_from (np_uniform_at g) (np_pos g) n)),
     mkWorld (torch_gen w) (numpy_advance n g) (grad_enabled w) (oracle_calls w)).

(** [with torch.no_grad(): body]: tracking is off inside and put back to
    what it was afterwards, also when the body raises. *)
Definition no_grad {A} (body : M A) : M A :=
  fun w =>
    let saved := grad_enabled w in
    let (r, w') := body (mkWorld (torch_gen w) (numpy_gen w) false (oracle_calls w)) in
    (r, mkWorld (torch_gen w') (numpy_gen w') saved (oracle_calls w')).

(* ================================================================== *)
(** ** Time samplers (module level) *)

Definition default_t_min : R := 1 / 100000.          (* 1e-5 *)
Definition default_t_max : R := 1 - 1 / 100000.      (* 1 - 1e-5 *)

(** Scale to [t_min, t_max]: [t * (t_max - t_min) + t_min]. *)
Definition rescale (t_min t_max : R) (t : list R) : list R :=
  map (fun x => x * (t_max - t_min) + t_min) t.

(** [sample_beta_distribution(num_samples, alpha, beta, t_min, t_max)]. *)
Definition sample_beta_distribution
    (num_samples : nat) (alpha beta t_min t_max : R) : M (list R) :=
  samples <- beta_sample alpha beta num_samples ;;
  ret (rescale t_min t_max samples).

(** [sample_t_fast(num_samples, a, t_min, t_max)].  (The constant [C] the
    source computes first is not used.) *)
Definition sample_t_fast (num_samples : nat) (a t_min t_max : R) : M (list R) :=
  u <- torch_rand (num_samples * 2) ;;
  (* [1/a] is a division of Python numbers *)
  inv_a <- (if Req_EM_T a 0 then raise ZeroDivisionError else ret (1 / a)) ;;
  let t := map (fun ui => inv_a * ln (1 + ui * (exp a - 1))) u in
  let t := t ++ map (fun x => 1 - x) t in
  perm <- torch_randperm (length t) ;;
  let t := firstn num_samples (index_select 0 t perm) in
  ret (rescale t_min t_max t).

(** [sample_cosmap(num_samples, t_min, t_max)]. *)
Definition sample_cosmap (num_samples : nat) (t_min t_max : R) : M (list R) :=
  u <- torch_rand num_samples ;;
  let pi_half := PI / 2 in
  let t := map (fun ui => 1 - 1 / (tan (pi_half * ui) + 1)) u in
  ret (rescale t_min t_max t).

(** *** Broadcasting in general

    Two shapes are aligned at their last dimension; two sizes are
    compatible when they are equal or one of them is 1, and a shape that
    is shorter is filled with 1 in front.  The shapes are handled
    reversed, last dimension first. *)

Fixpoint broadcast_rev (a b : list nat) : option (list nat) :=
  match a, b with
  | [], _ => Some b
  | _, [] => Some a
  | x :: a', y :: b' =>
      match broadcast_rev a' b' with
      | Some r =>
          if (x =? y)%nat then Some (x :: r)
          else if (x =? 1)%nat then Some (y :: r)
          else if (y =? 1)%nat then Some (x :: r)
          else None
      | None => None
      end
  end.

Definition broadcast_shapes (a b : list nat) : option (list nat) :=
  option_map (@rev nat) (broadcast_rev (rev a) (rev b)).

(** The multi-index, last dimension first, of the [n]-th entry in
    row-major order of a tensor whose reversed shape is [s_rev]. *)
Fixpoint unravel_rev (s_rev : list nat) (n : nat) : list nat :=
  match s_rev with
  | [] => []
  | d :: s' => (n mod d)%nat :: unravel_rev s' (n / d)
  end.

(** The row-major position, in a tensor of reversed shape [s_rev], of the
    entry that broadcasting puts at the multi-index [i_rev]: a dimension
    of size 1 is read at 0, and the leading indices the tensor does not
    have are ignored. *)
Fixpoint broadcast_offset (s_rev i_rev : list nat) (stride : nat) : nat :=
  match s_rev, i_rev with
  | d :: s', k :: i' =>
      ((if (d =? 1)%nat then 0 else k) * stride
       + broadcast_offset s' i' (stride * d))%nat
  | _, _ => 0%nat
  end.

(** The tensor of shape [s] with the row-major contents [data]. *)
Definition of_flat (s : list nat) (data : list R) : tensor :=
  match s with
  | [] => vec data
  | b :: tl => mkT tl (chunk b (prod tl) data)
  end.

(** An elementwise binary operation under broadcasting; torch raises
    [RuntimeError] when the shapes are not compatible (the message is
    shortened). *)
Definition broadcast2 (f : R -> R -> R) (a b : tensor) : result tensor :=
  match broadcast_shapes (shape a) (shape b) with
  | None =>
      Raise (RuntimeError "The size of tensor a must match the size of tensor b")
  | Some s =>
      Ok (of_flat s
            (map (fun n =>
                    let i := unravel_rev (rev s) n in
                    f (nth (broadcast_offset (rev (shape a)) i 1) (flat a) 0)
                      (nth (broadcast_offset (rev (shape b)) i 1) (flat b) 0))
                 (seq 0 (prod s))))
  end.

(* ================================================================== *)
(** ** GestureLSM *)

(** The hyperparameters [__init__] reads from the configuration. *)
Record Config : Type := mkConfig {
  guidance_scale : R;
  num_inference_steps : nat;
  input_dim : nat;
  seq_len : nat;
  raw_audio : bool
}.

(** [condition_dict['y']].  The keys [audio_onset] and [word] may be
    absent ([None] here); [style_feature] is present and may hold [None].
    The other keys are required: a dictionary without one of them is not a
    value of this type (in Python the lookup raises [KeyError]). *)
Record ConditionY : Type := mkCond {
  audio_tensor : tensor;
  audio_low : tensor;
  audio_high : tensor;
  id : tensor;
  seed : tensor;
  style_feature : option tensor;
  intention_embeddings : tensor;
  intention_mask : tensor;
  audio_onset : option tensor;
  word : option tensor
}.

(** What the modality encoder returns: [audio_features['audio_low']] and
    [audio_features['audio_high']] (which may be [None]). *)
Record EncoderOut : Type := mkEnc {
  enc_audio_low : tensor;
  enc_audio_high : option tensor
}.


Record Losses : Type := mkLosses {
  flow_loss : fnum;
  consistency_loss : fnum;
  loss : fnum
}.

(** [x is not None]. *)
Definition is_some {A} (o : option A) : bool :=
  match o with Some _ => true | None => false end.

Definition sigmoid (z : R) : R := 1 / (1 + exp (- z)).


(** [F.mse_loss(input, target)] with the default reduction: the mean of
    the squared differences over all entries, a 0-D tensor. *)
Definition mse_loss (input target : tensor) : fnum :=
  Rmean (flat (tmap2 (fun x y => (x - y) ^ 2) input target)).

(** [t[:f] = v]. *)
Definition fill_prefix (f : nat) (v : R) (t : tensor) : tensor :=
  mkT (trail t) (map (map (fun _ => v)) (firstn f (rows t)) ++ skipn f (rows t)).

(** [int(batch_size * 3/4)]. *)
Definition flow_split (batch_size : nat) : nat := (batch_size * 3 / 4)%nat.

(** [1 / torch.tensor([2 ** i for i in range(1, 8)])]. *)
Definition step_sizes : list R := map (fun i => 1 / 2 ^ i) (seq 1 7).

(** A tensor of the given shape filled from a stream of draws. *)
Definition torch_randn_shape (b : nat) (tl : list nat) : M tensor :=
  z <- torch_randn (b * prod tl) ;;
  ret (mkT tl (chunk b (prod tl) z)).

(** [torch.randn_like(x)]. *)
Definition torch_randn_like (x : tensor) : M tensor :=
  torch_randn_shape (length (rows x)) (trail x).

(** *** Names that are not local to a function

    A name that a function neither takes as a parameter nor assigns is
    looked up, when it is read, in the module's globals and then in the
    builtins; a miss raises [NameError].  The globals of the module are
    the bindings its top level makes (imports, [logger], the functions and
    classes defined before and including [GestureLSM]). *)

Inductive pyobj : Type :=
| PyModule (name : string)
| PyCallable (name : string)
| PyObject (name : string)
| PyTensor (t : tensor)
| PyNone.

Definition module_globals : list (string * pyobj) :=
  [ ("time", PyModule "time"); ("inspect", PyModule "inspect");
    ("logging", PyModule "logging"); ("Optional", PyObject "typing.Optional");
    ("stats", PyModule "scipy.stats"); ("tqdm", PyModule "tqdm");
    ("np", PyModule "numpy"); ("DictConfig", PyCallable "DictConfig");
    ("Dict", PyObject "typing.Dict"); ("math", PyModule "math");
    ("torch", PyModule "torch"); ("dist", PyModule "torch.distributions");
    ("F", PyModule "torch.nn.functional");
    ("instantiate_from_config", PyCallable "instantiate_from_config");
    ("count_parameters", PyCallable "count_parameters");
    ("extract_into_tensor", PyCallable "extract_into_tensor");
    ("sum_flat", PyCallable "sum_flat"); ("logger", PyObject "logger");
    ("exponential_pdf", PyCallable "exponential_pdf");
    ("ExponentialPDF", PyCallable "ExponentialPDF");
    ("sample_t", PyCallable "sample_t");
    ("sample_beta_distribution", PyCallable "sample_beta_distribution");
    ("sample_t_fast", PyCallable "sample_t_fast");
    ("sample_cosmap", PyCallable "sample_cosmap");
    ("reshape_coefs", PyCallable "reshape_coefs");
    ("GestureLSM", PyCallable "GestureLSM") ]%string.

(** The builtins the module reads. *)
Definition builtins : list (string * pyobj) :=
  [ ("super", PyCallable "super"); ("range", PyCallable "range");
    ("int", PyCallable "int"); ("sum", PyCallable "sum");
    ("len", PyCallable "len"); ("open", PyCallable "open");
    ("map", PyCallable "map"); ("str", PyCallable "str") ]%string.

Fixpoint lookup_name (name : string) (scope : list (string * pyobj)) : option pyobj :=
  match scope with
  | [] => None
  | (n, o) :: rest => if String.eqb n name then Some o else lookup_name name rest
  end.

Definition load_global (name : string) : M pyobj :=
  match lookup_name name module_globals with
  | Some o => ret o
  | None =>
      match lookup_name name builtins with
      | Some o => ret o
      | None => raise (NameError name)
      end
  end.

(** [o[:f]] and [o[f:]] of an object found by name. *)
Definition subscript_to (f : nat) (o : pyobj) : M tensor :=
  match o with
  | PyTensor t => ret (slice_to f t)
  | _ => raise (TypeError "object is not subscriptable")
  end.

Definition subscript_from (f : nat) (o : pyobj) : M tensor :=
  match o with
  | PyTensor t => ret (slice_from f t)
  | _ => raise (TypeError "object is not subscriptable")
  end.

(** [o[..] if o is not None else None], [o] read by name first. *)
Definition optional_slice (sl : pyobj -> M tensor) (o : pyobj) : M (option tensor) :=
  match o with
  | PyNone => ret None
  | _ => (x <- sl o ;; ret (Some x))
  end.

(** What [huber_loss] returns: a 0-D tensor under the reductions ['mean']
    and ['sum'], the per-example tensor under any other string. *)
Inductive huber_out : Type :=
| Reduced (v : fnum)
| PerExample (l : list fnum).

(** The sums over the dimensions (1, 2, 3) of one example whose trailing
    dimensions are [c; j; l] followed by [rest]: [n = c * j * l] terms for
    each of the [m = prod rest] positions that remain. *)
Definition sum_dims123 (n m : nat) (row : list R) : list R :=
  map (fun r => Rsum (map (fun k => nth (k * m + r) row 0) (seq 0 n))) (seq 0 m).

(** [GestureLSM.huber_loss(a, b, reduction)] in exact arithmetic, for [a]
    and [b] of the same shape.  For [a] of rank four the sum over the
    dimensions (1, 2, 3) is the sum of a row; for a higher rank the
    dimensions after the fourth remain and the values are listed in
    row-major order; a lower rank raises at [a.shape[3]] (or before). *)
Definition huber_loss (a b : tensor) (reduction : string) : result huber_out :=
  match trail a with
  | [c; j; l] =>
      let data_dim := (c * j * l)%nat in
      let huber_c := 54 / 100000 * INR data_dim in
      let loss := map Rsum (rows (tmap2 (fun x y => (x - y) ^ 2) a b)) in
      let loss := map (fun s => sqrt (s + huber_c ^ 2) - huber_c) loss in
      let loss := map (fun v => fdiv (Fin v) (INR data_dim)) loss in
      if String.eqb reduction "mean" then Ok (Reduced (fmean loss))
      else if String.eqb reduction "sum" then Ok (Reduced (fsum loss))
      else Ok (PerExample loss)
  | c :: j :: l :: rest =>
      let data_dim := (c * j * l)%nat in
      let huber_c := 54 / 100000 * INR data_dim in
      let loss :=
        flat_map (sum_dims123 data_dim (prod rest))
                 (rows (tmap2 (fun x y => (x - y) ^ 2) a b)) in
      let loss := map (fun s => sqrt (s + huber_c ^ 2) - huber_c) loss in
      let loss := map (fun v => fdiv (Fin v) (INR data_dim)) loss in
      if String.eqb reduction "mean" then Ok (Reduced (fmean loss))
      else if String.eqb reduction "sum" then Ok (Reduced (fsum loss))
      else Ok (PerExample loss)
  | _ => Raise (IndexError "tuple index out of range")
  end.

(* ================================================================== *)
(** ** [huber_loss] in the arithmetic of the program

    The tensors of the program hold float32 numbers and its Python
    numbers are float64.  Here a number is a [spec_float] of the Standard
    Library and every operation is its correctly rounded one (round to
    nearest, ties to even), at 24 bits for float32 and 53 bits for
    float64.  A Python number that meets a float32 tensor is converted to
    float32 first, and [huber_c ** 2] is the correctly rounded product.
    The sums are taken from left to right, starting from 0; torch adds in
    an order of its own, which matters only through the rounding of the
    partial sums (and not at all where every term is 0). *)

Module Float32.
Import SpecFloat.

(** A Python [int] as float64 and as float32. *)
Definition double_of_Z (n : Z) : spec_float := binary_normalize 53 1024 n 0 false.
Definition single_of_Z (n : Z) : spec_float := binary_normalize 24 128 n 0 false.

(** A float64 rounded to float32. *)
Definition single_of_double (x : spec_float) : spec_float :=
  match x with
  | S754_finite s m e => binary_normalize 24 128 (cond_Zopp s (Zpos m)) e s
  | _ => x
  end.

Definition add : spec_float -> spec_float -> spec_float := SFadd 24 128.
Definition sub : spec_float -> spec_float -> spec_float := SFsub 24 128.
Definition mul : spec_float -> spec_float -> spec_float := SFmul 24 128.
Definition div : spec_float -> spec_float -> spec_float := SFdiv 24 128.
Definition sqrt : spec_float -> spec_float := SFsqrt 24 128.
Definition zero : spec_float := S754_zero false.

(** The literal [0.00054]: the float64 nearest to 54 / 100000. *)
Definition literal_0_00054 : spec_float :=
  SFdiv 53 1024 (double_of_Z 54) (double_of_Z 100000).

Record ftensor : Type := mkFT {
  ftrail : list nat;
  frows : list (list spec_float)
}.

Definition sum (l : list spec_float) : spec_float := fold_left add l zero.

Definition sum_dims123 (n m : nat) (row : list spec_float) : list spec_float :=
  map (fun r => sum (map (fun k => nth (k * m + r) row zero) (seq 0 n))) (seq 0 m).

Inductive huber_out : Type :=
| Reduced (v : spec_float)
| PerExample (l : list spec_float).

(** [huber_c = 0.00054 * data_dim], a float64. *)
Definition huber_c (data_dim : nat) : spec_float :=
  SFmul 53 1024 literal_0_00054 (double_of_Z (Z.of_nat data_dim)).

(** [GestureLSM.huber_loss(a, b, reduction)] for float32 tensors [a] and
    [b] of the same shape. *)
Definition huber_loss (a b : ftensor) (reduction : string) : result huber_out :=
  match ftrail a with
  | c :: j :: l :: rest =>
      let data_dim := (c * j * l)%nat in
      let huber_c := huber_c data_dim in
      let squares :=
        zip_with (zip_with (fun x y => mul (sub x y) (sub x y)))
                 (frows a) (frows b) in
      let loss := flat_map (sum_dims123 data_dim (prod rest)) squares in
      let loss :=
        map (fun s => sub (sqrt (add s (single_of_double
                                          (SFmul 53 1024 huber_c huber_c))))
                          (single_of_double huber_c)) loss in
      let loss := map (fun v => div v (single_of_Z (Z.of_nat data_dim))) loss in
      if String.eqb reduction "mean"
      then Ok (Reduced (div (sum loss) (single_of_Z (Z.of_nat (length loss)))))
      else if String.eqb reduction "sum" then Ok (Reduced (sum loss))
      else Ok (PerExample loss)
  | _ => Raise (IndexError "tuple index out of range")
  end.

(** Notions used in the statements: a number that is neither an infinity
    nor [nan]; a tensor of such numbers; and what every per-example value
    of [huber_loss(a, a)] comes to, [(sqrt(0 + c^2) - c) / data_dim] as the
    program rounds it. *)
Definition finite (x : spec_float) : bool :=
  match x with
  | S754_zero _ => true
  | S754_finite _ _ _ => true
  | _ => false
  end.

Definition all_finite (a : ftensor) : Prop :=
  Forall (Forall (fun x => finite x = true)) (frows a).

Definition residue (data_dim : nat) : spec_float :=
  div (sub (sqrt (add zero (single_of_double
                              (SFmul 53 1024 (huber_c data_dim) (huber_c data_dim)))))
           (single_of_double (huber_c data_dim)))
      (single_of_Z (Z.of_nat data_dim)).

End Float32.

Section GestureLSM.

Variable cfg : Config.

(** [self.modality_encoder(audio, low, high, embeddings, mask, onset, word)]. *)
Variable modality_encoder :
  tensor -> tensor -> tensor -> tensor -> tensor ->
  option tensor -> option tensor -> EncoderOut.

(** [self.denoiser], through either entry point. *)
Variable denoiser : oracle_method -> DenoiserArgs -> tensor.

(** A call of the network: recorded with the gradient mode in force. *)
Definition call_denoiser (m : oracle_method) (args : DenoiserArgs) : M tensor :=
  fun w =>
    (Ok (denoiser m args),
     mkWorld (torch_gen w) (numpy_gen w) (grad_enabled w)
             (oracle_calls w ++ [mkCall m (grad_enabled w) args])).



(** The consistency branch of [train_forward]: the target built without
    gradient tracking, then the trainable prediction.  Returns the
    target and the prediction. *)
Definition consistency_branch
    (flow_batch_size : nat) (x_t t d seed_vectors at_feat : tensor)
    (intent_feat : option tensor) (instance_ids : tensor)
    (style_features : option tensor) (force_cfg : list bool)
    : M (tensor * tensor) :=
  let f := flow_batch_size in
  td <- no_grad
    (speed_t <- call_denoiser Forward
       (mkArgs (slice_from f x_t) (slice_from f t) (slice_from f seed_vectors)
               (slice_from f at_feat) (option_map (slice_from f) intent_feat)
               (slice_from f d) (Some (slice_from f instance_ids))
               (option_map (slice_from f) style_features)
               (Some force_cfg) None) ;;
     d_coef <- lift (reshape_coefs (Batched d)) ;;
     let x_td := tadd (slice_from f x_t) (tmul (slice_from f d_coef) speed_t) in
     let d := flatten d_coef in
     speed_td <- call_denoiser Forward
       (mkArgs x_td (tadd (slice_from f t) (slice_from f d))
               (slice_from f seed_vectors)
               (slice_from f at_feat) (option_map (slice_from f) intent_feat)
               (slice_from f d) (Some (slice_from f instance_ids))
               (option_map (slice_from f) style_features)
               (Some force_cfg) None) ;;
     let speed_target := tmap (fun v => v / 2) (tadd speed_t speed_td) in
     ret (d, speed_target)) ;;
  let d := fst td in
  let speed_target := snd td in
  speed_pred <- call_denoiser Forward
    (mkArgs (slice_from f x_t) (slice_from f t) (slice_from f seed_vectors)
            (slice_from f at_feat) (option_map (slice_from f) intent_feat)
            (tmap (Rmult 2) (slice_from f d))
            (Some (slice_from f instance_ids))
            (option_map (slice_from f) style_features)
            (Some force_cfg) None) ;;
  ret (speed_target, speed_pred).

(** The draws of [train_forward] after the noise: the times [t] and the
    step sizes [d], in this order. *)
Definition sample_t_d (batch_size flow_batch_size : nat) : M (tensor * tensor) :=
  let deltas := step_sizes in
  let delta_probs := map (fun _ => 1 / INR (length deltas)) deltas in
  z <- torch_randn batch_size ;;
  let t := vec (map sigmoid z) in
  idx <- multinomial delta_probs batch_size ;;
  let d := vec (index_select 0 deltas idx) in
  let d := fill_prefix flow_batch_size 0 d in
  ret (t, d).

(** [GestureLSM.train_forward(condition_dict, latents, train_consistency)]. *)
Definition train_forward
    (y : ConditionY) (latents : tensor) (train_consistency : bool) : M Losses :=
  let in_audio := audio_tensor y in
  let cached_audio_low := audio_low y in
  let cached_audio_high := audio_high y in
  let onset := audio_onset y in
  let w := word y in
  let instance_ids := id y in
  let seed_vectors := seed y in
  let style_features := style_feature y in
  let audio_features :=
    if is_some onset && raw_audio cfg
    then modality_encoder in_audio cached_audio_low cached_audio_high
           (intention_embeddings y) (intention_mask y) onset w
    else modality_encoder in_audio cached_audio_low cached_audio_high
           (intention_embeddings y) (intention_mask y) onset w in
  let at_feat := enc_audio_low audio_features in
  let intent_feat := enc_audio_high audio_features in
  x0_noise <- torch_randn_like latents ;;
  let batch_size := length (rows latents) in
  let flow_batch_size := flow_split batch_size in
  let f := flow_batch_size in
  td <- sample_t_d batch_size flow_batch_size ;;
  let t := fst td in
  let d := snd td in
  t_coef <- lift (reshape_coefs (Batched t)) ;;
  let x_t := tadd (tmul t_coef latents)
                  (tmul (tmap (fun c => 1 - c) t_coef) x0_noise) in
  let t := flatten t_coef in
  flow_pred <- call_denoiser Forward
    (mkArgs (slice_to f x_t) (slice_to f t) (slice_to f seed_vectors)
            (slice_to f at_feat) (option_map (slice_to f) intent_feat)
            (slice_to f d) (Some (slice_to f instance_ids))
            (option_map (slice_to f) style_features) None None) ;;
  let flow_target := tsub (slice_to f latents) (slice_to f x0_noise) in
  (* (F.mse_loss(flow_target, flow_pred) / t).mean(): a 0-D tensor over
     the whole vector t *)
  let flow_loss :=
    fmean (map (fdiv (mse_loss flow_target flow_pred)) (flat t)) in
  force_cfg <- np_choice_flags (1 / 2) (batch_size - flow_batch_size) ;;
  tp <- consistency_branch f x_t t d seed_vectors at_feat intent_feat
          instance_ids style_features force_cfg ;;
  let speed_target := fst tp in
  let speed_pred := snd tp in
  let consistency_loss := mse_loss speed_pred speed_target in
  (* sum(losses.values()) starts from the integer 0 *)
  ret (mkLosses flow_loss consistency_loss
                (fadd (fadd (Fin 0) flow_loss) consistency_loss)).

(** [GestureLSM.train_reflow(latents, audio_features, x0_noise, seed_vectors)].
    The names [at_feat] and [intent_feat] are neither parameters nor
    assigned in the body: they are read as globals.  Keyword arguments
    are evaluated in the order they are written. *)
Definition train_reflow
    (latents audio_features x0_noise seed_vectors : tensor) : M Losses :=
  let deltas := step_sizes in
  let delta_probs := map (fun _ => 1 / INR (length deltas)) deltas in
  let batch_size := length (rows latents) in
  let f := flow_split batch_size in
  t <- sample_beta_distribution batch_size 2 (12 / 10)
         default_t_min default_t_max ;;
  let t := vec t in
  idx <- multinomial delta_probs batch_size ;;
  let d := fill_prefix f 0 (vec (index_select 0 deltas idx)) in
  t_coef <- lift (reshape_coefs (Batched t)) ;;
  (* x_t = t_coef * latents + (1 - t_coef) * x0_noise: [x0_noise] is an
     argument here, of any shape *)
  scaled_latents <- lift (broadcast2 Rmult t_coef latents) ;;
  scaled_noise <- lift (broadcast2 Rmult (tmap (fun c => 1 - c) t_coef) x0_noise) ;;
  x_t <- lift (broadcast2 Rplus scaled_latents scaled_noise) ;;
  let t := flatten t_coef in
  (* flow_pred = self.denoiser(x=.., timesteps=.., seed=.., at_feat=.., ..) *)
  at_feat <- load_global "at_feat" ;;
  at_arg <- subscript_to f at_feat ;;
  intent_feat <- load_global "intent_feat" ;;
  intent_arg <- optional_slice (subscript_to f) intent_feat ;;
  flow_pred <- call_denoiser Forward
    (mkArgs (slice_to f x_t) (slice_to f t) (slice_to f seed_vectors)
            at_arg intent_arg (slice_to f d) None None None None) ;;
  let flow_target := tsub (slice_to f latents) (slice_to f x0_noise) in
  let flow_loss :=
    fmean (map (fdiv (mse_loss flow_target flow_pred)) (flat t)) in
  force_cfg <- np_choice_flags (8 / 10) (batch_size - f) ;;
  td <- no_grad
    (at_feat <- load_global "at_feat" ;;
     at_arg <- subscript_from f at_feat ;;
     intent_feat <- load_global "intent_feat" ;;
     intent_arg <- optional_slice (subscript_from f) intent_feat ;;
     speed_t <- call_denoiser Forward
       (mkArgs (slice_from f x_t) (slice_from f t) (slice_from f seed_vectors)
               at_arg intent_arg (slice_from f d) None None
               (Some force_cfg) None) ;;
     d_coef <- lift (reshape_coefs (Batched d)) ;;
     let x_td := tadd (slice_from f x_t) (tmul (slice_from f d_coef) speed_t) in
     let d := flatten d_coef in
     speed_td <- call_denoiser Forward
       (mkArgs x_td (tadd (slice_from f t) (slice_from f d))
               (slice_from f seed_vectors) (slice_from f audio_features) None
               (slice_from f d) None None (Some force_cfg) None) ;;
     ret (d, tmap (fun v => v / 2) (tadd speed_t speed_td))) ;;
  let d := fst td in
  let speed_target := snd td in
  speed_pred <- call_denoiser Forward
    (mkArgs (slice_from f x_t) (slice_from f t) (slice_from f seed_vectors)
            (slice_from f audio_features) None
            (tmap (Rmult 2) (slice_from f d)) None None (Some force_cfg) None) ;;
  let consistency_loss := mse_loss speed_pred speed_target in
  ret (mkLosses flow_loss consistency_loss
                (fadd (fadd (Fin 0) flow_loss) consistency_loss)).

End GestureLSM.

(* ================================================================== *)
(** ** Notions used in the statements

    Predicates on tensors, the values one call draws as functions of the
    generator states, the states of the integrator, and concrete inputs. *)

Definition pywf (t : pytensor) : Prop :=
  match t with Scalar0 _ => True | Batched t => wf t end.

Definition pyrank (t : pytensor) : nat := length (pyshape t).

(** Number of entries, and the size of the leading dimension (of a tensor
    that has one). *)
Definition pynumel (t : pytensor) : nat :=
  match t with Scalar0 _ => 1%nat | Batched t => numel t end.

Definition leading (t : pytensor) : nat :=
  match t with Scalar0 _ => 0%nat | Batched t => length (rows t) end.

(** The per-example values of [huber_loss] for a positive [data_dim]. *)
Definition huber_rows (data_dim : nat) (a b : tensor) : list R :=
  map (fun s => (sqrt (s + (54 / 100000 * INR data_dim) ^ 2)
                 - 54 / 100000 * INR data_dim) / INR data_dim)
      (map Rsum (rows (tmap2 (fun x y => (x - y) ^ 2) a b))).

(** A concrete generator state: every variate is 0. *)
Definition gen0 : TorchGen :=
  mkTorchGen (fun _ => 0) (fun _ => 0) (fun _ _ _ => 0) (fun _ => 0%nat) 0.

Definition npgen0 : NumpyGen := mkNumpyGen (fun _ => 0) 0.

Definition world0 : World := mkWorld gen0 npgen0 true [].

Definition advance_torch (n : nat) (w : World) : World :=
  mkWorld (torch_advance n (torch_gen w)) (numpy_gen w) (grad_enabled w)
          (oracle_calls w).

Definition advance_numpy (n : nat) (w : World) : World :=
  mkWorld (torch_gen w) (numpy_advance n (numpy_gen w)) (grad_enabled w)
          (oracle_calls w).

Definition log_calls (cs : list OracleCall) (w : World) : World :=
  mkWorld (torch_gen w) (numpy_gen w) (grad_enabled w) (oracle_calls w ++ cs).

(** [torch.randn_like(x)] from the generator state [g]. *)
Definition noise_like (g : TorchGen) (x : tensor) : tensor :=
  mkT (trail x)
      (chunk (length (rows x)) (prod (trail x))
             (draw_from (normal_at g) (torch_pos g)
                        (length (rows x) * prod (trail x)))).

(** The times and step sizes [sample_t_d] draws from the state [g]. *)
Definition sampled_t (g : TorchGen) (B : nat) : list R :=
  map sigmoid (draw_from (normal_at g) (torch_pos g) B).

Definition sampled_indices (g : TorchGen) (B : nat) : list nat :=
  map (fun r => r mod 7)%nat (draw_from (index_at g) (torch_pos g + B) B).

Definition sampled_d (g : TorchGen) (B f : nat) : list R :=
  map (fun _ => 0) (firstn f (index_select 0 step_sizes (sampled_indices g B)))
  ++ skipn f (index_select 0 step_sizes (sampled_indices g B)).

(** The flags [np.random.choice([True, False], size=n, p=[p, 1-p])] draws. *)
Definition sampled_flags (g : NumpyGen) (p : R) (n : nat) : list bool :=
  map (fun u => if Rlt_dec u p then true else false)
      (draw_from (np_uniform_at g) (np_pos g) n).

Section ConsistencyBranch.

Variable denoiser : oracle_method -> DenoiserArgs -> tensor.

(** The state of [train_forward] when the branch is entered. *)
Variable f : nat.
Variables x_t seed_vectors at_feat instance_ids : tensor.
Variables intent_feat style_features : option tensor.
Variables t d : list R.
Variable force_cfg : list bool.

(** A call on the consistency subset [[f:]]: only the input, the time
    and the step size differ between the three calls. *)
Definition consistency_args (x timesteps cond_time : tensor) : DenoiserArgs :=
  mkArgs x timesteps
         (slice_from f seed_vectors) (slice_from f at_feat)
         (option_map (slice_from f) intent_feat)
         cond_time (Some (slice_from f instance_ids))
         (option_map (slice_from f) style_features)
         (Some force_cfg) None.

Definition speed_t_args : DenoiserArgs :=
  consistency_args (slice_from f x_t) (slice_from f (vec t))
                   (slice_from f (vec d)).

Definition speed_t : tensor := denoiser Forward speed_t_args.

(** [x_td = x_t[f:] + d_coef[f:] * speed_t]. *)
Definition stepped_x_td : tensor :=
  tadd (slice_from f x_t)
       (tmul (slice_from f (mkT [1; 1; 1]%nat (map (fun v => [v]) d))) speed_t).

Definition speed_td_args : DenoiserArgs :=
  consistency_args stepped_x_td
                   (tadd (slice_from f (vec t)) (slice_from f (vec d)))
                   (slice_from f (vec d)).

Definition speed_td : tensor := denoiser Forward speed_td_args.

(** [(speed_t + speed_td) / 2]. *)
Definition speed_target : tensor := tmap (fun v => v / 2) (tadd speed_t speed_td).

Definition speed_pred_args : DenoiserArgs :=
  consistency_args (slice_from f x_t) (slice_from f (vec t))
                   (tmap (Rmult 2) (slice_from f (vec d))).

Definition speed_pred : tensor := denoiser Forward speed_pred_args.

Definition consistency_calls (grad : bool) : list OracleCall :=
  [ mkCall Forward false speed_t_args;
    mkCall Forward false speed_td_args;
    mkCall Forward grad speed_pred_args ].

End ConsistencyBranch.

Section TrainingStep.

Variable cfg : Config.
Variable modality_encoder :
  tensor -> tensor -> tensor -> tensor -> tensor ->
  option tensor -> option tensor -> EncoderOut.
Variable denoiser : oracle_method -> DenoiserArgs -> tensor.
Variable y : ConditionY.
Variable latents : tensor.
Variable w : World.

(** Batch size, flow/consistency split and the size of the noise draw. *)
Definition batch_of : nat := length (rows latents).
Definition split_of : nat := flow_split batch_of.
Definition noise_count : nat := (batch_of * prod (trail latents))%nat.

Definition drawn_features : EncoderOut :=
  modality_encoder (audio_tensor y) (audio_low y) (audio_high y)
    (intention_embeddings y) (intention_mask y) (audio_onset y) (word y).

(** What one call draws, as functions of the two generator states. *)
Definition drawn_x0 : tensor := noise_like (torch_gen w) latents.

Definition drawn_t : list R :=
  sampled_t (torch_advance noise_count (torch_gen w)) batch_of.

Definition drawn_d : list R :=
  sampled_d (torch_advance noise_count (torch_gen w)) batch_of split_of.

Definition drawn_flags : list bool :=
  sampled_flags (numpy_gen w) (1 / 2) (batch_of - split_of).

(** The noised input [x_t = t_coef * latents + (1 - t_coef) * x0_noise]. *)
Definition mixed_x_t : tensor :=
  tadd (tmul (mkT [1; 1; 1]%nat (map (fun v => [v]) drawn_t)) latents)
       (tmul (tmap (fun c => 1 - c) (mkT [1; 1; 1]%nat (map (fun v => [v]) drawn_t)))
             drawn_x0).

(** The oracle call of the flow branch, on the flow subset [[:f]]. *)
Definition flow_args : DenoiserArgs :=
  mkArgs (slice_to split_of mixed_x_t) (slice_to split_of (vec drawn_t))
         (slice_to split_of (seed y))
         (slice_to split_of (enc_audio_low drawn_features))
         (option_map (slice_to split_of) (enc_audio_high drawn_features))
         (slice_to split_of (vec drawn_d)) (Some (slice_to split_of (id y)))
         (option_map (slice_to split_of) (style_feature y)) None None.

Definition flow_target : tensor :=
  tsub (slice_to split_of latents) (slice_to split_of drawn_x0).

Definition flow_pred : tensor := denoiser Forward flow_args.

(** [F.mse_loss(flow_target, flow_pred)], one scalar for the flow subset. *)
Definition flow_mse : fnum := mse_loss flow_target flow_pred.

Definition run_flow_loss : fnum := fmean (map (fdiv flow_mse) drawn_t).

Definition run_speed_target : tensor :=
  speed_target denoiser split_of mixed_x_t (seed y)
    (enc_audio_low drawn_features) (id y) (enc_audio_high drawn_features)
    (style_feature y) drawn_t drawn_d drawn_flags.

Definition run_speed_pred : tensor :=
  speed_pred denoiser split_of mixed_x_t (seed y)
    (enc_audio_low drawn_features) (id y) (enc_audio_high drawn_features)
    (style_feature y) drawn_t drawn_d drawn_flags.

Definition run_consistency_loss : fnum := mse_loss run_speed_pred run_speed_target.

Definition run_losses : Losses :=
  mkLosses run_flow_loss run_consistency_loss
           (fadd (fadd (Fin 0) run_flow_loss) run_consistency_loss).

Definition run_calls : list OracleCall :=
  mkCall Forward (grad_enabled w) flow_args
  :: consistency_calls denoiser split_of mixed_x_t (seed y)
       (enc_audio_low drawn_features) (id y) (enc_audio_high drawn_features)
       (style_feature y) drawn_t drawn_d drawn_flags (grad_enabled w).

Definition run_world : World :=
  mkWorld (torch_advance batch_of (torch_advance batch_of
             (torch_advance noise_count (torch_gen w))))
          (numpy_advance (batch_of - split_of) (numpy_gen w))
          (grad_enabled w)
          (oracle_calls w ++ run_calls).

End TrainingStep.

Definition cfg0 : Config := mkConfig 1 2 1 1 false.

(** An encoder that passes the cached features through. *)
Definition enc0 (audio low high emb mask : tensor) (onset wd : option tensor)
  : EncoderOut := mkEnc low (Some high).

(** A network that predicts the zero velocity. *)
Definition den_zero (m : oracle_method) (args : DenoiserArgs) : tensor :=
  tmap (fun _ => 0) (arg_x args).

(** [b] examples of shape (1,1,1), every entry 1. *)
Definition ones (b : nat) : tensor := mkT [1; 1; 1]%nat (repeat [1] b).

Definition y_of (b : nat) : ConditionY :=
  mkCond (ones b) (ones b) (ones b) (ones b) (ones b) (Some (ones b))
         (ones b) (ones b) None None.

(** A generator whose normal variates are 0, except the one at position 7. *)
Definition gen1 : TorchGen :=
  mkTorchGen (fun k => if (k =? 7)%nat then 1 else 0) (fun _ => 0)
             (fun _ _ _ => 0) (fun _ => 0%nat) 0.

Definition world1 : World := mkWorld gen1 npgen0 true [].

(** The flow loss as the specification words it: the mean, over the
    examples of the flow subset, of the per-example mean squared velocity
    error divided by that example's time value. *)
Definition spec_flow_loss (target pred : tensor) (t_flow : list R) : fnum :=
  fmean (zip_with (fun row ti => fdiv (Rmean row) ti)
                  (rows (tmap2 (fun x y => (x - y) ^ 2) target pred))
                  t_flow).








(** The shape of [x_t] in [train_reflow], when the three operations that
    build it broadcast: [t_coef] has the shape (B, 1, 1, 1). *)
Definition reflow_mix_shape (latents x0_noise : tensor) : option (list nat) :=
  let coef := [length (rows latents); 1; 1; 1]%nat in
  match broadcast_shapes coef (shape latents),
        broadcast_shapes coef (shape x0_noise) with
  | Some s1, Some s2 => broadcast_shapes s1 s2
  | _, _ => None
  end.


(* ================================================================== *)
(** ** The exponential density of the time samplers *)

(** [exponential_pdf(x, a)]. *)
Definition exponential_pdf (x a : R) : R :=
  let C := a / (exp a - 1) in
  C * exp (a * x).

(** [ExponentialPDF._pdf(x, a)]. *)
Definition ExponentialPDF_pdf (x a : R) : R := exponential_pdf x a.

(** The cumulative distribution function on [0, 1] that the comment of
    [sample_t_fast] inverts. *)
Definition exponential_cdf (x a : R) : R := / (exp a - 1) * (exp (a * x) - 1).

(** The inverse transform of [sample_t_fast]:
    [(1/a) * log(1 + u * (exp(a) - 1))]. *)
Definition inverse_transform (a u : R) : R := (1 / a) * ln (1 + u * (exp a - 1)).

(* ================================================================== *)
(** ** The per-timestep loss diagnostic *)


Section LossDiagnostic.

(** [self.modality_encoder(audio, word, wavlm, embeddings, mask)].  The
    encoder is the object that [forward] and [train_forward] call with
    seven arguments and whose value they index with ['audio_low'] and
    ['audio_high']: a mapping.  Called with five arguments it returns its
    mapping, or raises (a [TypeError], when it has no default for the two
    arguments left out). *)
Variable modality_encoder :
  tensor -> tensor -> tensor -> tensor -> tensor -> result EncoderOut.


End LossDiagnostic.

(* ================================================================== *)
(** ** The training entry point ([train.py])

    The trainer, the process group, the loggers and the file system are
    outside the program: a call to one of them is recorded as an event,
    in the order the calls are made, and the file system is a parameter. *)

Module TrainPy.

Inductive run_mode : Type := ModeTrain | ModeTest | ModeRender.

(** [args.resume] (a path or [None]) and [args.mode]. *)
Record Args : Type := mkRunArgs {
  resume : option string;
  mode : run_mode
}.

(** The fields of the configuration that [main_worker] reads. *)
Record WorkerCfg : Type := mkWorkerCfg {
  ddp : bool;
  debug : bool;
  val_period : nat;
  solver_epochs : nat;
  data_test_clip : bool;
  seed : Z
}.

(** A loaded checkpoint: its ['epoch'] entry, when it has one. *)
Record Checkpoint : Type := mkCheckpoint { ckpt_epoch : option nat }.

Record FileSystem : Type := mkFileSystem {
  isdir : string -> bool;
  path_exists : string -> bool;
  torch_load : string -> Checkpoint
}.

Inductive event : Type :=
| InitProcessGroup (rank world_size : nat)
| SetArgsAndLogger (rank : nat)
| SeedEverything (seed : Z)
| PrintExpInfo
| BuildTrainer
| TorchLoad (path : string)
| LoadCheckpoint (path : string)
| LogResumed (path : string) (resume_epoch : nat)
| LogMode (m : run_mode) (resumed : bool)
| SetValSamplerEpoch (epoch : nat)
| TestClip (epoch : nat)
| Val (epoch : nat)
| LogTime (epoch : nat)
| SetTrainSamplerEpoch (epoch : nat)
| TrackerReset
| Train (epoch : nat)
| Test (epoch : nat)
| TestRender (epoch : nat)
| LogBest
| WandbFinish.

Inductive error : Type :=
| FileNotFoundError (path : string)
| ZeroDivisionError
| OverflowError.

(** The events of a run and how it ended. *)
Definition outcome : Type := (list event * option error)%type.

Fixpoint last_char (s : string) : option Ascii.ascii :=
  match s with
  | EmptyString => None
  | String c EmptyString => Some c
  | String _ rest => last_char rest
  end.

(** The character [/]. *)
Definition slash : Ascii.ascii := Ascii.ascii_of_nat 47.

(** [os.path.join(a, b)] for a relative [b]. *)
Definition path_join (a b : string) : string :=
  match last_char a with
  | None => b
  | Some c => if Ascii.eqb c slash then (a ++ b)%string
              else (a ++ "/" ++ b)%string
  end.

(** The truth value of [args.resume]: [None] and the empty string are false. *)
Definition resume_path (a : Args) : option string :=
  match resume a with
  | Some EmptyString => None
  | Some p => Some p
  | None => None
  end.

(** One pass of [for epoch in range(resume_epoch, cfg.solver.epochs + 1)]. *)
Definition epoch_body (cfg : WorkerCfg) (rank trainer_rank epoch : nat) : outcome :=
  let ev_sampler := if ddp cfg then [SetValSamplerEpoch epoch] else [] in
  match val_period cfg with
  | O => (ev_sampler, Some ZeroDivisionError)       (* epoch % cfg.val_period *)
  | S _ =>
      let ev_val :=
        if ((epoch mod val_period cfg =? 0) && (0 <? epoch))%nat then
          if (rank =? 0)%nat then
            if data_test_clip cfg then [TestClip epoch] else [Val epoch]
          else []
        else [] in
      let ev_time := if (trainer_rank =? 0)%nat then [LogTime epoch] else [] in
      let ev_train :=
        if negb (epoch =? solver_epochs cfg)%nat then
          (if ddp cfg then [SetTrainSamplerEpoch epoch] else [])
          ++ [TrackerReset; Train epoch]
        else [] in
      let ev_debug := if debug cfg then [Test epoch] else [] in
      (ev_sampler ++ ev_val ++ ev_time ++ ev_train ++ ev_debug, None)
  end.

Fixpoint epoch_loop (cfg : WorkerCfg) (rank trainer_rank : nat)
    (epochs : list nat) : outcome :=
  match epochs with
  | [] => ([], None)
  | epoch :: rest =>
      match epoch_body cfg rank trainer_rank epoch with
      | (ev, Some e) => (ev, Some e)
      | (ev, None) =>
          let (ev', r) := epoch_loop cfg rank trainer_rank rest in
          (ev ++ ev', r)
      end
  end.

(** The resume logic: the events, and the epoch to start from. *)
Definition resume_from (fs : FileSystem) (a : Args)
  : list event * (nat + error) :=
  match resume_path a with
  | None => ([], inl 0%nat)
  | Some p =>
      let ckpt_path := if isdir fs p then path_join p "ckpt.pth" else p in
      if negb (path_exists fs ckpt_path)
      then ([], inr (FileNotFoundError ckpt_path))
      else
        let checkpoint := torch_load fs ckpt_path in
        let resume_epoch :=
          (match ckpt_epoch checkpoint with Some e => e | None => 0 end + 1)%nat in
        ([TorchLoad ckpt_path; LoadCheckpoint ckpt_path;
          LogResumed ckpt_path resume_epoch],
         inl resume_epoch)
  end.

(** The body of [main_worker(rank, world_size, cfg, args)];
    [trainer_rank] is the [rank] attribute of the trainer it builds. *)
Definition main_worker (fs : FileSystem) (trainer_rank : nat)
    (rank world_size : nat) (cfg : WorkerCfg) (a : Args) : outcome :=
  let ev_init :=
    [InitProcessGroup rank world_size; SetArgsAndLogger rank;
     SeedEverything (seed cfg); PrintExpInfo; BuildTrainer] in
  match resume_from fs a with
  | (ev_resume, inr e) => (ev_init ++ ev_resume, Some e)
  | (ev_resume, inl resume_epoch) =>
      let ev_mode :=
        [LogMode (mode a)
           (match resume_path a with Some _ => true | None => false end)] in
      match mode a with
      | ModeTrain =>
          let (ev_loop, r) :=
            epoch_loop cfg rank trainer_rank
              (seq resume_epoch (solver_epochs cfg + 1 - resume_epoch)) in
          match r with
          | Some e => (ev_init ++ ev_resume ++ ev_mode ++ ev_loop, Some e)
          | None =>
              (ev_init ++ ev_resume ++ ev_mode ++ ev_loop
               ++ (if (rank =? 0)%nat then [LogBest; WandbFinish] else []),
               None)
          end
      | ModeTest =>
          (ev_init ++ ev_resume ++ ev_mode ++ [TestClip 999; Test 999], None)
      | ModeRender =>
          (ev_init ++ ev_resume ++ ev_mode ++ [TestRender 999], None)
      end
  end.

(** The epochs trained, validated and tested in debug mode, read off the
    events. *)
Definition trained (evs : list event) : list nat :=
  flat_map (fun ev => match ev with Train e => [e] | _ => [] end) evs.

Definition validated (evs : list event) : list nat :=
  flat_map (fun ev => match ev with
                      | Val e => [e] | TestClip e => [e] | _ => [] end) evs.

(** What the statements about [main_worker] name: the file the resume
    logic opens, and the epoch it starts from when that file exists. *)
Definition resume_ckpt_path (fs : FileSystem) (p : string) : string :=
  if isdir fs p then path_join p "ckpt.pth" else p.

Definition start_epoch (fs : FileSystem) (a : Args) : nat :=
  match resume_path a with
  | None => 0%nat
  | Some p =>
      (match ckpt_epoch (torch_load fs (resume_ckpt_path fs p)) with
       | Some e => e
       | None => 0
       end + 1)%nat
  end.

(** *** Validation records and checkpoints ([BaseTrainer]) *)

(** [a < b] on floats: false as soon as one side is [nan]. *)
Definition flt (a b : fnum) : bool :=
  match a, b with
  | NaN, _ => false
  | _, NaN => false
  | Fin x, Fin y => if Rlt_dec x y then true else false
  | Fin _, PInf => true
  | Fin _, NInf => false
  | PInf, _ => false
  | NInf, NInf => false
  | NInf, _ => true
  end.

(** Dictionaries with string keys, in insertion order. *)
Fixpoint get {V} (key : string) (d : list (string * V)) : option V :=
  match d with
  | [] => None
  | (k, v) :: rest => if String.eqb k key then Some v else get key rest
  end.

Fixpoint set {V} (key : string) (value : V) (d : list (string * V))
  : list (string * V) :=
  match d with
  | [] => [(key, value)]
  | (k, v) :: rest =>
      if String.eqb k key then (k, value) :: rest
      else (k, v) :: set key value rest
  end.

(** An entry [{"value": v, "epoch": e}] of [self.val_best]. *)
Record Best : Type := mkBest { best_value : fnum; best_epoch : nat }.

(** [self.val_best] as [BaseTrainer.__init__] leaves it. *)
Definition initial_val_best : list (string * Best) :=
  [("fgd"%string, mkBest PInf 0); ("l1div"%string, mkBest NInf 0);
   ("bc"%string, mkBest NInf 0); ("test_clip_fgd"%string, mkBest PInf 0)].

(** [states['val']] of a tracked metric: the fields [val_recording] reads. *)
Record Meter : Type := mkMeter {
  meter_count : nat;
  meter_avg : fnum;
  meter_sum : fnum
}.

(** The checkpoint dictionary, without the state dictionaries of the
    model, the optimiser and the scheduler. *)
Record Saved : Type := mkSaved {
  saved_epoch : nat;
  saved_iteration : nat;
  saved_val_best : list (string * Best)
}.

Inductive disk_op : Type :=
| Makedirs (path : string)                    (* [os.makedirs(path, exist_ok=True)] *)
| TorchSave (ckpt : Saved) (path : string).   (* [torch.save(ckpt, path)] *)

(** [str(n)] for an integer [n >= 0]. *)
Definition str_nat (n : nat) : string :=
  DecimalString.NilEmpty.string_of_uint (Nat.to_uint n).

Definition regular_dir (checkpoint_path : string) (epoch : nat) : string :=
  path_join checkpoint_path ("checkpoint_" ++ str_nat epoch)%string.

Definition best_dir (checkpoint_path name : string) : string :=
  path_join checkpoint_path ("best_" ++ name)%string.

(** The truth value of [best_metric_name]. *)
Definition truthy_name (name : option string) : option string :=
  match name with
  | Some EmptyString => None
  | Some n => Some n
  | None => None
  end.

(** [self.save_checkpoint(epoch, iteration, is_best, best_metric_name)]. *)
Definition save_checkpoint (checkpoint_path : string)
    (val_best : list (string * Best)) (epoch iteration : nat)
    (is_best : bool) (best_metric_name : option string) : list disk_op :=
  let checkpoint := mkSaved epoch iteration val_best in
  (if (epoch mod 20 =? 0)%nat then
     [Makedirs (regular_dir checkpoint_path epoch);
      TorchSave checkpoint
        (path_join (regular_dir checkpoint_path epoch) "ckpt.pth")]
   else [])
  ++
  (if is_best then
     match truthy_name best_metric_name with
     | Some name =>
         [Makedirs (best_dir checkpoint_path name);
          TorchSave checkpoint
            (path_join (best_dir checkpoint_path name) "ckpt.pth")]
     | None => []
     end
   else []).

Definition name_in (name : string) (names : list string) : bool :=
  existsb (String.eqb name) names.

(** The comparison of [val_recording]: lower is better, except for
    ["l1div"] and ["bc"]. *)
Definition is_better (name : string) (value current_best : fnum) : bool :=
  if name_in name ["fgd"%string; "test_clip_fgd"%string]
  then flt value current_best
  else if name_in name ["l1div"%string; "bc"%string]
  then flt current_best value
  else flt value current_best.

Inductive metric_value : Type :=
| MFloat (v : fnum)
| MInt (n : nat).

(** The trainer's fields that [val_recording] reads or writes. *)
Record Trainer : Type := mkTrainer {
  self_rank : nat;
  checkpoint_path : string;
  val_best : list (string * Best);
  train_loader_len : nat;                (* [len(self.train_loader)] *)
  loss_meters : list (string * Meter)    (* name, and its [states['val']] *)
}.

(** The state of the loop over [self.tracker.loss_meters.items()]. *)
Record ValState : Type := mkValState {
  vs_val_best : list (string * Best);
  vs_metrics : list (string * metric_value);
  vs_ops : list disk_op
}.

Definition val_step (self : Trainer) (epoch : nat) (st : ValState)
    (entry : string * Meter) : ValState :=
  let (name, metric) := entry in
  if (0 <? meter_count metric)%nat then
    let value :=
      if (0 <? meter_count metric)%nat then meter_avg metric
      else meter_sum metric in
    let metrics := set ("val/" ++ name)%string (MFloat value) (vs_metrics st) in
    match get name (vs_val_best st) with
    | Some current =>
        let better := is_better name value (best_value current) in
        let val_best' :=
          if better then set name (mkBest value epoch) (vs_val_best st)
          else vs_val_best st in
        let ops :=
          if better then
            save_checkpoint (checkpoint_path self) val_best' epoch
              (epoch * train_loader_len self) true (Some name)
          else [] in
        let shown :=
          match get name val_best' with Some b => b | None => current end in
        mkValState val_best'
          (set ("best_" ++ name ++ "_epoch")%string (MInt (best_epoch shown))
             (set ("best_" ++ name)%string (MFloat (best_value shown)) metrics))
          (vs_ops st ++ ops)
    | None => mkValState (vs_val_best st) metrics (vs_ops st)
    end
  else st.

(** What a call of [val_recording] leaves: the best values, the metrics
    dictionary, the calls made to the disk, and the step of the
    [wandb.log] call when there is one.  The two log lines are not kept. *)
Record ValOut : Type := mkValOut {
  out_val_best : list (string * Best);
  out_metrics : list (string * metric_value);
  out_ops : list disk_op;
  out_wandb_step : option nat
}.

Definition val_recording (self : Trainer) (epoch : nat) : ValOut :=
  let st :=
    fold_left (val_step self epoch) (loss_meters self)
      (mkValState (val_best self) [] []) in
  let ops :=
    vs_ops st
    ++ save_checkpoint (checkpoint_path self) (vs_val_best st) epoch
         (epoch * train_loader_len self) false None in
  mkValOut (vs_val_best st) (vs_metrics st) ops
    (if (self_rank self =? 0)%nat then Some (epoch * train_loader_len self)%nat
     else None).

(** Notions used in the statements: the paths written, the last
    checkpoint written to a path, and a file system in which what was
    written is found. *)
Definition saved_paths (ops : list disk_op) : list string :=
  flat_map (fun op => match op with TorchSave _ p => [p] | Makedirs _ => [] end)
    ops.

Definition last_saved (ops : list disk_op) (path : string) : option Saved :=
  fold_left (fun acc op =>
               match op with
               | TorchSave c p => if String.eqb p path then Some c else acc
               | Makedirs _ => acc
               end) ops None.

Definition holds (fs : FileSystem) (ops : list disk_op) : Prop :=
  (forall d, In (Makedirs d) ops -> isdir fs d = true) /\
  (forall p c, last_saved ops p = Some c ->
     path_exists fs p = true /\
     ckpt_epoch (torch_load fs p) = Some (saved_epoch c)).

(** Whether the meter of [name] makes [val_recording] replace the best
    value [current]. *)
Definition improves (meters : list (string * Meter)) (name : string)
    (current : Best) : option Meter :=
  match get name meters with
  | Some m =>
      if ((0 <? meter_count m)%nat
          && is_better name (meter_avg m) (best_value current))%bool
      then Some m else None
  | None => None
  end.

(** A file system made of the operations [ops]. *)
Definition disk_of (ops : list disk_op) : FileSystem :=
  mkFileSystem
    (fun d => existsb (fun op => match op with
                                 | Makedirs d' => String.eqb d' d
                                 | TorchSave _ _ => false
                                 end) ops)
    (fun p => match last_saved ops p with Some _ => true | None => false end)
    (fun p => match last_saved ops p with
              | Some c => mkCheckpoint (Some (saved_epoch c))
              | None => mkCheckpoint None
              end).

(** The paths [val_recording] writes for the metric [name] when it
    improves, and at its end. *)
Definition regular_paths (self : Trainer) (epoch : nat) : list string :=
  if (epoch mod 20 =? 0)%nat
  then [path_join (regular_dir (checkpoint_path self) epoch) "ckpt.pth"]
  else [].

Definition best_paths (self : Trainer) (name : string) : list string :=
  match truthy_name (Some name) with
  | Some n => [path_join (best_dir (checkpoint_path self) n) "ckpt.pth"]
  | None => []
  end.

Definition improved_paths (self : Trainer) (epoch : nat)
    (entry : string * Meter) : list string :=
  match get (fst entry) (val_best self) with
  | Some current =>
      match improves (loss_meters self) (fst entry) current with
      | Some _ => regular_paths self epoch ++ best_paths self (fst entry)
      | None => []
      end
  | None => []
  end.

(** The test one pass of the loop of [val_recording] makes: the meter has
    a count and its average is better than the best value. *)
Definition step_improves (name : string) (m : Meter) (current : Best) : bool :=
  ((0 <? meter_count m)%nat
   && is_better name (meter_avg m) (best_value current))%bool.

(** *** Collating the intention embeddings ([custom_collate])

    The branch of [custom_collate] for the key ['intention_embeddings']:
    what it puts under that key and under ['intention_mask'], from the
    entries [sample[key]] of the batch.  An entry is a list of 2-D tensors
    [seq_len, hidden]. *)

Record Mat : Type := mkMat {
  hidden : nat;                  (* [shape[1]] *)
  mat_rows : list (list R)       (* [shape[0]] rows *)
}.

(** [torch.zeros(n, h)]. *)
Definition zeros (n h : nat) : Mat := mkMat h (repeat (repeat 0 h) n).

(** [torch.cat(ts, dim=0)] on 2-D tensors (the messages are shortened). *)
Definition torch_cat (ts : list Mat) : result Mat :=
  match ts with
  | [] => Raise (RuntimeError "torch.cat(): expected a non-empty list of Tensors")
  | t :: rest =>
      if forallb (fun u => (hidden u =? hidden t)%nat) rest
      then Ok (mkMat (hidden t) (concat (map mat_rows ts)))
      else Raise (RuntimeError "Sizes of tensors must match except in dimension 0")
  end.

(** The inner search: the hidden size of the first tensor of the first
    sample that has one. *)
Fixpoint find_hidden (batch : list (list Mat)) : option nat :=
  match batch with
  | [] => None
  | [] :: rest => find_hidden rest
  | (t :: _) :: _ => Some (hidden t)
  end.

(** The loop [for sample in batch], from the value [hidden_size] has when
    [samples] remain: the lists [cat_intentions] and [lengths]. *)
Fixpoint collate_samples (batch samples : list (list Mat))
    (hidden_size : option nat) : result (list Mat * list nat) :=
  match samples with
  | [] => Ok ([], [])
  | sample :: rest =>
      match sample with
      | [] =>
          let hidden_size' :=
            match hidden_size with
            | Some h => h
            | None =>
                match find_hidden batch with
                | Some h => h
                | None => 768%nat       (* fallback *)
                end
            end in
          match collate_samples batch rest (Some hidden_size') with
          | Ok (cat_intentions, lengths) =>
              Ok (zeros 1 hidden_size' :: cat_intentions, 0%nat :: lengths)
          | Raise e => Raise e
          end
      | _ :: _ =>
          match torch_cat sample with
          | Ok concat =>
              let hidden_size' :=
                match hidden_size with
                | Some h => Some h
                | None => Some (hidden concat)
                end in
              match collate_samples batch rest hidden_size' with
              | Ok (cat_intentions, lengths) =>
                  Ok (concat :: cat_intentions,
                      length (mat_rows concat) :: lengths)
              | Raise e => Raise e
              end
          | Raise e => Raise e
          end
      end
  end.

(** A padded batch [batch, pad_len, pad_hidden]. *)
Record Padded : Type := mkPadded {
  pad_len : nat;
  pad_hidden : nat;
  pad_data : list (list (list R))
}.

(** One sequence copied into its zero-filled slot; the copy broadcasts a
    hidden size of 1 and refuses any other mismatch. *)
Definition pad_one (len h : nat) (t : Mat) : result (list (list R)) :=
  let fill := repeat (repeat 0 h) (len - length (mat_rows t)) in
  if (hidden t =? h)%nat then Ok (mat_rows t ++ fill)
  else if (hidden t =? 1)%nat
  then Ok (map (fun row => repeat (hd 0 row) h) (mat_rows t) ++ fill)
  else Raise (RuntimeError "The size of tensor a must match the size of tensor b").

Fixpoint pad_all (len h : nat) (ts : list Mat) : result (list (list (list R))) :=
  match ts with
  | [] => Ok []
  | t :: rest =>
      match pad_one len h t with
      | Ok slot =>
          match pad_all len h rest with
          | Ok slots => Ok (slot :: slots)
          | Raise e => Raise e
          end
      | Raise e => Raise e
      end
  end.

(** [pad_sequence(sequences, batch_first=True)]: the trailing size is that
    of the first sequence, the length the largest one. *)
Definition pad_sequence (sequences : list Mat) : result Padded :=
  match sequences with
  | [] => Raise (RuntimeError "received an empty list of sequences")
  | t0 :: _ =>
      let len := list_max (map (fun t => length (mat_rows t)) sequences) in
      match pad_all len (hidden t0) sequences with
      | Ok data => Ok (mkPadded len (hidden t0) data)
      | Raise e => Raise e
      end
  end.

(** [row[:l] = 1]. *)
Definition fill_true (l : nat) (row : list bool) : list bool :=
  repeat true (Nat.min l (length row)) ++ skipn l row.

(** The body of the branch: the entries for ['intention_embeddings'] and
    ['intention_mask']. *)
Definition collate_intention_entries (batch : list (list Mat))
  : result (Padded * list (list bool)) :=
  match collate_samples batch batch None with
  | Ok (cat_intentions, lengths) =>
      let max_len :=
        match lengths with
        | [] => 1%nat
        | _ :: _ => list_max lengths
        end in
      match pad_sequence cat_intentions with
      | Ok padded =>
          let mask :=
            map (fun l => if (0 <? l)%nat
                          then fill_true l (repeat false max_len)
                          else repeat false max_len) lengths in
          Ok (padded, mask)
      | Raise e => Raise e
      end
  | Raise e => Raise e
  end.

(** The keys are read from [batch[0]]: an empty batch raises there, before
    the branch is entered. *)
Definition collate_intentions (batch : list (list Mat))
  : result (Padded * list (list bool)) :=
  match batch with
  | [] => Raise (IndexError "list index out of range")
  | _ :: _ => collate_intention_entries batch
  end.

(** Notions used in the statements: the rows of a sample, the slot it gets
    before padding, and the hidden size of the result. *)
Definition sample_rows (sample : list Mat) : list (list R) :=
  concat (map mat_rows sample).

Definition collated_hidden (batch : list (list Mat)) : nat :=
  match find_hidden batch with
  | Some h => h
  | None => 768%nat
  end.

Definition slot_rows (batch : list (list Mat)) (sample : list Mat)
  : list (list R) :=
  match sample with
  | [] => [repeat 0 (collated_hidden batch)]
  | _ :: _ => sample_rows sample
  end.

Definition uniform_hidden (h : nat) (batch : list (list Mat)) : Prop :=
  Forall (Forall (fun t => hidden t = h)) batch.

Definition is_empty_sample (sample : list Mat) : bool :=
  match sample with
  | [] => true
  | _ :: _ => false
  end.

(** *** The search for a free port ([__main__])

    [bind_fails port] tells whether binding [port] raises [socket.error];
    each port is tried at most once. *)

Definition first_port : nat := 295 * 100.        (* 29500 *)
Definition last_port : nat := 256 * 256 - 1.     (* 65535 *)

(** [is_port_in_use(port)]: binding a port above 65535 raises
    [OverflowError], which the function does not catch. *)
Definition is_port_in_use (bind_fails : nat -> bool) (port : nat)
  : bool + error :=
  if (last_port <? port)%nat then inr OverflowError
  else inl (bind_fails port).

(** [while is_port_in_use(master_port): print(...); master_port += 1],
    with the ports printed; [None] when [fuel] passes do not end it. *)
Fixpoint find_port (bind_fails : nat -> bool) (fuel master_port : nat)
  : option (list nat * (nat + error)) :=
  match fuel with
  | O => None
  | S fuel' =>
      match is_port_in_use bind_fails master_port with
      | inr e => Some ([], inr e)
      | inl false => Some ([], inl master_port)
      | inl true =>
          match find_port bind_fails fuel' (master_port + 1) with
          | Some (printed, r) => Some (master_port :: printed, r)
          | None => None
          end
      end
  end.

End TrainPy.

(* ================================================================== *)
(** ** [sample_t]

    The distribution object is an argument of the function: its method
    [rvs(size=n, a=a)] is a parameter here. *)

Definition sample_t (rvs : nat -> R -> M (list R)) (num_samples : nat) (a : R)
  : M (list R) :=
  t <- rvs num_samples a ;;
  let t := t ++ map (fun x => 1 - x) t in
  perm <- torch_randperm (length t) ;;
  let t := firstn num_samples (index_select 0 t perm) in
  let t_min := 1 / 100000 in
  let t_max := 1 - 1 / 100000 in
  ret (rescale t_min t_max t).

(** The sample together with its mirror image, as [sample_t] builds it. *)
Definition symmetrised (t : list R) : list R := t ++ map (fun x => 1 - x) t.

(* ================================================================== *)
(** * Properties *)

(** ** Lists and rows *)

Lemma concat_singletons (l : list R) : concat (map (fun v => [v]) l) = l.
Proof. induction l as [|x l IH]; simpl; [reflexivity | now rewrite IH]. Qed.

Lemma firstn_length_app {A} (r x : list A) : firstn (length r) (r ++ x) = r.
Proof. induction r as [|a r IH]; simpl; [now destruct x | now rewrite IH]. Qed.

Lemma skipn_length_app {A} (r x : list A) : skipn (length r) (r ++ x) = x.
Proof. induction r as [|a r IH]; simpl; [reflexivity | exact IH]. Qed.

Lemma chunk_concat (k : nat) (rs : list (list R)) :
  Forall (fun r => length r = k) rs -> chunk (length rs) k (concat rs) = rs.
Proof.
  induction 1 as [|r rs Hr _ IH]; simpl; [reflexivity|].
  subst k. now rewrite firstn_length_app, skipn_length_app, IH.
Qed.

Lemma chunk_length (b k : nat) (l : list R) : length (chunk b k l) = b.
Proof. revert l; induction b as [|b IH]; intros l; simpl; [reflexivity | now rewrite IH]. Qed.

Lemma chunk_rows_length (b k : nat) (l : list R) :
  length l = (b * k)%nat -> Forall (fun r => length r = k) (chunk b k l).
Proof.
  revert l; induction b as [|b IH]; intros l Hl; simpl; constructor.
  - rewrite length_firstn. simpl in Hl. lia.
  - apply IH. rewrite length_skipn. simpl in Hl. lia.
Qed.

Lemma concat_length_uniform (k : nat) (rs : list (list R)) :
  Forall (fun r => length r = k) rs -> length (concat rs) = (length rs * k)%nat.
Proof.
  induction 1 as [|r rs Hr _ IH]; simpl; [reflexivity|].
  rewrite length_app, IH, Hr. reflexivity.
Qed.

Lemma flat_vec (l : list R) : flat (vec l) = l.
Proof. apply concat_singletons. Qed.

Lemma wf_vec (l : list R) : wf (vec l).
Proof.
  unfold wf, vec, row_size; simpl. apply Forall_forall.
  intros r Hr. apply in_map_iff in Hr. destruct Hr as [v [<- _]]. reflexivity.
Qed.

Lemma numel_flat (t : tensor) : wf t -> length (flat t) = numel t.
Proof. intros H. unfold flat, numel. now apply concat_length_uniform. Qed.

(** ** reshape_coefs *)

Lemma concat_chunk (b k : nat) (l : list R) :
  length l = (b * k)%nat -> concat (chunk b k l) = l.
Proof.
  revert l; induction b as [|b IH]; intros l Hl; simpl.
  - destruct l; [reflexivity | discriminate].
  - rewrite IH.
    + apply firstn_skipn.
    + rewrite length_skipn. simpl in Hl. lia.
Qed.

Lemma reshape_ok (b : nat) (tl : list nat) (t : tensor) :
  wf t -> (b * prod tl)%nat = numel t ->
  exists r, reshape b tl t = Ok r /\ shape r = b :: tl /\ flat r = flat t /\ wf r.
Proof.
  intros Hwf Hn. unfold reshape. rewrite (proj2 (Nat.eqb_eq _ _) Hn).
  assert (Hl : length (flat t) = (b * prod tl)%nat) by (rewrite numel_flat; auto).
  exists (mkT tl (chunk b (prod tl) (flat t))).
  split; [reflexivity|]. split; [|split].
  - unfold shape; simpl. now rewrite chunk_length.
  - unfold flat at 1; simpl. now apply concat_chunk.
  - unfold wf, row_size; simpl. now apply chunk_rows_length.
Qed.

Lemma reshape_coefs_vec (l : list R) :
  reshape_coefs (Batched (vec l)) = Ok (mkT [1; 1; 1]%nat (map (fun v => [v]) l)).
Proof.
  unfold reshape_coefs, reshape, numel, row_size, vec; simpl.
  rewrite length_map.
  replace (length l * 1 =? length l * 1)%nat with true by (symmetry; apply Nat.eqb_refl).
  f_equal. f_equal. unfold flat; simpl.
  rewrite <- (length_map (fun v : R => [v]) l).
  apply chunk_concat. apply Forall_forall. intros r Hr.
  apply in_map_iff in Hr. destruct Hr as [v [<- _]]. reflexivity.
Qed.

(** C7 (as the code has it).  [reshape_coefs] maps a 1-D tensor of length
    B to shape (B,1,1,1) with the same entries in the same order; it
    raises on a 0-D tensor and on every tensor whose number of entries
    differs from its leading dimension; every other tensor, of whatever
    rank (trailing dimensions all 1, or leading dimension 0), is reshaped
    to (B,1,1,1) with its entries kept in order. *)
Theorem reshape_coefs_shape_or_raise (t : pytensor) (Hwf : pywf t) :
  (pyrank t = 1%nat ->
     exists r, reshape_coefs t = Ok r /\
               shape r = [leading t; 1; 1; 1]%nat /\ flat r = pyflat t) /\
  (pyrank t = 0%nat -> exists e, reshape_coefs t = Raise e) /\
  (pynumel t <> leading t -> exists e, reshape_coefs t = Raise e) /\
  ((1 <= pyrank t)%nat -> pynumel t = leading t ->
     exists r, reshape_coefs t = Ok r /\
               shape r = [leading t; 1; 1; 1]%nat /\ flat r = pyflat t).
Proof.
  assert (Hgen : forall t', wf t' -> numel t' = length (rows t') ->
            exists r, reshape_coefs (Batched t') = Ok r /\
                      shape r = [length (rows t'); 1; 1; 1]%nat /\
                      flat r = flat t').
  { intros t' Hw Hn. simpl.
    destruct (reshape_ok (length (rows t')) [1; 1; 1]%nat t' Hw) as [r [E [S [F _]]]].
    - simpl. lia.
    - exists r. auto. }
  destruct t as [v | t']; simpl in *.
  - repeat split; intros.
    + discriminate.
    + eexists; reflexivity.
    + eexists; reflexivity.
    + unfold pyrank in *; simpl in *; lia.
  - repeat split; intros.
    + apply Hgen; auto. unfold pyrank, pyshape, shape in H; simpl in H.
      destruct (trail t') eqn:Et; [|discriminate].
      unfold numel, row_size. rewrite Et. simpl. lia.
    + unfold pyrank in H; simpl in H; discriminate.
    + unfold reshape. simpl.
      destruct (Nat.eqb_spec (length (rows t') * 1) (numel t')) as [E|E].
      * exfalso. apply H. lia.
      * eexists; reflexivity.
    + apply Hgen; auto.
Qed.

(** The clause at a concrete 1-D tensor. *)
Lemma reshape_coefs_shape_or_raise_witness :
  exists r, reshape_coefs (Batched (vec [3; 4])) = Ok r /\
            shape r = [2; 1; 1; 1]%nat /\ flat r = [3; 4].
Proof.
  destruct (reshape_coefs_shape_or_raise (Batched (vec [3; 4])) (wf_vec [3; 4]))
    as [H _].
  apply H. reflexivity.
Defined.

(** C7, the claim as written fails: a tensor of shape (2,1), which is not
    1-D, is reshaped to (2,1,1,1) instead of being refused. *)
Lemma reshape_coefs_accepts_rank2 :
  pywf (Batched (mkT [1%nat] [[5]; [7]])) /\
  pyrank (Batched (mkT [1%nat] [[5]; [7]])) = 2%nat /\
  reshape_coefs (Batched (mkT [1%nat] [[5]; [7]]))
    = Ok (mkT [1; 1; 1]%nat [[5]; [7]]).
Proof.
  repeat split.
  repeat constructor.
Qed.

(** ** Scalars *)

Arguments fdiv : simpl never.

Lemma fdiv_Fin (a r : R) : r <> 0 -> fdiv (Fin a) r = Fin (a / r).
Proof. intros H. unfold fdiv. destruct (Req_EM_T r 0); [contradiction | reflexivity]. Qed.

Lemma fdiv_zero_zero : fdiv (Fin 0) 0 = NaN.
Proof.
  unfold fdiv. destruct (Req_EM_T 0 0) as [_|N]; [reflexivity | now elim N].
Qed.

Lemma fsum_Fin (l : list R) : fsum (map Fin l) = Fin (Rsum l).
Proof.
  unfold fsum. induction l as [|x l IH]; simpl; [reflexivity|].
  rewrite IH. reflexivity.
Qed.

Lemma fmean_Fin (l : list R) :
  l <> [] -> fmean (map Fin l) = Fin (Rsum l / INR (length l)).
Proof.
  intros Hl. unfold fmean. rewrite fsum_Fin, length_map. apply fdiv_Fin.
  destruct l; [congruence|]. apply not_0_INR. discriminate.
Qed.

Lemma Rmean_Fin (l : list R) :
  l <> [] -> Rmean l = Fin (Rsum l / INR (length l)).
Proof.
  intros Hl. unfold Rmean. apply fdiv_Fin.
  destruct l; [congruence|]. apply not_0_INR. discriminate.
Qed.

Lemma Rmean_nil : Rmean [] = NaN.
Proof. unfold Rmean; simpl. apply fdiv_zero_zero. Qed.

Lemma Rsum_nonneg (l : list R) : Forall (fun v => 0 <= v) l -> 0 <= Rsum l.
Proof. induction 1; simpl; lra. Qed.

Lemma Rsum_zero (l : list R) : Forall (fun v => v = 0) l -> Rsum l = 0.
Proof. induction 1; simpl; lra. Qed.

Lemma zip_with_length {A B C} (f : A -> B -> C) (l : list A) (m : list B) :
  length (zip_with f l m) = Nat.min (length l) (length m).
Proof.
  revert m; induction l as [|a l IH]; intros [|b m]; simpl; try reflexivity.
  now rewrite IH.
Qed.

Lemma zip_with_diag {A C} (f : A -> A -> C) (l : list A) :
  zip_with f l l = map (fun x => f x x) l.
Proof. induction l as [|a l IH]; simpl; [reflexivity | now rewrite IH]. Qed.

Lemma zip_with_Forall {A B C} (P : C -> Prop) (f : A -> B -> C) l m :
  (forall a b, P (f a b)) -> Forall P (zip_with f l m).
Proof.
  intros H. revert m; induction l as [|a l IH]; intros [|b m]; simpl; auto.
Qed.

Lemma row_bcast_diag (f : R -> R -> R) (r : list R) :
  row_bcast f r r = map (fun x => f x x) r.
Proof.
  unfold row_bcast. destruct r as [|x [|y r]]; try reflexivity.
  apply (zip_with_diag f (x :: y :: r)).
Qed.

Lemma row_bcast_Forall (P : R -> Prop) (f : R -> R -> R) (ra rb : list R) :
  (forall a b, P (f a b)) -> Forall P (row_bcast f ra rb).
Proof.
  intros H. unfold row_bcast.
  destruct ra as [|a [|a' ra]]; destruct rb as [|b [|b' rb]];
    try (apply zip_with_Forall; auto);
    apply Forall_forall; intros v Hv; apply in_map_iff in Hv;
    destruct Hv as [u [<- _]]; auto.
Qed.

(** ** huber_loss *)

Lemma sq_err_nonneg (x y : R) : 0 <= (x - y) ^ 2.
Proof. apply pow2_ge_0. Qed.

Lemma huber_term_nonneg (s c : R) : 0 <= s -> 0 <= c -> 0 <= sqrt (s + c ^ 2) - c.
Proof.
  intros Hs Hc.
  assert (H : sqrt (c ^ 2) <= sqrt (s + c ^ 2)) by (apply sqrt_le_1_alt; lra).
  rewrite sqrt_pow2 in H by exact Hc. lra.
Qed.

Lemma huber_term_zero (c : R) : 0 <= c -> sqrt (0 + c ^ 2) - c = 0.
Proof. intros Hc. rewrite Rplus_0_l, sqrt_pow2 by exact Hc. lra. Qed.

Lemma huber_c_nonneg (n : nat) : 0 <= 54 / 100000 * INR n.
Proof. pose proof (pos_INR n). nra. Qed.

Lemma huber_rows_nonneg (n : nat) (a b : tensor) :
  (1 <= n)%nat -> Forall (fun v => 0 <= v) (huber_rows n a b).
Proof.
  intros Hn. unfold huber_rows. apply Forall_forall. intros v Hv.
  apply in_map_iff in Hv. destruct Hv as [s [<- Hs]].
  apply in_map_iff in Hs. destruct Hs as [r [<- Hr]].
  assert (0 < INR n) by (apply lt_0_INR; lia).
  apply Rmult_le_pos; [|left; now apply Rinv_0_lt_compat].
  apply huber_term_nonneg; [|apply huber_c_nonneg].
  apply Rsum_nonneg. unfold tmap2 in Hr; cbn [rows] in Hr.
  assert (HF : Forall (Forall (fun v => 0 <= v))
                 (zip_with (row_bcast (fun x y => (x - y) ^ 2)) (rows a) (rows b))).
  { apply zip_with_Forall. intros ra rb. apply row_bcast_Forall.
    intros; apply sq_err_nonneg. }
  rewrite Forall_forall in HF. now apply HF.
Qed.

Lemma huber_rows_diag (n : nat) (a : tensor) :
  (1 <= n)%nat -> Forall (fun v => v = 0) (huber_rows n a a).
Proof.
  intros Hn. unfold huber_rows. apply Forall_forall. intros v Hv.
  apply in_map_iff in Hv. destruct Hv as [s [<- Hs]].
  apply in_map_iff in Hs. destruct Hs as [r [<- Hr]].
  unfold tmap2 in Hr; cbn [rows] in Hr. rewrite zip_with_diag in Hr.
  apply in_map_iff in Hr. destruct Hr as [r0 [<- _]].
  rewrite row_bcast_diag. cbv beta.
  assert (Hz : Rsum (map (fun x => (x - x) ^ 2) r0) = 0).
  { apply Rsum_zero. apply Forall_forall. intros u Hu.
    apply in_map_iff in Hu. destruct Hu as [x [<- _]]. ring. }
  rewrite Hz, huber_term_zero by apply huber_c_nonneg.
  unfold Rdiv. ring.
Qed.

Lemma huber_loss_unfold (a b : tensor) (c j l : nat) (red : string) :
  trail a = [c; j; l] -> (1 <= c * j * l)%nat ->
  huber_loss a b red =
    if String.eqb red "mean" then Ok (Reduced (fmean (map Fin (huber_rows (c * j * l) a b))))
    else if String.eqb red "sum" then Ok (Reduced (fsum (map Fin (huber_rows (c * j * l) a b))))
    else Ok (PerExample (map Fin (huber_rows (c * j * l) a b))).
Proof.
  intros Ht Hd. unfold huber_loss. rewrite Ht.
  assert (Hne : INR (c * j * l) <> 0) by (apply not_0_INR; lia).
  assert (E : map (fun v => fdiv (Fin v) (INR (c * j * l)))
                (map (fun s => sqrt (s + (54 / 100000 * INR (c * j * l)) ^ 2)
                               - 54 / 100000 * INR (c * j * l))
                     (map Rsum (rows (tmap2 (fun x y => (x - y) ^ 2) a b))))
              = map Fin (huber_rows (c * j * l) a b)).
  { unfold huber_rows. rewrite !map_map. apply map_ext. intros r.
    now apply fdiv_Fin. }
  rewrite E. reflexivity.
Qed.

Lemma huber_rows_length (n : nat) (a b : tensor) :
  length (huber_rows n a b) = Nat.min (length (rows a)) (length (rows b)).
Proof. unfold huber_rows, tmap2; simpl. now rewrite !length_map, zip_with_length. Qed.

(** *** In the arithmetic of the program *)

Lemma float_sub_self (x : SpecFloat.spec_float) :
  Float32.finite x = true -> Float32.sub x x = Float32.zero.
Proof.
  destruct x as [s|s| |s m e]; cbn [Float32.finite]; try discriminate; intros _.
  - unfold Float32.sub, SpecFloat.SFsub. now destruct s.
  - unfold Float32.sub, SpecFloat.SFsub. rewrite Z.min_id, Z.sub_diag. reflexivity.
Qed.

Lemma float_square_self (x : SpecFloat.spec_float) :
  Float32.finite x = true ->
  Float32.mul (Float32.sub x x) (Float32.sub x x) = Float32.zero.
Proof. intros H. now rewrite float_sub_self. Qed.

Lemma float_sum_zeros (l : list SpecFloat.spec_float) :
  Forall (fun x => x = Float32.zero) l -> Float32.sum l = Float32.zero.
Proof.
  unfold Float32.sum. induction 1 as [|x l Hx _ IH]; [reflexivity|].
  cbn [fold_left]. rewrite Hx. exact IH.
Qed.

Lemma float_nth_zero (row : list SpecFloat.spec_float) (k : nat) :
  Forall (fun x => x = Float32.zero) row -> nth k row Float32.zero = Float32.zero.
Proof.
  intros H. destruct (nth_in_or_default k row Float32.zero) as [Hin | E]; [|exact E].
  exact (proj1 (Forall_forall _ _) H _ Hin).
Qed.

Lemma float_sum_dims123_zeros (n : nat) (row : list SpecFloat.spec_float) :
  Forall (fun x => x = Float32.zero) row ->
  Float32.sum_dims123 n 1 row = [Float32.zero].
Proof.
  intros H. unfold Float32.sum_dims123. cbn [seq map]. f_equal.
  apply float_sum_zeros. apply Forall_forall. intros x Hx.
  apply in_map_iff in Hx. destruct Hx as [k [<- _]]. now apply float_nth_zero.
Qed.

Lemma float_squares_diag (rows : list (list SpecFloat.spec_float)) :
  Forall (Forall (fun x => Float32.finite x = true)) rows ->
  Forall (Forall (fun x => x = Float32.zero))
    (zip_with (zip_with (fun x y => Float32.mul (Float32.sub x y) (Float32.sub x y)))
       rows rows).
Proof.
  intros H. rewrite zip_with_diag. apply Forall_forall. intros r Hr.
  apply in_map_iff in Hr. destruct Hr as [row [<- Hrow]].
  rewrite zip_with_diag. apply Forall_forall. intros v Hv.
  apply in_map_iff in Hv. destruct Hv as [x [<- Hx]].
  apply float_square_self.
  exact (proj1 (Forall_forall _ _) (proj1 (Forall_forall _ _) H row Hrow) x Hx).
Qed.

Lemma float_flat_map_zeros (n : nat) (rows : list (list SpecFloat.spec_float)) :
  Forall (Forall (fun x => x = Float32.zero)) rows ->
  flat_map (Float32.sum_dims123 n 1) rows = repeat Float32.zero (length rows).
Proof.
  induction 1 as [|r rows Hr _ IH]; [reflexivity|].
  cbn [flat_map length repeat]. rewrite (float_sum_dims123_zeros n r Hr), IH.
  reflexivity.
Qed.

(** The per-example values of [huber_loss(a, a)], before the reduction. *)
Lemma float_huber_equal_inputs (fa : Float32.ftensor) (c j l : nat) :
  Float32.ftrail fa = [c; j; l] -> Float32.all_finite fa ->
  map (fun v => Float32.div v (Float32.single_of_Z (Z.of_nat (c * j * l))))
    (map (fun s =>
            Float32.sub
              (Float32.sqrt
                 (Float32.add s
                    (Float32.single_of_double
                       (SpecFloat.SFmul 53 1024 (Float32.huber_c (c * j * l))
                          (Float32.huber_c (c * j * l))))))
              (Float32.single_of_double (Float32.huber_c (c * j * l))))
       (flat_map (Float32.sum_dims123 (c * j * l) (prod []))
          (zip_with
             (zip_with (fun x y => Float32.mul (Float32.sub x y) (Float32.sub x y)))
             (Float32.frows fa) (Float32.frows fa))))
  = repeat (Float32.residue (c * j * l)) (length (Float32.frows fa)).
Proof.
  intros _ Hfin. cbn [prod fold_right].
  rewrite (float_flat_map_zeros _ _ (float_squares_diag _ Hfin)).
  rewrite zip_with_length, Nat.min_id, !map_repeat. reflexivity.
Qed.

(** C9 (as the code has it).  For rank-4 tensors [a] and [b] of the same
    shape (B,C,J,L) with C*J*L >= 1, in exact arithmetic: under ['sum'] the
    Huber loss is a non-negative number and [huber_loss(a, a)] is 0; under
    ['mean'] the same holds when the batch is not empty (B >= 1).  In the
    float32 arithmetic of the program this holds up to rounding only:
    for a finite [a] every per-example value of [huber_loss(a, a)] is one
    and the same number, [(sqrt(0 + c^2) - c) / data_dim] as the program
    rounds it, whatever [a] holds; where that number is 0 the ['sum'] is 0
    too; it is 0 for [data_dim = 1] and negative, -14913081 * 2^-58 (about
    -5.17e-11), for [data_dim = 9]. *)
Theorem huber_loss_nonneg_and_zero
    (a b : tensor) (fa : Float32.ftensor) (B c j l : nat)
    (Ha : shape a = [B; c; j; l]) (Hb : shape b = [B; c; j; l])
    (Hd : (1 <= c * j * l)%nat)
    (Hfa : Float32.ftrail fa = [c; j; l])
    (Hfin : Float32.all_finite fa) :
  (exists r, huber_loss a b "sum" = Ok (Reduced (Fin r)) /\ 0 <= r) /\
  huber_loss a a "sum" = Ok (Reduced (Fin 0)) /\
  ((1 <= B)%nat ->
     (exists r, huber_loss a b "mean" = Ok (Reduced (Fin r)) /\ 0 <= r) /\
     huber_loss a a "mean" = Ok (Reduced (Fin 0))) /\
  Float32.huber_loss fa fa "none"
    = Ok (Float32.PerExample
            (repeat (Float32.residue (c * j * l)) (length (Float32.frows fa)))) /\
  (Float32.residue (c * j * l) = Float32.zero ->
   Float32.huber_loss fa fa "sum" = Ok (Float32.Reduced Float32.zero)) /\
  Float32.residue 1 = Float32.zero /\
  Float32.residue 9 = SpecFloat.S754_finite true 14913081 (-58).
Proof.
  assert (Hnone : Float32.huber_loss fa fa "none"
                  = Ok (Float32.PerExample
                          (repeat (Float32.residue (c * j * l))
                                  (length (Float32.frows fa))))).
  { unfold Float32.huber_loss. rewrite Hfa. cbv zeta.
    rewrite (float_huber_equal_inputs fa c j l Hfa Hfin). reflexivity. }
  assert (Hsum : Float32.residue (c * j * l) = Float32.zero ->
                 Float32.huber_loss fa fa "sum" = Ok (Float32.Reduced Float32.zero)).
  { intros Hz. unfold Float32.huber_loss. rewrite Hfa. cbv zeta.
    rewrite (float_huber_equal_inputs fa c j l Hfa Hfin), Hz.
    cbn [String.eqb Ascii.eqb Bool.eqb]. do 2 f_equal.
    apply float_sum_zeros. apply Forall_forall. intros x Hx.
    now apply repeat_spec in Hx. }
  assert (Hexact :
    (exists r, huber_loss a b "sum" = Ok (Reduced (Fin r)) /\ 0 <= r) /\
    huber_loss a a "sum" = Ok (Reduced (Fin 0)) /\
    ((1 <= B)%nat ->
       (exists r, huber_loss a b "mean" = Ok (Reduced (Fin r)) /\ 0 <= r) /\
       huber_loss a a "mean" = Ok (Reduced (Fin 0)))).
  { clear Hnone Hsum Hfa Hfin.
    unfold shape in Ha, Hb. injection Ha as HBa Hta. injection Hb as HBb Htb.
    split; [|split].
    - rewrite (huber_loss_unfold a b c j l "sum" Hta Hd). simpl.
      rewrite fsum_Fin. eexists; split; [reflexivity|].
      apply Rsum_nonneg. now apply huber_rows_nonneg.
    - rewrite (huber_loss_unfold a a c j l "sum" Hta Hd). simpl.
      rewrite fsum_Fin. do 2 f_equal. f_equal.
      apply Rsum_zero. now apply huber_rows_diag.
    - intros HB.
      assert (Hlen : forall x, length (rows x) = B ->
                huber_rows (c * j * l) a x <> [] \/ length (rows a) <> B).
      { intros x Hx. left. intros E.
        pose proof (huber_rows_length (c * j * l) a x) as L.
        rewrite E, HBa, Hx in L. simpl in L. lia. }
      split.
      + rewrite (huber_loss_unfold a b c j l "mean" Hta Hd). simpl.
        destruct (Hlen b HBb) as [Hne | Hne]; [|contradiction].
        rewrite (fmean_Fin _ Hne). eexists; split; [reflexivity|].
        apply Rmult_le_pos.
        * apply Rsum_nonneg. now apply huber_rows_nonneg.
        * left. apply Rinv_0_lt_compat. apply lt_0_INR.
          destruct (huber_rows (c * j * l) a b); [congruence | simpl; lia].
      + rewrite (huber_loss_unfold a a c j l "mean" Hta Hd). simpl.
        destruct (Hlen a HBa) as [Hne | Hne]; [|contradiction].
        rewrite (fmean_Fin _ Hne). do 2 f_equal. f_equal.
        rewrite (Rsum_zero _ (huber_rows_diag _ a Hd)). unfold Rdiv. ring. }
  destruct Hexact as [H1 [H2 H3]].
  split; [exact H1|]. split; [exact H2|]. split; [exact H3|].
  split; [exact Hnone|]. split; [exact Hsum|].
  split; vm_compute; reflexivity.
Qed.

(** The theorem at the 1x1x1x2 tensors [[3, 4]] and [[1, 2]], and at the
    float32 tensor [[1, 2]]. *)
Lemma huber_loss_nonneg_and_zero_witness :
  huber_loss (mkT [1; 1; 2]%nat [[3; 4]]) (mkT [1; 1; 2]%nat [[3; 4]]) "sum"
    = Ok (Reduced (Fin 0)) /\
  Float32.huber_loss
    (Float32.mkFT [1; 1; 2]%nat
       [[Float32.single_of_Z 1; Float32.single_of_Z 2]])
    (Float32.mkFT [1; 1; 2]%nat
       [[Float32.single_of_Z 1; Float32.single_of_Z 2]]) "none"
    = Ok (Float32.PerExample [Float32.residue 2]).
Proof.
  assert (Hd : (1 <= 1 * 1 * 2)%nat) by (simpl; lia).
  assert (Hfin : Float32.all_finite
                   (Float32.mkFT [1; 1; 2]%nat
                      [[Float32.single_of_Z 1; Float32.single_of_Z 2]]))
    by (repeat constructor).
  pose proof (huber_loss_nonneg_and_zero
                (mkT [1; 1; 2]%nat [[3; 4]]) (mkT [1; 1; 2]%nat [[1; 2]])
                (Float32.mkFT [1; 1; 2]%nat
                   [[Float32.single_of_Z 1; Float32.single_of_Z 2]])
                1 1 1 2 eq_refl eq_refl Hd eq_refl Hfin)
    as [_ [Hzero [_ [Hnone _]]]].
  split; [exact Hzero | exact Hnone].
Defined.

(** C9, the claim as written fails in the arithmetic of the program.  For
    the float32 tensor [a] of shape (1,9,1,1) that holds zeros,
    [huber_loss(a, a)] is -14913081 * 2^-58 under both reductions: not 0,
    and negative.  (The float32 square root of the rounded [c^2] falls one
    unit in the last place below the rounded [c].)  On an empty batch the
    ['mean'] reduction gives [nan]. *)
Lemma huber_loss_float32_negative_at_equal_inputs :
  let a := Float32.mkFT [9; 1; 1]%nat [repeat Float32.zero 9] in
  Float32.huber_loss a a "mean"
    = Ok (Float32.Reduced (SpecFloat.S754_finite true 14913081 (-58))) /\
  Float32.huber_loss a a "sum"
    = Ok (Float32.Reduced (SpecFloat.S754_finite true 14913081 (-58))) /\
  SpecFloat.SFltb (SpecFloat.S754_finite true 14913081 (-58)) Float32.zero = true /\
  Float32.huber_loss (Float32.mkFT [1; 1; 1]%nat []) (Float32.mkFT [1; 1; 1]%nat [])
    "mean"
    = Ok (Float32.Reduced SpecFloat.S754_nan).
Proof. repeat split; vm_compute; reflexivity. Qed.

(** C9, the claim as written fails on an empty batch: for [a] of shape
    (0,1,1,1) the ['mean'] reduction averages no value and
    [huber_loss(a, a)] is [nan], neither 0 nor non-negative; and for [a] of
    shape (1,0,1,1) the division by [data_dim = 0] makes both reductions
    [nan]. *)
Lemma huber_loss_empty_is_nan :
  huber_loss (mkT [1; 1; 1]%nat []) (mkT [1; 1; 1]%nat []) "mean"
    = Ok (Reduced NaN) /\
  ~ fnonneg NaN /\ NaN <> Fin 0 /\
  huber_loss (mkT [0; 1; 1]%nat [[]]) (mkT [0; 1; 1]%nat [[]]) "sum"
    = Ok (Reduced NaN).
Proof.
  split; [|split; [|split]].
  - unfold huber_loss; simpl. unfold fmean; simpl. now rewrite fdiv_zero_zero.
  - simpl. tauto.
  - discriminate.
  - unfold huber_loss; simpl.
    replace (sqrt (0 + (54 / 100000 * 0) * ((54 / 100000 * 0) * 1)) - 54 / 100000 * 0)
      with 0.
    + now rewrite fdiv_zero_zero.
    + replace (0 + (54 / 100000 * 0) * ((54 / 100000 * 0) * 1)) with 0 by ring.
      rewrite sqrt_0. ring.
Qed.

(** ** The time samplers *)

Lemma draw_from_length {A} (s : nat -> A) (pos n : nat) :
  length (draw_from s pos n) = n.
Proof. unfold draw_from. now rewrite length_map, length_seq. Qed.

Lemma draw_from_Forall {A} (P : A -> Prop) (s : nat -> A) (pos n : nat) :
  (forall k, P (s k)) -> Forall P (draw_from s pos n).
Proof.
  intros H. unfold draw_from. apply Forall_forall. intros v Hv.
  apply in_map_iff in Hv. destruct Hv as [k [<- _]]. apply H.
Qed.

Lemma firstn_Forall {A} (P : A -> Prop) (n : nat) (l : list A) :
  Forall P l -> Forall P (firstn n l).
Proof.
  intros H. revert n. induction H as [|x l Hx _ IH]; intros [|n]; simpl; auto.
Qed.

Lemma skipn_Forall {A} (P : A -> Prop) (n : nat) (l : list A) :
  Forall P l -> Forall P (skipn n l).
Proof.
  intros H. revert n. induction H as [|x l Hx Hl IH]; intros [|n]; simpl; auto.
Qed.

Lemma insert_at_length (j x : nat) (l : list nat) :
  length (insert_at j x l) = S (length l).
Proof.
  unfold insert_at. rewrite length_app. simpl.
  rewrite length_firstn, length_skipn. lia.
Qed.

Lemma insert_at_Forall (P : nat -> Prop) (j x : nat) (l : list nat) :
  P x -> Forall P l -> Forall P (insert_at j x l).
Proof.
  intros Hx Hl. unfold insert_at. apply Forall_app. split.
  - now apply firstn_Forall.
  - constructor; [exact Hx | now apply skipn_Forall].
Qed.

Lemma shuffle_length (draw : nat -> nat) (m : nat) : length (shuffle draw m) = m.
Proof. induction m as [|m IH]; simpl; [reflexivity|]. now rewrite insert_at_length, IH. Qed.

Lemma shuffle_in_range (draw : nat -> nat) (m : nat) :
  Forall (fun i => (i < m)%nat) (shuffle draw m).
Proof.
  induction m as [|m IH]; simpl; [constructor|].
  apply insert_at_Forall; [lia|].
  eapply Forall_impl; [|exact IH]. simpl. intros; lia.
Qed.

(** [torch.randperm(m)] returns a permutation of [0 .. m-1]. *)
Lemma shuffle_permutation (draw : nat -> nat) (m : nat) :
  Permutation (shuffle draw m) (seq 0 m).
Proof.
  induction m as [|m IH]; simpl shuffle; [constructor|].
  rewrite seq_S. simpl. unfold insert_at.
  apply Permutation_trans with (m :: firstn (draw m mod S m) (shuffle draw m)
                                      ++ skipn (draw m mod S m) (shuffle draw m)).
  - apply Permutation_sym, Permutation_middle.
  - rewrite firstn_skipn. apply Permutation_trans with (m :: seq 0 m).
    + now constructor.
    + apply Permutation_cons_append.
Qed.

Lemma index_select_Forall {A} (P : A -> Prop) (d : A) (t : list A) (idx : list nat) :
  Forall P t -> Forall (fun i => (i < length t)%nat) idx ->
  Forall P (index_select d t idx).
Proof.
  intros Ht Hi. unfold index_select. apply Forall_forall. intros v Hv.
  apply in_map_iff in Hv. destruct Hv as [i [<- Hin]].
  rewrite Forall_forall in Ht, Hi. apply Ht. apply nth_In. now apply Hi.
Qed.

Lemma rescale_length (lo hi : R) (l : list R) : length (rescale lo hi l) = length l.
Proof. unfold rescale. apply length_map. Qed.

Lemma rescale_bounds (lo hi : R) (l : list R) :
  lo <= hi -> Forall (fun x => 0 <= x <= 1) l ->
  Forall (fun v => lo <= v <= hi) (rescale lo hi l).
Proof.
  intros Hlh Hl. unfold rescale. apply Forall_forall. intros v Hv.
  apply in_map_iff in Hv. destruct Hv as [x [<- Hin]].
  rewrite Forall_forall in Hl. specialize (Hl x Hin). nra.
Qed.

Lemma default_range : default_t_min <= default_t_max.
Proof. unfold default_t_min, default_t_max. lra. Qed.

(** The inverse-CDF map of [sample_t_fast] sends [0, 1) into [0, 1). *)
Lemma inverse_cdf_bounds (a u : R) :
  0 < a -> 0 <= u < 1 -> 0 <= (1 / a) * ln (1 + u * (exp a - 1)) <= 1.
Proof.
  intros Ha [Hu0 Hu1].
  assert (He : 1 < exp a) by (assert (Hn : a <> 0) by lra; pose proof (exp_ineq1 a Hn); lra).
  set (y := 1 + u * (exp a - 1)).
  assert (Hy1 : 1 <= y) by (unfold y; nra).
  assert (Hy2 : y <= exp a) by (unfold y; nra).
  assert (Hl0 : 0 <= ln y).
  { rewrite <- ln_1. destruct Hy1 as [Hlt | <-]; [|lra].
    left. apply ln_increasing; lra. }
  assert (Hl1 : ln y <= a).
  { rewrite <- (ln_exp a). destruct Hy2 as [Hlt | ->]; [|lra].
    left. apply ln_increasing; lra. }
  assert (Hia : 0 < / a) by now apply Rinv_0_lt_compat.
  unfold Rdiv. rewrite Rmult_1_l. split.
  - apply Rmult_le_pos; lra.
  - replace 1 with (/ a * a) by (field; lra).
    apply Rmult_le_compat_l; lra.
Qed.

(** The cosine map of [sample_cosmap] sends [0, 1) into [0, 1). *)
Lemma cosmap_bounds (u : R) :
  0 <= u < 1 -> 0 <= 1 - 1 / (tan (PI / 2 * u) + 1) <= 1.
Proof.
  intros [Hu0 Hu1].
  assert (Ht : 0 <= tan (PI / 2 * u)).
  { destruct Hu0 as [Hpos | <-].
    - left. apply tan_gt_0.
      + pose proof PI_RGT_0. nra.
      + pose proof PI_RGT_0. nra.
    - rewrite Rmult_0_r, tan_0. lra. }
  assert (Hp : 0 < tan (PI / 2 * u) + 1) by lra.
  assert (Hi : 0 < / (tan (PI / 2 * u) + 1)) by now apply Rinv_0_lt_compat.
  assert (Hle : / (tan (PI / 2 * u) + 1) <= 1).
  { pose proof (Rinv_le_contravar 1 (tan (PI / 2 * u) + 1)) as H.
    rewrite Rinv_1 in H. apply H; lra. }
  unfold Rdiv. rewrite Rmult_1_l. lra.
Qed.

(** C6 (as the code has it).  For every requested [num_samples] and a
    generator that keeps the libraries' ranges, each time sampler returns
    exactly [num_samples] values, and every value lies in the closed
    interval [t_min, t_max] with t_min = 1e-5 and t_max = 1 - 1e-5. *)
Theorem samplers_length_and_range
    (num_samples : nat) (a alpha beta : R) (w : World)
    (Hgen : torch_gen_ok (torch_gen w)) (Ha : 0 < a) :
  (exists l w', sample_t_fast num_samples a default_t_min default_t_max w = (Ok l, w') /\
     length l = num_samples /\
     Forall (fun v => default_t_min <= v <= default_t_max) l) /\
  (exists l w', sample_beta_distribution num_samples alpha beta
                  default_t_min default_t_max w = (Ok l, w') /\
     length l = num_samples /\
     Forall (fun v => default_t_min <= v <= default_t_max) l) /\
  (exists l w', sample_cosmap num_samples default_t_min default_t_max w = (Ok l, w') /\
     length l = num_samples /\
     Forall (fun v => default_t_min <= v <= default_t_max) l).
Proof.
  destruct Hgen as [Hu Hb]. split; [|split].
  - unfold sample_t_fast, bind, torch_rand, torch_randperm, with_torch, ret.
    cbn [torch_gen torch_advance normal_at uniform_at beta_at index_at torch_pos].
    destruct (Req_EM_T a 0) as [E0 | _]; [lra|].
    eexists; eexists; split; [reflexivity|].
    set (u := draw_from (uniform_at (torch_gen w)) (torch_pos (torch_gen w))
                        (num_samples * 2)).
    set (t := map (fun ui => 1 / a * ln (1 + ui * (exp a - 1))) u).
    assert (Hlen : length (t ++ map (fun x => 1 - x) t) = (4 * num_samples)%nat).
    { rewrite length_app, length_map. unfold t. rewrite length_map.
      unfold u. rewrite draw_from_length. lia. }
    assert (Ht : Forall (fun x => 0 <= x <= 1) t).
    { unfold t. apply Forall_forall. intros v Hv.
      apply in_map_iff in Hv. destruct Hv as [ui [<- Hin]].
      apply inverse_cdf_bounds; [exact Ha|].
      unfold u, draw_from in Hin. apply in_map_iff in Hin.
      destruct Hin as [k [<- _]]. apply Hu. }
    assert (Hall : Forall (fun x => 0 <= x <= 1) (t ++ map (fun x => 1 - x) t)).
    { apply Forall_app. split; [exact Ht|].
      apply Forall_forall. intros v Hv.
      apply in_map_iff in Hv. destruct Hv as [x [<- Hin]].
      rewrite Forall_forall in Ht. specialize (Ht x Hin). lra. }
    split.
    + rewrite rescale_length, length_firstn.
      unfold index_select. rewrite length_map, shuffle_length, Hlen. lia.
    + apply rescale_bounds; [apply default_range|].
      apply firstn_Forall. apply index_select_Forall; [exact Hall|].
      apply shuffle_in_range.
  - unfold sample_beta_distribution, bind, beta_sample, with_torch, ret.
    eexists; eexists; split; [reflexivity|]. split.
    + now rewrite rescale_length, draw_from_length.
    + apply rescale_bounds; [apply default_range|].
      apply draw_from_Forall. intros k. apply Hb.
  - unfold sample_cosmap, bind, torch_rand, with_torch, ret.
    eexists; eexists; split; [reflexivity|]. split.
    + now rewrite rescale_length, length_map, draw_from_length.
    + apply rescale_bounds; [apply default_range|].
      apply Forall_forall. intros v Hv.
      apply in_map_iff in Hv. destruct Hv as [ui [<- Hin]].
      apply cosmap_bounds.
      unfold draw_from in Hin. apply in_map_iff in Hin.
      destruct Hin as [k [<- _]]. apply Hu.
Qed.

Lemma gen0_ok : torch_gen_ok gen0.
Proof. split; intros; simpl; lra. Qed.

(** The theorem at two samples from [world0], with [a = 2]. *)
Lemma samplers_length_and_range_witness :
  exists l w', sample_cosmap 2 default_t_min default_t_max world0 = (Ok l, w') /\
    length l = 2%nat /\
    Forall (fun v => default_t_min <= v <= default_t_max) l.
Proof.
  assert (Ha : 0 < 2) by lra.
  exact (proj2 (proj2 (samplers_length_and_range 2 2 2 (8 / 10) world0 gen0_ok Ha))).
Defined.

(** C6, the claim as written fails: the uniform variate 0, which
    [torch.rand] can deliver, is mapped by [sample_cosmap] to [t_min]
    itself, and by [sample_t_fast] (through the mirrored half [1 - t]) to
    [t_max] itself: the values are not strictly inside (t_min, t_max). *)
Lemma samplers_reach_the_end_points :
  torch_gen_ok (torch_gen world0) /\
  fst (sample_cosmap 1 default_t_min default_t_max world0) = Ok [default_t_min] /\
  fst (sample_t_fast 1 2 default_t_min default_t_max world0) = Ok [default_t_max] /\
  ~ (default_t_min < default_t_min) /\ ~ (default_t_max < default_t_max).
Proof.
  split; [apply gen0_ok|]. split; [|split; [|split; lra]].
  - unfold sample_cosmap, bind, torch_rand, with_torch, ret, rescale; simpl.
    do 2 f_equal. f_equal.
    rewrite Rmult_0_r, tan_0. unfold default_t_min, default_t_max. field.
  - unfold sample_t_fast, bind, torch_rand, torch_randperm, with_torch, ret,
      rescale, index_select.
    destruct (Req_EM_T 2 0) as [E0 | _]; [lra|]. simpl.
    do 2 f_equal. f_equal.
    rewrite Rmult_0_l, Rplus_0_r, ln_1.
    unfold default_t_min, default_t_max. field.
Qed.

(** ** Runs of the training step *)

Arguments reshape_coefs : simpl never.
Arguments mse_loss : simpl never.
Arguments fmean : simpl never.
Arguments tmap2 : simpl never.
Arguments tmap : simpl never.
Arguments slice_to : simpl never.
Arguments slice_from : simpl never.
Arguments flatten : simpl never.
Arguments vec : simpl never.
Arguments flat : simpl never.
Arguments index_select : simpl never.
Arguments draw_from : simpl never.
Arguments fill_prefix : simpl never.
Arguments chunk : simpl never.
Arguments flow_split : simpl never.
Arguments step_sizes : simpl never.

Lemma fill_prefix_vec (f : nat) (v : R) (l : list R) :
  fill_prefix f v (vec l) = vec (map (fun _ => v) (firstn f l) ++ skipn f l).
Proof.
  unfold fill_prefix, vec; simpl. f_equal.
  rewrite map_app, firstn_map, skipn_map, !map_map. reflexivity.
Qed.

Lemma flatten_coefs (l : list R) :
  flatten (mkT [1; 1; 1]%nat (map (fun v => [v]) l)) = vec l.
Proof. unfold flatten, flat; simpl. now rewrite concat_singletons. Qed.

Lemma if_same {A} (b : bool) (x : A) : (if b then x else x) = x.
Proof. now destruct b. Qed.

(** *** How one primitive changes the state *)

Lemma bind_ok {A B} (m : M A) (k : A -> M B) (w w' : World) (a : A) :
  m w = (Ok a, w') -> bind m k w = k a w'.
Proof. intros H. unfold bind. now rewrite H. Qed.

Lemma bind_raise {A B} (m : M A) (k : A -> M B) (w w' : World) (e : exn) :
  m w = (Raise e, w') -> bind m k w = (Raise e, w').
Proof. intros H. unfold bind. now rewrite H. Qed.

Lemma no_grad_ok {A} (body : M A) (w w' : World) (a : A) :
  body (mkWorld (torch_gen w) (numpy_gen w) false (oracle_calls w)) = (Ok a, w') ->
  no_grad body w
    = (Ok a, mkWorld (torch_gen w') (numpy_gen w') (grad_enabled w) (oracle_calls w')).
Proof. intros H. unfold no_grad. now rewrite H. Qed.

Lemma torch_randn_like_run (x : tensor) (w : World) :
  torch_randn_like x w
    = (Ok (noise_like (torch_gen w) x),
       advance_torch (length (rows x) * prod (trail x)) w).
Proof. reflexivity. Qed.

Lemma multinomial_run (probs : list R) (n : nat) (w : World) :
  (1 <= n)%nat ->
  multinomial probs n w =
    (Ok (map (fun r => r mod length probs)%nat
             (draw_from (index_at (torch_gen w)) (torch_pos (torch_gen w)) n)),
     advance_torch n w).
Proof. intros H. destruct n; [lia | reflexivity]. Qed.

Lemma multinomial_zero (probs : list R) (w : World) :
  multinomial probs 0 w
    = (Raise (RuntimeError "cannot sample n_sample <= 0 samples"), w).
Proof. reflexivity. Qed.

Lemma np_choice_flags_run (p : R) (n : nat) (w : World) :
  np_choice_flags p n w = (Ok (sampled_flags (numpy_gen w) p n), advance_numpy n w).
Proof. reflexivity. Qed.

Lemma sample_t_d_run (B f : nat) (w : World) :
  (1 <= B)%nat ->
  sample_t_d B f w
    = (Ok (vec (sampled_t (torch_gen w) B), vec (sampled_d (torch_gen w) B f)),
       advance_torch B (advance_torch B w)).
Proof.
  intros HB. unfold sample_t_d.
  erewrite bind_ok by reflexivity.
  erewrite bind_ok by (apply multinomial_run; exact HB).
  rewrite fill_prefix_vec. reflexivity.
Qed.

Lemma sample_t_d_zero (f : nat) (w : World) :
  sample_t_d 0 f w
    = (Raise (RuntimeError "cannot sample n_sample <= 0 samples"),
       advance_torch 0 w).
Proof. reflexivity. Qed.

Lemma consistency_branch_run
    (denoiser : oracle_method -> DenoiserArgs -> tensor) (f : nat)
    (x_t seed_vectors at_feat instance_ids : tensor)
    (intent_feat style_features : option tensor)
    (t d : list R) (force_cfg : list bool) (w : World) :
  consistency_branch denoiser f x_t (vec t) (vec d) seed_vectors at_feat
      intent_feat instance_ids style_features force_cfg w
    = (Ok (speed_target denoiser f x_t seed_vectors at_feat instance_ids
             intent_feat style_features t d force_cfg,
           speed_pred denoiser f x_t seed_vectors at_feat instance_ids
             intent_feat style_features t d force_cfg),
       log_calls (consistency_calls denoiser f x_t seed_vectors at_feat
                    instance_ids intent_feat style_features t d force_cfg
                    (grad_enabled w)) w).
Proof.
  unfold consistency_branch.
  erewrite bind_ok.
  2:{ apply no_grad_ok.
      erewrite bind_ok by reflexivity.
      erewrite bind_ok by (unfold lift; rewrite reshape_coefs_vec; reflexivity).
      rewrite flatten_coefs.
      erewrite bind_ok by reflexivity.
      reflexivity. }
  cbn [fst snd].
  erewrite bind_ok by reflexivity.
  unfold ret, log_calls, consistency_calls, call_denoiser.
  cbn [torch_gen numpy_gen grad_enabled oracle_calls].
  rewrite <- !app_assoc. reflexivity.
Qed.

(** On a batch with at least one example the training step returns, and
    what it returns and leaves behind is given by [run_losses] and
    [run_world]. *)
Lemma train_forward_run
    (cfg : Config)
    (modality_encoder : tensor -> tensor -> tensor -> tensor -> tensor ->
                        option tensor -> option tensor -> EncoderOut)
    (denoiser : oracle_method -> DenoiserArgs -> tensor)
    (y : ConditionY) (latents : tensor) (train_consistency : bool) (w : World) :
  (1 <= batch_of latents)%nat ->
  train_forward cfg modality_encoder denoiser y latents train_consistency w
    = (Ok (run_losses modality_encoder denoiser y latents w),
       run_world modality_encoder denoiser y latents w).
Proof.
  intros HB. unfold train_forward. rewrite if_same.
  rewrite (bind_ok _ _ _ _ _ (torch_randn_like_run latents w)).
  rewrite (bind_ok _ _ _ _ _ (sample_t_d_run _ (flow_split (length (rows latents))) _ HB)).
  cbn [fst snd].
  erewrite bind_ok by (unfold lift; rewrite reshape_coefs_vec; reflexivity).
  rewrite flatten_coefs.
  erewrite bind_ok by reflexivity.
  rewrite (bind_ok _ _ _ _ _ (np_choice_flags_run _ _ _)).
  rewrite flat_vec.
  rewrite (bind_ok _ _ _ _ _ (consistency_branch_run _ _ _ _ _ _ _ _ _ _ _ _)).
  cbn [fst snd].
  unfold ret, run_losses, run_world, run_calls, log_calls, advance_numpy,
    advance_torch, call_denoiser.
  cbn [torch_gen numpy_gen grad_enabled oracle_calls].
  rewrite <- app_assoc. reflexivity.
Qed.

(** An empty batch does not get past the draw of the step sizes. *)
Lemma train_forward_empty
    (cfg : Config)
    (modality_encoder : tensor -> tensor -> tensor -> tensor -> tensor ->
                        option tensor -> option tensor -> EncoderOut)
    (denoiser : oracle_method -> DenoiserArgs -> tensor)
    (y : ConditionY) (latents : tensor) (train_consistency : bool) (w : World) :
  batch_of latents = 0%nat ->
  fst (train_forward cfg modality_encoder denoiser y latents train_consistency w)
    = Raise (RuntimeError "cannot sample n_sample <= 0 samples").
Proof.
  intros HB. unfold train_forward. rewrite if_same.
  rewrite (bind_ok _ _ _ _ _ (torch_randn_like_run latents w)).
  unfold batch_of in HB. rewrite HB.
  erewrite bind_raise by apply sample_t_d_zero. reflexivity.
Qed.

(** ** The step sizes (C5) *)

Lemma flow_split_le (B : nat) : (flow_split B <= B)%nat.
Proof.
  unfold flow_split. apply Nat.Div0.div_le_upper_bound. lia.
Qed.

Lemma step_sizes_geometric (v : R) :
  In v step_sizes -> exists i, (1 <= i <= 7)%nat /\ v = 1 / 2 ^ i.
Proof.
  unfold step_sizes. intros H. apply in_map_iff in H.
  destruct H as [i [<- Hi]]. apply in_seq in Hi. exists i. split; [lia | reflexivity].
Qed.

Lemma step_sizes_length : length step_sizes = 7%nat.
Proof. reflexivity. Qed.

Lemma sampled_indices_length (g : TorchGen) (B : nat) :
  length (sampled_indices g B) = B.
Proof. unfold sampled_indices. now rewrite length_map, draw_from_length. Qed.

Lemma sampled_indices_range (g : TorchGen) (B : nat) :
  Forall (fun i => (i < 7)%nat) (sampled_indices g B).
Proof.
  unfold sampled_indices. apply Forall_forall. intros i Hi.
  apply in_map_iff in Hi. destruct Hi as [r [<- _]].
  apply Nat.mod_upper_bound. discriminate.
Qed.

Lemma index_select_length {A} (d : A) (t : list A) (idx : list nat) :
  length (index_select d t idx) = length idx.
Proof. unfold index_select. apply length_map. Qed.

Lemma map_const_repeat {A B} (v : B) (l : list A) :
  map (fun _ => v) l = repeat v (length l).
Proof. induction l as [|a l IH]; simpl; [reflexivity | now rewrite IH]. Qed.

Lemma sampled_d_length (g : TorchGen) (B f : nat) : length (sampled_d g B f) = B.
Proof.
  unfold sampled_d. rewrite length_app, length_map, <- length_app, firstn_skipn.
  now rewrite index_select_length, sampled_indices_length.
Qed.

Lemma sampled_d_prefix (g : TorchGen) (B f : nat) :
  (f <= B)%nat -> firstn f (sampled_d g B f) = repeat 0 f.
Proof.
  intros Hf. unfold sampled_d.
  set (ds := index_select 0 step_sizes (sampled_indices g B)).
  assert (Hl : length (map (fun _ : R => 0) (firstn f ds)) = f).
  { rewrite length_map, length_firstn. unfold ds.
    rewrite index_select_length, sampled_indices_length. lia. }
  rewrite <- Hl at 1. rewrite firstn_length_app.
  rewrite map_const_repeat. f_equal.
  rewrite length_map in Hl. exact Hl.
Qed.

Lemma sampled_d_suffix (g : TorchGen) (B f : nat) :
  (f <= B)%nat ->
  Forall (fun v => In v step_sizes) (skipn f (sampled_d g B f)).
Proof.
  intros Hf. unfold sampled_d.
  set (ds := index_select 0 step_sizes (sampled_indices g B)).
  assert (Hl : length (map (fun _ : R => 0) (firstn f ds)) = f).
  { rewrite length_map, length_firstn. unfold ds.
    rewrite index_select_length, sampled_indices_length. lia. }
  rewrite <- Hl at 1. rewrite skipn_length_app.
  apply skipn_Forall. unfold ds, index_select.
  apply Forall_forall. intros v Hv. apply in_map_iff in Hv.
  destruct Hv as [i [<- Hi]]. apply nth_In. rewrite step_sizes_length.
  pose proof (sampled_indices_range g B) as HR.
  rewrite Forall_forall in HR. now apply HR.
Qed.

Lemma slice_to_vec (f : nat) (l : list R) : slice_to f (vec l) = vec (firstn f l).
Proof. unfold slice_to, vec. cbn [rows trail]. now rewrite firstn_map. Qed.

Lemma slice_from_vec (f : nat) (l : list R) : slice_from f (vec l) = vec (skipn f l).
Proof. unfold slice_from, vec. cbn [rows trail]. now rewrite skipn_map. Qed.

Lemma tmap_vec (g : R -> R) (l : list R) : tmap g (vec l) = vec (map g l).
Proof. unfold tmap, vec. cbn [rows trail]. now rewrite !map_map. Qed.

(** C5.  For every batch size B >= 1, [train_forward] returns, having
    drawn a step-size vector [d] of B entries whose first floor(0.75 B)
    entries are exactly 0 and whose remaining entries are each one of the
    seven values 2^-1, ..., 2^-7; this [d] is what the network receives as
    [cond_time]: [d[:floor(0.75 B)]] in the flow call, [d[floor(0.75 B):]]
    in the two target calls of the consistency branch and twice that in the
    prediction call.  For B = 0 torch refuses to draw, [train_forward]
    raises and no [d] is produced. *)
Theorem step_sizes_zero_prefix_geometric_rest
    (cfg : Config)
    (modality_encoder : tensor -> tensor -> tensor -> tensor -> tensor ->
                        option tensor -> option tensor -> EncoderOut)
    (denoiser : oracle_method -> DenoiserArgs -> tensor)
    (y : ConditionY) (latents : tensor) (train_consistency : bool) (w : World) :
  let B := length (rows latents) in
  let k := (3 * B / 4)%nat in
  let run := train_forward cfg modality_encoder denoiser y latents
               train_consistency w in
  (B = 0%nat /\
   fst run = Raise (RuntimeError "cannot sample n_sample <= 0 samples"))
  \/
  ((1 <= B)%nat /\
   exists (d : list R) (losses : Losses) (w' : World)
          (flow target1 target2 prediction : OracleCall),
     run = (Ok losses, w') /\
     oracle_calls w' = oracle_calls w ++ [flow; target1; target2; prediction] /\
     length d = B /\
     firstn k d = repeat 0 k /\
     Forall (fun v => exists i, (1 <= i <= 7)%nat /\ v = 1 / 2 ^ i) (skipn k d) /\
     arg_cond_time (call_args flow) = vec (firstn k d) /\
     arg_cond_time (call_args target1) = vec (skipn k d) /\
     arg_cond_time (call_args target2) = vec (skipn k d) /\
     arg_cond_time (call_args prediction) = vec (map (Rmult 2) (skipn k d))).
Proof.
  intros B k run.
  destruct (Nat.eq_dec B 0) as [H0 | Hpos].
  - left. split; [exact H0|]. now apply train_forward_empty.
  - right. assert (HB : (1 <= batch_of latents)%nat) by (unfold batch_of; fold B; lia).
    split; [exact HB|].
    assert (Hk : k = split_of latents).
    { unfold k, split_of, flow_split, batch_of. fold B. f_equal. lia. }
    pose proof (flow_split_le (batch_of latents)) as Hle.
    exists (drawn_d latents w).
    exists (run_losses modality_encoder denoiser y latents w).
    exists (run_world modality_encoder denoiser y latents w).
    eexists. eexists. eexists. eexists.
    split; [apply train_forward_run; exact HB|].
    split; [reflexivity|].
    rewrite Hk. unfold drawn_d.
    split; [apply sampled_d_length|].
    split; [apply sampled_d_prefix; exact Hle|].
    split.
    { eapply Forall_impl; [|apply sampled_d_suffix; exact Hle].
      intros v Hv. now apply step_sizes_geometric. }
    cbn [call_args]. unfold flow_args, speed_t_args, speed_td_args,
      speed_pred_args, consistency_args. cbn [arg_cond_time].
    rewrite slice_to_vec, slice_from_vec, tmap_vec. repeat split.
Qed.

(** ** The flow loss (C1) *)

Lemma sigmoid_range (z : R) : 0 < sigmoid z < 1.
Proof.
  unfold sigmoid. pose proof (exp_pos (- z)) as He.
  assert (Hi : 0 < / (1 + exp (- z))) by (apply Rinv_0_lt_compat; lra).
  assert (Hl : / (1 + exp (- z)) < 1).
  { pose proof (Rinv_lt_contravar 1 (1 + exp (- z))) as H.
    rewrite Rinv_1 in H. apply H; lra. }
  unfold Rdiv. rewrite Rmult_1_l. lra.
Qed.

Lemma sampled_t_range (g : TorchGen) (B : nat) :
  Forall (fun t => 0 < t < 1) (sampled_t g B).
Proof.
  unfold sampled_t. apply Forall_forall. intros t Ht.
  apply in_map_iff in Ht. destruct Ht as [z [<- _]]. apply sigmoid_range.
Qed.

Lemma sampled_t_length (g : TorchGen) (B : nat) : length (sampled_t g B) = B.
Proof. unfold sampled_t. now rewrite length_map, draw_from_length. Qed.

Lemma Rsum_scale (m : R) (ts : list R) :
  Rsum (map (fun t => m / t) ts) = m * Rsum (map Rinv ts).
Proof.
  induction ts as [|t ts IH]; simpl; [ring|]. rewrite IH. unfold Rdiv. ring.
Qed.

(** A finite scalar divided by each of a list of non-zero numbers, then
    averaged: the scalar times the mean of the reciprocals. *)
Lemma fmean_fdiv_closed (m : R) (ts : list R) :
  ts <> [] -> Forall (fun t => t <> 0) ts ->
  fmean (map (fdiv (Fin m)) ts) = Fin (m * (Rsum (map Rinv ts) / INR (length ts))).
Proof.
  intros Hne Hnz.
  assert (E : map (fdiv (Fin m)) ts = map Fin (map (fun t => m / t) ts)).
  { rewrite map_map. apply map_ext_in. intros t Ht.
    rewrite Forall_forall in Hnz. apply fdiv_Fin. now apply Hnz. }
  rewrite E, fmean_Fin.
  - rewrite length_map, Rsum_scale. f_equal. unfold Rdiv. ring.
  - destruct ts; [congruence | discriminate].
Qed.

(** C1 (as the code has it).  On every batch with B >= 1 examples
    [train_forward] returns, and its flow loss is the single scalar
    [F.mse_loss(flow_target, flow_pred)] (the mean squared velocity error
    over all entries of the flow subset, target [x1 - x0]) divided by each
    of the B time values [t] of the whole batch (flow and consistency
    subset alike, each in (0,1)) and then averaged over these B quotients:
    when the scalar is the finite number m, the flow loss is
    m * (1/B) * sum over all i < B of 1/t_i. *)
Theorem flow_loss_scalar_mse_over_all_times
    (cfg : Config)
    (modality_encoder : tensor -> tensor -> tensor -> tensor -> tensor ->
                        option tensor -> option tensor -> EncoderOut)
    (denoiser : oracle_method -> DenoiserArgs -> tensor)
    (y : ConditionY) (latents : tensor) (train_consistency : bool) (w : World)
    (HB : (1 <= batch_of latents)%nat) :
  exists L w',
    train_forward cfg modality_encoder denoiser y latents train_consistency w
      = (Ok L, w') /\
    length (drawn_t latents w) = batch_of latents /\
    Forall (fun t => 0 < t < 1) (drawn_t latents w) /\
    flow_loss L =
      fmean (map (fdiv (mse_loss
                          (tsub (slice_to (split_of latents) latents)
                                (slice_to (split_of latents) (drawn_x0 latents w)))
                          (denoiser Forward
                             (flow_args modality_encoder y latents w))))
                 (drawn_t latents w)) /\
    (forall m,
       mse_loss (tsub (slice_to (split_of latents) latents)
                      (slice_to (split_of latents) (drawn_x0 latents w)))
                (denoiser Forward (flow_args modality_encoder y latents w))
         = Fin m ->
       flow_loss L =
         Fin (m * (Rsum (map Rinv (drawn_t latents w)) / INR (batch_of latents)))).
Proof.
  exists (run_losses modality_encoder denoiser y latents w).
  exists (run_world modality_encoder denoiser y latents w).
  split; [now apply train_forward_run|].
  assert (Hlen : length (drawn_t latents w) = batch_of latents)
    by apply sampled_t_length.
  assert (Hrange : Forall (fun t => 0 < t < 1) (drawn_t latents w))
    by apply sampled_t_range.
  split; [exact Hlen|]. split; [exact Hrange|]. split; [reflexivity|].
  intros m Hm. cbn [flow_loss run_losses].
  unfold run_flow_loss, flow_mse, flow_pred, flow_target. rewrite Hm.
  rewrite fmean_fdiv_closed.
  - now rewrite Hlen.
  - intros E. rewrite E in Hlen. simpl in Hlen. lia.
  - eapply Forall_impl; [|exact Hrange]. simpl. intros; lra.
Qed.

(** ** The split and the total (C2) *)

Lemma consistency_subset_size (B : nat) :
  ((1 <= B -> 1 <= B - flow_split B) /\
   (1 <= B <= 4 -> B - flow_split B = 1) /\
   (B - flow_split B = 0 <-> B = 0))%nat.
Proof.
  unfold flow_split.
  pose proof (Nat.div_mod_eq (B * 3) 4) as E.
  pose proof (Nat.mod_upper_bound (B * 3) 4) as U.
  repeat split; intros; lia.
Qed.

Lemma sampled_flags_length (g : NumpyGen) (p : R) (n : nat) :
  length (sampled_flags g p n) = n.
Proof. unfold sampled_flags. now rewrite length_map, draw_from_length. Qed.

(** C2 (as the code has it).  The 75/25 split leaves B - floor(3B/4)
    examples in the consistency subset: at least one for every B >= 1
    (exactly one for B = 1, .., 4), none only for B = 0.  For every
    B >= 1 [train_forward] returns, one force-unconditional flag is drawn
    per example of the consistency subset, and the reported total is
    0 + flow loss + consistency loss. *)
Theorem consistency_subset_nonempty_total_is_sum
    (cfg : Config)
    (modality_encoder : tensor -> tensor -> tensor -> tensor -> tensor ->
                        option tensor -> option tensor -> EncoderOut)
    (denoiser : oracle_method -> DenoiserArgs -> tensor)
    (y : ConditionY) (latents : tensor) (train_consistency : bool) (w : World)
    (HB : (1 <= batch_of latents)%nat) :
  (1 <= batch_of latents - split_of latents)%nat /\
  ((batch_of latents <= 4)%nat ->
   (batch_of latents - split_of latents = 1)%nat) /\
  (forall n, n - flow_split n = 0 <-> n = 0)%nat /\
  length (drawn_flags latents w) = (batch_of latents - split_of latents)%nat /\
  exists L w',
    train_forward cfg modality_encoder denoiser y latents train_consistency w
      = (Ok L, w') /\
    loss L = fadd (fadd (Fin 0) (flow_loss L)) (consistency_loss L).
Proof.
  destruct (consistency_subset_size (batch_of latents)) as [H1 [H2 _]].
  split; [now apply H1|]. split; [intros; apply H2; lia|].
  split; [intros n; apply consistency_subset_size|].
  split; [apply sampled_flags_length|].
  exists (run_losses modality_encoder denoiser y latents w).
  exists (run_world modality_encoder denoiser y latents w).
  split; [now apply train_forward_run | reflexivity].
Qed.

(** ** The consistency branch (C3) *)

(** C3.  On every batch with B >= 1 examples [train_forward] returns
    after exactly four oracle calls: the flow call, then, on the
    consistency subset [[f:]] and with one list of per-example
    force-unconditional flags shared by all three,
    - [speed_t], the oracle at (x_t, t, cond_time = d), without gradient
      tracking;
    - [speed_td], the oracle at (x_td, t + d, cond_time = d) with
      x_td = x_t + d * speed_t, without gradient tracking;
    - the prediction, the oracle at (x_t, t, cond_time = 2 d), with
      gradient tracking as the caller has it;
    and the consistency loss is the mean squared error between the
    prediction and the target (speed_t + speed_td) / 2. *)
Theorem consistency_target_is_midpoint
    (cfg : Config)
    (modality_encoder : tensor -> tensor -> tensor -> tensor -> tensor ->
                        option tensor -> option tensor -> EncoderOut)
    (denoiser : oracle_method -> DenoiserArgs -> tensor)
    (y : ConditionY) (latents : tensor) (train_consistency : bool) (w : World)
    (HB : (1 <= batch_of latents)%nat) :
  let f := split_of latents in
  let feats := drawn_features modality_encoder y in
  let x_t := slice_from f (mixed_x_t latents w) in
  let t := slice_from f (vec (drawn_t latents w)) in
  let d := slice_from f (vec (drawn_d latents w)) in
  let d_coef :=
    slice_from f (mkT [1; 1; 1]%nat (map (fun v => [v]) (drawn_d latents w))) in
  let flags := drawn_flags latents w in
  let call x timesteps cond_time :=
    mkArgs x timesteps (slice_from f (seed y))
           (slice_from f (enc_audio_low feats))
           (option_map (slice_from f) (enc_audio_high feats))
           cond_time (Some (slice_from f (id y)))
           (option_map (slice_from f) (style_feature y))
           (Some flags) None in
  let s_t := denoiser Forward (call x_t t d) in
  let x_td := tadd x_t (tmul d_coef s_t) in
  let s_td := denoiser Forward (call x_td (tadd t d) d) in
  let target := tmap (fun v => v / 2) (tadd s_t s_td) in
  let prediction := denoiser Forward (call x_t t (tmap (Rmult 2) d)) in
  exists L w',
    train_forward cfg modality_encoder denoiser y latents train_consistency w
      = (Ok L, w') /\
    oracle_calls w' =
      oracle_calls w ++
      [ mkCall Forward (grad_enabled w) (flow_args modality_encoder y latents w);
        mkCall Forward false (call x_t t d);
        mkCall Forward false (call x_td (tadd t d) d);
        mkCall Forward (grad_enabled w) (call x_t t (tmap (Rmult 2) d)) ] /\
    grad_enabled w' = grad_enabled w /\
    length flags = (batch_of latents - f)%nat /\
    consistency_loss L = mse_loss prediction target.
Proof.
  intros f feats x_t t d d_coef flags call s_t x_td s_td target prediction.
  exists (run_losses modality_encoder denoiser y latents w).
  exists (run_world modality_encoder denoiser y latents w).
  split; [now apply train_forward_run|].
  split; [reflexivity|]. split; [reflexivity|].
  split; [apply sampled_flags_length | reflexivity].
Qed.

(** ** Concrete batches *)

Lemma batch_of_ones (b : nat) : batch_of (ones b) = b.
Proof. unfold batch_of, ones. cbn [rows]. apply repeat_length. Qed.

(** C1 at a batch of four examples. *)
Lemma flow_loss_scalar_mse_over_all_times_witness :
  exists L w',
    train_forward cfg0 enc0 den_zero (y_of 4) (ones 4) false world1 = (Ok L, w') /\
    length (drawn_t (ones 4) world1) = 4%nat.
Proof.
  assert (HB : (1 <= batch_of (ones 4))%nat) by (rewrite batch_of_ones; lia).
  destruct (flow_loss_scalar_mse_over_all_times
              cfg0 enc0 den_zero (y_of 4) (ones 4) false world1 HB)
    as [L [w' [Hrun [Hlen _]]]].
  exists L, w'. split; [exact Hrun|]. rewrite Hlen. apply batch_of_ones.
Defined.

(** C2 at a batch of three examples: one of them is in the consistency
    subset. *)
Lemma consistency_subset_nonempty_total_is_sum_witness :
  (1 <= batch_of (ones 3) - split_of (ones 3))%nat /\
  exists L w',
    train_forward cfg0 enc0 den_zero (y_of 3) (ones 3) false world0 = (Ok L, w') /\
    loss L = fadd (fadd (Fin 0) (flow_loss L)) (consistency_loss L).
Proof.
  assert (HB : (1 <= batch_of (ones 3))%nat) by (rewrite batch_of_ones; lia).
  destruct (consistency_subset_nonempty_total_is_sum
              cfg0 enc0 den_zero (y_of 3) (ones 3) false world0 HB)
    as [H1 [_ [_ [_ H5]]]].
  split; [exact H1 | exact H5].
Defined.

(** C3 at a batch of four examples. *)
Lemma consistency_target_is_midpoint_witness :
  exists L w',
    train_forward cfg0 enc0 den_zero (y_of 4) (ones 4) false world0 = (Ok L, w') /\
    length (oracle_calls w') = 4%nat.
Proof.
  assert (HB : (1 <= batch_of (ones 4))%nat) by (rewrite batch_of_ones; lia).
  destruct (consistency_target_is_midpoint
              cfg0 enc0 den_zero (y_of 4) (ones 4) false world0 HB)
    as [L [w' [Hrun [Hcalls _]]]].
  exists L, w'. split; [exact Hrun|]. rewrite Hcalls. reflexivity.
Defined.

(** C2, the claim as written fails.  A batch of fewer than four examples
    does not have an empty consistency subset (for B = 3 it holds one
    example); the subset is empty only for B = 0, and there
    [train_forward] raises instead of reporting the flow loss alone; the
    averaging step itself has no guard either: the mean squared error of
    two empty tensors is [nan], not 0. *)
Lemma empty_consistency_subset_not_tolerated :
  (3 - flow_split 3 = 1)%nat /\
  (batch_of (ones 0) - split_of (ones 0) = 0)%nat /\
  fst (train_forward cfg0 enc0 den_zero (y_of 0) (ones 0) false world0)
    = Raise (RuntimeError "cannot sample n_sample <= 0 samples") /\
  mse_loss (slice_from (split_of (ones 0)) (ones 0))
           (slice_from (split_of (ones 0)) (ones 0)) = NaN.
Proof.
  split; [reflexivity|]. split; [reflexivity|]. split.
  - apply train_forward_empty. reflexivity.
  - exact Rmean_nil.
Qed.

Lemma sigmoid_inv (z : R) : / sigmoid z = 1 + exp (- z).
Proof.
  unfold sigmoid. pose proof (exp_pos (- z)). field. lra.
Qed.

Lemma exp_minus_1_lt_1 : exp (Ropp 1) < 1.
Proof.
  pose proof (exp_increasing (Ropp 1) 0) as H. rewrite exp_0 in H.
  apply H. lra.
Qed.

(** C1, the claim as written fails.  Four examples with latent 1 and
    noise 0, the network predicting 0 and the times
    t = (1/2, 1/2, 1/2, sigmoid 1): the squared velocity error is 1 on
    each of the three flow examples, so the mean over the flow subset of
    error_i / t_i is 2; the code divides the scalar 1 by all four time
    values, the one of the consistency example included, and returns
    (7 + exp(-1)) / 4. *)
Lemma flow_loss_is_not_per_example_mean :
  exists L w',
    train_forward cfg0 enc0 den_zero (y_of 4) (ones 4) false world1 = (Ok L, w') /\
    flow_loss L = Fin ((7 + exp (Ropp 1)) / 4) /\
    spec_flow_loss (flow_target (ones 4) world1)
                   (flow_pred enc0 den_zero (y_of 4) (ones 4) world1)
                   (firstn (split_of (ones 4)) (drawn_t (ones 4) world1))
      = Fin 2 /\
    flow_loss L <>
      spec_flow_loss (flow_target (ones 4) world1)
                     (flow_pred enc0 den_zero (y_of 4) (ones 4) world1)
                     (firstn (split_of (ones 4)) (drawn_t (ones 4) world1)).
Proof.
  assert (HB : (1 <= batch_of (ones 4))%nat) by (rewrite batch_of_ones; lia).
  assert (Et : drawn_t (ones 4) world1 = [sigmoid 0; sigmoid 0; sigmoid 0; sigmoid 1])
    by reflexivity.
  assert (Etar : flow_target (ones 4) world1
                 = mkT [1; 1; 1]%nat [[1 - 0]; [1 - 0]; [1 - 0]]) by reflexivity.
  assert (Epred : flow_pred enc0 den_zero (y_of 4) (ones 4) world1
                  = mkT [1; 1; 1]%nat [[0]; [0]; [0]]) by reflexivity.
  assert (Emse : flow_mse enc0 den_zero (y_of 4) (ones 4) world1 = Fin 1).
  { unfold flow_mse. rewrite Etar, Epred. unfold mse_loss.
    change (flat (tmap2 (fun x y : R => (x - y) ^ 2)
                    (mkT [1; 1; 1]%nat [[1 - 0]; [1 - 0]; [1 - 0]])
                    (mkT [1; 1; 1]%nat [[0]; [0]; [0]])))
      with [(1 - 0 - 0) ^ 2; (1 - 0 - 0) ^ 2; (1 - 0 - 0) ^ 2].
    rewrite Rmean_Fin by discriminate. f_equal. simpl. clear. lra. }
  assert (Hflow : run_flow_loss enc0 den_zero (y_of 4) (ones 4) world1
                  = Fin ((7 + exp (Ropp 1)) / 4)).
  { unfold run_flow_loss. rewrite Emse, Et.
    rewrite fmean_fdiv_closed.
    - f_equal. cbn [map Rsum fold_right length].
      rewrite !sigmoid_inv, Ropp_0, exp_0. simpl. clear. lra.
    - discriminate.
    - repeat constructor; apply Rgt_not_eq; apply sigmoid_range. }
  assert (Hspec : spec_flow_loss (flow_target (ones 4) world1)
                    (flow_pred enc0 den_zero (y_of 4) (ones 4) world1)
                    (firstn (split_of (ones 4)) (drawn_t (ones 4) world1))
                  = Fin 2).
  { rewrite Etar, Epred, Et. unfold spec_flow_loss.
    change (zip_with (fun row ti => fdiv (Rmean row) ti)
              (rows (tmap2 (fun x y : R => (x - y) ^ 2)
                       (mkT [1; 1; 1]%nat [[1 - 0]; [1 - 0]; [1 - 0]])
                       (mkT [1; 1; 1]%nat [[0]; [0]; [0]])))
              (firstn (split_of (ones 4))
                      [sigmoid 0; sigmoid 0; sigmoid 0; sigmoid 1]))
      with (map (fun ti => fdiv (Rmean [(1 - 0 - 0) ^ 2]) ti)
                [sigmoid 0; sigmoid 0; sigmoid 0]).
    rewrite Rmean_Fin by discriminate.
    replace (Rsum [(1 - 0 - 0) ^ 2] / INR (length [(1 - 0 - 0) ^ 2])) with 1
      by (simpl; clear; lra).
    rewrite fmean_fdiv_closed.
    - f_equal. cbn [map Rsum fold_right length].
      rewrite !sigmoid_inv, Ropp_0, exp_0. simpl. clear. lra.
    - discriminate.
    - repeat constructor; apply Rgt_not_eq; apply sigmoid_range. }
  exists (run_losses enc0 den_zero (y_of 4) (ones 4) world1).
  exists (run_world enc0 den_zero (y_of 4) (ones 4) world1).
  split; [now apply train_forward_run|].
  cbn [flow_loss run_losses]. rewrite Hspec, Hflow.
  split; [reflexivity|]. split; [reflexivity|].
  intros E. injection E as E. pose proof exp_minus_1_lt_1. lra.
Qed.

(** ** train_reflow (C10) *)

Lemma at_feat_unbound :
  lookup_name "at_feat" module_globals = None /\
  lookup_name "at_feat" builtins = None /\
  lookup_name "intent_feat" module_globals = None /\
  lookup_name "intent_feat" builtins = None.
Proof. repeat split. Qed.

Lemma load_global_at_feat (w : World) :
  load_global "at_feat" w = (Raise (NameError "at_feat"), w).
Proof. reflexivity. Qed.

Lemma broadcast_rev_nonempty (a b r : list nat) :
  a <> [] -> broadcast_rev a b = Some r -> r <> [].
Proof.
  destruct a as [|x a]; [contradiction|]. intros _.
  destruct b as [|y b]; cbn [broadcast_rev].
  - intros H. injection H as <-. discriminate.
  - destruct (broadcast_rev a b) as [r0|]; [|discriminate].
    destruct (x =? y)%nat; [intros H; injection H as <-; discriminate|].
    destruct (x =? 1)%nat; [intros H; injection H as <-; discriminate|].
    destruct (y =? 1)%nat; [intros H; injection H as <-; discriminate|].
    discriminate.
Qed.

Lemma broadcast_shapes_nonempty (a b s : list nat) :
  a <> [] -> broadcast_shapes a b = Some s -> s <> [].
Proof.
  intros Ha. unfold broadcast_shapes.
  destruct (broadcast_rev (rev a) (rev b)) as [r|] eqn:E; [|discriminate].
  cbn [option_map]. intros H. injection H as <-.
  assert (Hr : r <> []).
  { apply (broadcast_rev_nonempty (rev a) (rev b)); [|exact E].
    intros Hnil. apply Ha. rewrite <- (rev_involutive a), Hnil. reflexivity. }
  intros Hnil. apply Hr. rewrite <- (rev_involutive r), Hnil. reflexivity.
Qed.

Lemma of_flat_shape (s : list nat) (data : list R) :
  s <> [] -> shape (of_flat s data) = s.
Proof.
  destruct s as [|b tl]; [contradiction|]. intros _.
  unfold of_flat, shape. cbn [rows trail]. now rewrite chunk_length.
Qed.

(** What an operation under broadcasting gives: an exception, or a tensor
    of the broadcast shape. *)
Lemma broadcast2_result (f : R -> R -> R) (a b : tensor) :
  match broadcast_shapes (shape a) (shape b) with
  | None =>
      broadcast2 f a b
      = Raise (RuntimeError "The size of tensor a must match the size of tensor b")
  | Some s => exists t, broadcast2 f a b = Ok t /\ shape t = s
  end.
Proof.
  unfold broadcast2.
  destruct (broadcast_shapes (shape a) (shape b)) as [s|] eqn:E; [|reflexivity].
  eexists. split; [reflexivity|]. apply of_flat_shape.
  apply (broadcast_shapes_nonempty (shape a) (shape b)); [discriminate | exact E].
Qed.

(** C10.  Every call of [train_reflow] ends in an exception and never
    returns a loss dictionary, and the velocity network is not called
    once.  The exception is the [NameError] for [at_feat], raised while
    the arguments of the flow-prediction call are evaluated ([at_feat],
    like [intent_feat], is no parameter, no local and no global of the
    module), whenever that call is reached: on a batch with at least one
    example whose latents and noise broadcast against the coefficients of
    shape (B, 1, 1, 1).  On an empty batch the draw of the step sizes
    raises [RuntimeError] before, and so does the mix
    [t_coef * latents + (1 - t_coef) * x0_noise] when the shapes do not
    broadcast. *)
Theorem train_reflow_always_raises
    (denoiser : oracle_method -> DenoiserArgs -> tensor)
    (latents audio_features x0_noise seed_vectors : tensor) (w : World) :
  let run := train_reflow denoiser latents audio_features x0_noise seed_vectors w in
  (exists e, fst run = Raise e) /\
  oracle_calls (snd run) = oracle_calls w /\
  match length (rows latents), reflow_mix_shape latents x0_noise with
  | O, _ => fst run = Raise (RuntimeError "cannot sample n_sample <= 0 samples")
  | S _, None =>
      fst run
      = Raise (RuntimeError "The size of tensor a must match the size of tensor b")
  | S _, Some _ => fst run = Raise (NameError "at_feat")
  end.
Proof.
  intros run. unfold run, train_reflow.
  erewrite bind_ok by reflexivity.
  destruct (length (rows latents)) as [|n] eqn:EB.
  - erewrite bind_raise by apply multinomial_zero.
    cbn [fst snd]. split; [eexists; reflexivity|]. split; reflexivity.
  - erewrite bind_ok by (apply multinomial_run; lia).
    rewrite fill_prefix_vec.
    erewrite bind_ok by (unfold lift; rewrite reshape_coefs_vec; reflexivity).
    set (coef := mkT [1; 1; 1]%nat
                   (map (fun v => [v])
                      (rescale default_t_min default_t_max
                         (draw_from (beta_at (torch_gen w) 2 (12 / 10))
                            (torch_pos (torch_gen w)) (S n))))).
    assert (Hc : shape coef = [S n; 1; 1; 1]%nat).
    { unfold coef, shape. cbn [rows trail].
      now rewrite length_map, rescale_length, draw_from_length. }
    assert (Hc' : shape (tmap (fun c => 1 - c) coef) = [S n; 1; 1; 1]%nat).
    { unfold shape, tmap in *. cbn [rows trail] in *. now rewrite length_map. }
    unfold reflow_mix_shape. rewrite EB.
    pose proof (broadcast2_result Rmult coef latents) as H1.
    rewrite Hc in H1.
    destruct (broadcast_shapes [S n; 1; 1; 1]%nat (shape latents)) as [s1|].
    + destruct H1 as [t1 [E1 Hs1]].
      erewrite bind_ok by (unfold lift; rewrite E1; reflexivity).
      pose proof (broadcast2_result Rmult (tmap (fun c => 1 - c) coef) x0_noise) as H2.
      rewrite Hc' in H2.
      destruct (broadcast_shapes [S n; 1; 1; 1]%nat (shape x0_noise)) as [s2|].
      * destruct H2 as [t2 [E2 Hs2]].
        erewrite bind_ok by (unfold lift; rewrite E2; reflexivity).
        pose proof (broadcast2_result Rplus t1 t2) as H3.
        rewrite Hs1, Hs2 in H3.
        destruct (broadcast_shapes s1 s2) as [s3|].
        -- destruct H3 as [t3 [E3 _]].
           erewrite bind_ok by (unfold lift; rewrite E3; reflexivity).
           erewrite bind_raise by apply load_global_at_feat.
           cbn [fst snd]. split; [eexists; reflexivity|]. split; reflexivity.
        -- erewrite bind_raise by (unfold lift; rewrite H3; reflexivity).
           cbn [fst snd]. split; [eexists; reflexivity|]. split; reflexivity.
      * erewrite bind_raise by (unfold lift; rewrite H2; reflexivity).
        cbn [fst snd]. split; [eexists; reflexivity|]. split; reflexivity.
    + erewrite bind_raise by (unfold lift; rewrite H1; reflexivity).
      cbn [fst snd]. split; [eexists; reflexivity|]. split; reflexivity.
Qed.

(** C10, the claim as written fails: not every call ends in the
    [NameError].  On an empty batch [multinomial] refuses to draw, and on
    four latents with three rows of noise the mix does not broadcast; both
    raise [RuntimeError] before [at_feat] is read.  On four latents with
    four rows of noise the exception is the [NameError]. *)
Lemma train_reflow_not_always_name_error :
  fst (train_reflow den_zero (ones 0) (ones 0) (ones 0) (ones 0) world0)
    = Raise (RuntimeError "cannot sample n_sample <= 0 samples") /\
  fst (train_reflow den_zero (ones 4) (ones 4) (ones 3) (ones 4) world0)
    = Raise (RuntimeError "The size of tensor a must match the size of tensor b") /\
  fst (train_reflow den_zero (ones 4) (ones 4) (ones 4) (ones 4) world0)
    = Raise (NameError "at_feat").
Proof. split; [|split]; reflexivity. Qed.

(** ** The inference integrator (C4) *)


Lemma nth_map_seq {A} (f : nat -> A) (n k : nat) (d : A) :
  (k < n)%nat -> nth k (map f (seq 0 n)) d = f k.
Proof.
  intros Hk.
  rewrite (nth_indep _ d (f 0%nat)) by (now rewrite length_map, length_seq).
  rewrite (map_nth f (seq 0 n) 0%nat k). now rewrite seq_nth.
Qed.






















(* ================================================================== *)
(** * Further properties of the code *)

(** ** The exponential density and its inverse transform *)

Lemma exp_minus_1_nonzero (a : R) : a <> 0 -> exp a - 1 <> 0.
Proof.
  intros Ha E. assert (H : exp a = exp 0) by (rewrite exp_0; lra).
  apply exp_inv in H. contradiction.
Qed.

Lemma normaliser_pos (a : R) : a <> 0 -> 0 < a / (exp a - 1).
Proof.
  intros Ha. destruct (Rlt_dec 0 a) as [Hp | Hn].
  - apply Rdiv_lt_0_compat; [exact Hp|].
    pose proof (exp_increasing 0 a Hp) as H. rewrite exp_0 in H. lra.
  - assert (Hneg : a < 0) by lra.
    pose proof (exp_increasing a 0 Hneg) as H. rewrite exp_0 in H.
    replace (a / (exp a - 1)) with ((- a) / (1 - exp a)) by (field; lra).
    apply Rdiv_lt_0_compat; lra.
Qed.

Lemma inverse_transform_arg_pos (a u : R) :
  a <> 0 -> 0 <= u <= 1 -> 0 < 1 + u * (exp a - 1).
Proof.
  intros Ha [H0 H1]. pose proof (exp_pos a) as He.
  destruct (Rlt_dec 0 a) as [Hp | Hn].
  - pose proof (exp_increasing 0 a Hp) as H. rewrite exp_0 in H. nra.
  - nra.
Qed.

Lemma exponential_cdf_derivative (a x : R) :
  a <> 0 ->
  derivable_pt_lim (fun z => exponential_cdf z a) x (exponential_pdf x a).
Proof.
  intros Ha.
  pose proof (exp_minus_1_nonzero a Ha) as Hne.
  assert (H1 : derivable_pt_lim (mult_real_fct a Datatypes.id) x (a * 1))
    by (apply derivable_pt_lim_scal, derivable_pt_lim_id).
  assert (H2 : derivable_pt_lim (comp exp (mult_real_fct a Datatypes.id)) x
                 (exp (a * x) * (a * 1))).
  { apply (derivable_pt_lim_comp (mult_real_fct a Datatypes.id) exp x (a * 1)
             (exp (a * x))); [exact H1|].
    apply derivable_pt_lim_exp. }
  assert (H3 : derivable_pt_lim
                 (comp exp (mult_real_fct a Datatypes.id) - fct_cte 1) x
                 (exp (a * x) * (a * 1) - 0))
    by (apply derivable_pt_lim_minus; [exact H2 | apply derivable_pt_lim_const]).
  pose proof (derivable_pt_lim_scal _ (/ (exp a - 1)) x _ H3) as H4.
  replace (exponential_pdf x a)
    with (/ (exp a - 1) * (exp (a * x) * (a * 1) - 0))
    by (unfold exponential_pdf; field; exact Hne).
  exact H4.
Qed.

(** The density, its distribution function and the inverse transform. *)
Lemma inverse_transform_facts (a x u : R)
    (Ha : a <> 0) (Hu : 0 <= u <= 1) :
  0 < exponential_pdf x a /\
  derivable_pt_lim (fun z => exponential_cdf z a) x (exponential_pdf x a) /\
  exponential_cdf 0 a = 0 /\
  exponential_cdf 1 a = 1 /\
  exponential_cdf (inverse_transform a u) a = u /\
  inverse_transform a (exponential_cdf x a) = x.
Proof.
  pose proof (exp_minus_1_nonzero a Ha) as Hne.
  split; [|split; [|split; [|split; [|split]]]].
  - unfold exponential_pdf. apply Rmult_lt_0_compat;
      [now apply normaliser_pos | apply exp_pos].
  - now apply exponential_cdf_derivative.
  - unfold exponential_cdf. rewrite Rmult_0_r, exp_0. field. exact Hne.
  - unfold exponential_cdf. rewrite Rmult_1_r. field. exact Hne.
  - unfold exponential_cdf, inverse_transform.
    replace (a * (1 / a * ln (1 + u * (exp a - 1))))
      with (ln (1 + u * (exp a - 1))) by (field; exact Ha).
    rewrite exp_ln by (now apply inverse_transform_arg_pos). field. exact Hne.
  - unfold exponential_cdf, inverse_transform.
    replace (1 + / (exp a - 1) * (exp (a * x) - 1) * (exp a - 1))
      with (exp (a * x)) by (field; exact Hne).
    rewrite ln_exp. field. exact Ha.
Qed.

(** ** The per-timestep loss diagnostic *)


(** ** The training entry point *)

Lemma trained_app (a b : list TrainPy.event) :
  TrainPy.trained (a ++ b) = TrainPy.trained a ++ TrainPy.trained b.
Proof. unfold TrainPy.trained. apply flat_map_app. Qed.

Lemma validated_app (a b : list TrainPy.event) :
  TrainPy.validated (a ++ b) = TrainPy.validated a ++ TrainPy.validated b.
Proof. unfold TrainPy.validated. apply flat_map_app. Qed.

(** What one epoch contributes, for a positive validation period. *)
Lemma epoch_body_summary (cfg : TrainPy.WorkerCfg) (rank trainer_rank epoch : nat) :
  (1 <= TrainPy.val_period cfg)%nat ->
  snd (TrainPy.epoch_body cfg rank trainer_rank epoch) = None /\
  TrainPy.trained (fst (TrainPy.epoch_body cfg rank trainer_rank epoch))
    = (if (epoch =? TrainPy.solver_epochs cfg)%nat then [] else [epoch]) /\
  TrainPy.validated (fst (TrainPy.epoch_body cfg rank trainer_rank epoch))
    = (if ((epoch mod TrainPy.val_period cfg =? 0) && (0 <? epoch)
           && (rank =? 0))%nat
       then [epoch] else []).
Proof.
  intros Hp. unfold TrainPy.epoch_body.
  destruct (TrainPy.val_period cfg) as [|p] eqn:Ep; [lia|].
  cbn [fst snd]. split; [reflexivity|].
  rewrite !trained_app, !validated_app.
  destruct (TrainPy.ddp cfg), (TrainPy.debug cfg), (TrainPy.data_test_clip cfg),
    (trainer_rank =? 0)%nat, (rank =? 0)%nat,
    (epoch =? TrainPy.solver_epochs cfg)%nat,
    ((epoch mod S p =? 0) && (0 <? epoch))%nat; split; reflexivity.
Qed.

Lemma epoch_loop_summary (cfg : TrainPy.WorkerCfg) (rank trainer_rank : nat)
    (epochs : list nat) :
  (1 <= TrainPy.val_period cfg)%nat ->
  snd (TrainPy.epoch_loop cfg rank trainer_rank epochs) = None /\
  TrainPy.trained (fst (TrainPy.epoch_loop cfg rank trainer_rank epochs))
    = filter (fun e => negb (e =? TrainPy.solver_epochs cfg)%nat) epochs /\
  TrainPy.validated (fst (TrainPy.epoch_loop cfg rank trainer_rank epochs))
    = filter (fun e => ((e mod TrainPy.val_period cfg =? 0) && (0 <? e)
                        && (rank =? 0))%nat) epochs.
Proof.
  intros Hp. induction epochs as [|e rest IH]; [repeat split|].
  destruct (epoch_body_summary cfg rank trainer_rank e Hp) as [Hn [Ht Hv]].
  cbn [TrainPy.epoch_loop filter].
  destruct (TrainPy.epoch_body cfg rank trainer_rank e) as [ev r].
  cbn [fst snd] in Hn, Ht, Hv. subst r.
  destruct (TrainPy.epoch_loop cfg rank trainer_rank rest) as [ev' r'].
  cbn [fst snd] in *. destruct IH as [IHn [IHt IHv]].
  split; [exact IHn|].
  rewrite trained_app, validated_app, Ht, Hv, IHt, IHv.
  split.
  - now destruct (e =? TrainPy.solver_epochs cfg)%nat.
  - now destruct ((e mod TrainPy.val_period cfg =? 0) && (0 <? e) && (rank =? 0))%nat.
Qed.

Lemma filter_seq_below (E r n : nat) :
  (r + n <= E)%nat ->
  filter (fun e => negb (e =? E)%nat) (seq r n) = seq r n.
Proof.
  revert r; induction n as [|n IH]; intros r H; [reflexivity|].
  cbn [seq filter]. destruct (Nat.eqb_spec r E) as [->|_]; [lia|].
  cbn [negb]. now rewrite IH by lia.
Qed.

Lemma trained_range (E r : nat) :
  filter (fun e => negb (e =? E)%nat) (seq r (E + 1 - r)) = seq r (E - r).
Proof.
  destruct (Nat.le_gt_cases r E) as [Hle | Hgt].
  - replace (E + 1 - r)%nat with (S (E - r)) by lia.
    rewrite seq_S, filter_app, filter_seq_below by lia.
    cbn [filter]. replace (r + (E - r))%nat with E by lia.
    rewrite Nat.eqb_refl. cbn [negb]. apply app_nil_r.
  - replace (E + 1 - r)%nat with 0%nat by lia.
    replace (E - r)%nat with 0%nat by lia. reflexivity.
Qed.

Lemma resume_from_events (fs : TrainPy.FileSystem) (a : TrainPy.Args) :
  TrainPy.validated (fst (TrainPy.resume_from fs a)) = [] /\
  TrainPy.trained (fst (TrainPy.resume_from fs a)) = [].
Proof.
  unfold TrainPy.resume_from.
  destruct (TrainPy.resume_path a) as [p|]; [|split; reflexivity].
  destruct (negb (TrainPy.path_exists fs
              (if TrainPy.isdir fs p then TrainPy.path_join p "ckpt.pth" else p)));
    split; reflexivity.
Qed.

(** When the checkpoint file is there (or no resume is asked for), the
    resume logic ends with the starting epoch. *)
Lemma resume_from_start (fs : TrainPy.FileSystem) (a : TrainPy.Args) :
  (forall p, TrainPy.resume_path a = Some p ->
     TrainPy.path_exists fs (TrainPy.resume_ckpt_path fs p) = true) ->
  exists ev0,
    TrainPy.resume_from fs a = (ev0, inl (TrainPy.start_epoch fs a)) /\
    forall p, In (TrainPy.TorchLoad p) ev0 ->
      exists q, TrainPy.resume_path a = Some q /\ p = TrainPy.resume_ckpt_path fs q.
Proof.
  intros Hfile. unfold TrainPy.resume_from, TrainPy.start_epoch.
  destruct (TrainPy.resume_path a) as [p|] eqn:Ep.
  - fold (TrainPy.resume_ckpt_path fs p). rewrite (Hfile p eq_refl). cbn [negb].
    eexists; split; [reflexivity|].
    intros q [Hq | [Hq | [Hq | []]]]; try discriminate.
    injection Hq as <-. now exists p.
  - eexists; split; [reflexivity|]. intros p [].
Qed.

Lemma main_worker_train_events
    (fs : TrainPy.FileSystem) (trainer_rank rank world_size : nat)
    (cfg : TrainPy.WorkerCfg) (a : TrainPy.Args) :
  TrainPy.mode a = TrainPy.ModeTrain ->
  (1 <= TrainPy.val_period cfg)%nat ->
  (forall p, TrainPy.resume_path a = Some p ->
     TrainPy.path_exists fs (TrainPy.resume_ckpt_path fs p) = true) ->
  snd (TrainPy.main_worker fs trainer_rank rank world_size cfg a) = None /\
  TrainPy.trained (fst (TrainPy.main_worker fs trainer_rank rank world_size cfg a))
    = seq (TrainPy.start_epoch fs a)
          (TrainPy.solver_epochs cfg - TrainPy.start_epoch fs a) /\
  TrainPy.validated (fst (TrainPy.main_worker fs trainer_rank rank world_size cfg a))
    = filter (fun e => ((e mod TrainPy.val_period cfg =? 0) && (0 <? e)
                        && (rank =? 0))%nat)
             (seq (TrainPy.start_epoch fs a)
                  (TrainPy.solver_epochs cfg + 1 - TrainPy.start_epoch fs a)).
Proof.
  intros Hmode Hp Hfile.
  destruct (resume_from_start fs a Hfile) as [ev0 [Hres _]].
  pose proof (resume_from_events fs a) as [Hv0 Ht0]. rewrite Hres in Hv0, Ht0.
  cbn [fst] in Hv0, Ht0.
  unfold TrainPy.main_worker. rewrite Hres, Hmode.
  set (start := TrainPy.start_epoch fs a).
  destruct (epoch_loop_summary cfg rank trainer_rank
              (seq start (TrainPy.solver_epochs cfg + 1 - start)) Hp)
    as [Hn [Ht Hv]].
  destruct (TrainPy.epoch_loop cfg rank trainer_rank
              (seq start (TrainPy.solver_epochs cfg + 1 - start))) as [ev r].
  cbn [fst snd] in Hn, Ht, Hv. subst r. cbn [fst snd].
  split; [reflexivity|].
  rewrite !trained_app, !validated_app, Ht, Hv, Ht0, Hv0, trained_range.
  cbn [TrainPy.trained TrainPy.validated flat_map app].
  destruct (rank =? 0)%nat; cbn [flat_map app]; rewrite !app_nil_r; split; reflexivity.
Qed.

(** X6.  In train mode with a validation period of at least 1 (and the
    checkpoint file present when a resume is asked for), the body of
    [main_worker] ends without an exception and calls [trainer.train]
    exactly once for each epoch from the starting epoch up to
    [cfg.solver.epochs - 1], in increasing order: never for the epoch
    [cfg.solver.epochs] itself, and not at all when the starting epoch is
    not below it.  The starting epoch is 0 without [--resume], and one more
    than the checkpoint's ['epoch'] entry (taken as 0 when the entry is
    missing) on a resume. *)
Theorem main_worker_trains_each_epoch_once
    (fs : TrainPy.FileSystem) (trainer_rank rank world_size : nat)
    (cfg : TrainPy.WorkerCfg) (a : TrainPy.Args)
    (Hmode : TrainPy.mode a = TrainPy.ModeTrain)
    (Hperiod : (1 <= TrainPy.val_period cfg)%nat)
    (Hfile : forall p, TrainPy.resume_path a = Some p ->
       TrainPy.path_exists fs (TrainPy.resume_ckpt_path fs p) = true) :
  let run := TrainPy.main_worker fs trainer_rank rank world_size cfg a in
  let start := TrainPy.start_epoch fs a in
  snd run = None /\
  TrainPy.trained (fst run) = seq start (TrainPy.solver_epochs cfg - start) /\
  ~ In (TrainPy.solver_epochs cfg) (TrainPy.trained (fst run)) /\
  (TrainPy.resume_path a = None -> start = 0%nat) /\
  (forall p e, TrainPy.resume_path a = Some p ->
     TrainPy.ckpt_epoch (TrainPy.torch_load fs (TrainPy.resume_ckpt_path fs p))
       = Some e -> start = (e + 1)%nat) /\
  (forall p, TrainPy.resume_path a = Some p ->
     TrainPy.ckpt_epoch (TrainPy.torch_load fs (TrainPy.resume_ckpt_path fs p))
       = None -> start = 1%nat).
Proof.
  intros run start.
  destruct (main_worker_train_events fs trainer_rank rank world_size cfg a
              Hmode Hperiod Hfile) as [Hn [Ht _]].
  split; [exact Hn|]. split; [exact Ht|]. split; [|split; [|split]].
  - unfold run. rewrite Ht. intros Hin. apply in_seq in Hin. lia.
  - intros Hnone. unfold start, TrainPy.start_epoch. now rewrite Hnone.
  - intros p e Hp He. unfold start, TrainPy.start_epoch. now rewrite Hp, He.
  - intros p Hp He. unfold start, TrainPy.start_epoch. now rewrite Hp, He.
Qed.

Lemma main_worker_trains_each_epoch_once_witness :
  TrainPy.trained
    (fst (TrainPy.main_worker
            (TrainPy.mkFileSystem (fun _ => true) (fun _ => true)
               (fun _ => TrainPy.mkCheckpoint (Some 2%nat)))
            0 0 1
            (TrainPy.mkWorkerCfg false false 2 6 false 42%Z)
            (TrainPy.mkRunArgs (Some "out/exp"%string) TrainPy.ModeTrain)))
  = [3; 4; 5]%nat.
Proof.
  exact (proj1 (proj2 (main_worker_trains_each_epoch_once
           (TrainPy.mkFileSystem (fun _ => true) (fun _ => true)
              (fun _ => TrainPy.mkCheckpoint (Some 2%nat)))
           0 0 1
           (TrainPy.mkWorkerCfg false false 2 6 false 42%Z)
           (TrainPy.mkRunArgs (Some "out/exp"%string) TrainPy.ModeTrain)
           eq_refl (le_S _ _ (le_n 1)) (fun _ _ => eq_refl)))).
Defined.

(** X7.  In the same runs the validation pass ([trainer.val], or
    [trainer.test_clip] when [cfg.data.test_clip] is set) is made on rank 0
    only, once at each epoch e with e > 0, e a multiple of
    [cfg.val_period], and e between the starting epoch and
    [cfg.solver.epochs] inclusive: the epoch [cfg.solver.epochs] is
    validated when it is such a multiple although it is not trained, and
    epoch 0 is never validated. *)
Theorem main_worker_validates_on_period
    (fs : TrainPy.FileSystem) (trainer_rank rank world_size : nat)
    (cfg : TrainPy.WorkerCfg) (a : TrainPy.Args) (e : nat)
    (Hmode : TrainPy.mode a = TrainPy.ModeTrain)
    (Hperiod : (1 <= TrainPy.val_period cfg)%nat)
    (Hfile : forall p, TrainPy.resume_path a = Some p ->
       TrainPy.path_exists fs (TrainPy.resume_ckpt_path fs p) = true) :
  let run := TrainPy.main_worker fs trainer_rank rank world_size cfg a in
  (In e (TrainPy.validated (fst run)) <->
   rank = 0%nat /\ (1 <= e)%nat /\
   (TrainPy.start_epoch fs a <= e <= TrainPy.solver_epochs cfg)%nat /\
   (e mod TrainPy.val_period cfg = 0)%nat) /\
  NoDup (TrainPy.validated (fst run)).
Proof.
  intros run.
  destruct (main_worker_train_events fs trainer_rank rank world_size cfg a
              Hmode Hperiod Hfile) as [_ [_ Hv]].
  unfold run. rewrite Hv. split.
  - rewrite filter_In, in_seq, !andb_true_iff, !Nat.eqb_eq, Nat.ltb_lt. lia.
  - apply NoDup_filter, seq_NoDup.
Qed.

Lemma main_worker_validates_on_period_witness :
  In 6%nat
    (TrainPy.validated
       (fst (TrainPy.main_worker
               (TrainPy.mkFileSystem (fun _ => false) (fun _ => false)
                  (fun _ => TrainPy.mkCheckpoint None))
               0 0 1
               (TrainPy.mkWorkerCfg false false 2 6 false 42%Z)
               (TrainPy.mkRunArgs None TrainPy.ModeTrain)))).
Proof.
  refine (proj2 (proj1 (main_worker_validates_on_period
           (TrainPy.mkFileSystem (fun _ => false) (fun _ => false)
              (fun _ => TrainPy.mkCheckpoint None))
           0 0 1
           (TrainPy.mkWorkerCfg false false 2 6 false 42%Z)
           (TrainPy.mkRunArgs None TrainPy.ModeTrain) 6 eq_refl _ _)) _).
  - cbn. lia.
  - intros p H. discriminate H.
  - vm_compute. repeat split; lia.
Defined.

(** X8.  With [cfg.val_period = 0] a training run whose range of epochs
    is not empty raises [ZeroDivisionError] in its first pass, at
    [epoch % cfg.val_period], before any epoch is trained or validated. *)
Theorem main_worker_zero_val_period
    (fs : TrainPy.FileSystem) (trainer_rank rank world_size : nat)
    (cfg : TrainPy.WorkerCfg) (a : TrainPy.Args)
    (Hmode : TrainPy.mode a = TrainPy.ModeTrain)
    (Hperiod : TrainPy.val_period cfg = 0%nat)
    (Hfile : forall p, TrainPy.resume_path a = Some p ->
       TrainPy.path_exists fs (TrainPy.resume_ckpt_path fs p) = true)
    (Hrange : (TrainPy.start_epoch fs a <= TrainPy.solver_epochs cfg)%nat) :
  let run := TrainPy.main_worker fs trainer_rank rank world_size cfg a in
  snd run = Some TrainPy.ZeroDivisionError /\
  TrainPy.trained (fst run) = [] /\
  TrainPy.validated (fst run) = [].
Proof.
  intros run.
  destruct (resume_from_start fs a Hfile) as [ev0 [Hres _]].
  pose proof (resume_from_events fs a) as [Hv0 Ht0]. rewrite Hres in Hv0, Ht0.
  cbn [fst] in Hv0, Ht0.
  unfold run, TrainPy.main_worker. rewrite Hres, Hmode.
  replace (TrainPy.solver_epochs cfg + 1 - TrainPy.start_epoch fs a)%nat
    with (S (TrainPy.solver_epochs cfg - TrainPy.start_epoch fs a)) by lia.
  cbn [seq TrainPy.epoch_loop]. unfold TrainPy.epoch_body. rewrite Hperiod.
  cbn [fst snd]. rewrite !trained_app, !validated_app, Ht0, Hv0.
  destruct (TrainPy.ddp cfg); repeat split.
Qed.

Lemma main_worker_zero_val_period_witness :
  snd (TrainPy.main_worker
         (TrainPy.mkFileSystem (fun _ => false) (fun _ => false)
            (fun _ => TrainPy.mkCheckpoint None))
         0 0 1
         (TrainPy.mkWorkerCfg true false 0 6 false 42%Z)
         (TrainPy.mkRunArgs None TrainPy.ModeTrain))
  = Some TrainPy.ZeroDivisionError.
Proof.
  refine (proj1 (main_worker_zero_val_period
           (TrainPy.mkFileSystem (fun _ => false) (fun _ => false)
              (fun _ => TrainPy.mkCheckpoint None))
           0 0 1
           (TrainPy.mkWorkerCfg true false 0 6 false 42%Z)
           (TrainPy.mkRunArgs None TrainPy.ModeTrain) eq_refl eq_refl _ _)).
  - intros p H. discriminate H.
  - cbn. lia.
Defined.

(** X9.  When [args.resume] is a non-empty path and the checkpoint file
    it designates ([<resume>/ckpt.pth] when the path is a directory, the
    path itself otherwise) does not exist, the body of [main_worker]
    raises [FileNotFoundError] for that file in every mode, test and render
    included, once the process group and the trainer are set up and before
    anything is loaded, trained, validated or tested. *)
Theorem main_worker_missing_checkpoint
    (fs : TrainPy.FileSystem) (trainer_rank rank world_size : nat)
    (cfg : TrainPy.WorkerCfg) (a : TrainPy.Args) (p : string)
    (Hresume : TrainPy.resume a = Some p)
    (Hnonempty : p <> EmptyString)
    (Hmissing : TrainPy.path_exists fs (TrainPy.resume_ckpt_path fs p) = false) :
  TrainPy.main_worker fs trainer_rank rank world_size cfg a
  = ([TrainPy.InitProcessGroup rank world_size; TrainPy.SetArgsAndLogger rank;
      TrainPy.SeedEverything (TrainPy.seed cfg); TrainPy.PrintExpInfo;
      TrainPy.BuildTrainer],
     Some (TrainPy.FileNotFoundError (TrainPy.resume_ckpt_path fs p))) /\
  (TrainPy.isdir fs p = true ->
   TrainPy.resume_ckpt_path fs p = TrainPy.path_join p "ckpt.pth") /\
  (TrainPy.isdir fs p = false -> TrainPy.resume_ckpt_path fs p = p).
Proof.
  assert (Hpath : TrainPy.resume_path a = Some p).
  { unfold TrainPy.resume_path. rewrite Hresume. destruct p; [congruence|reflexivity]. }
  split; [|split].
  - unfold TrainPy.main_worker, TrainPy.resume_from. rewrite Hpath.
    fold (TrainPy.resume_ckpt_path fs p). rewrite Hmissing. cbn [negb].
    now rewrite app_nil_r.
  - intros Hd. unfold TrainPy.resume_ckpt_path. now rewrite Hd.
  - intros Hd. unfold TrainPy.resume_ckpt_path. now rewrite Hd.
Qed.

Lemma main_worker_missing_checkpoint_witness :
  snd (TrainPy.main_worker
         (TrainPy.mkFileSystem (fun _ => true) (fun _ => false)
            (fun _ => TrainPy.mkCheckpoint None))
         0 0 1
         (TrainPy.mkWorkerCfg false false 2 6 false 42%Z)
         (TrainPy.mkRunArgs (Some "out/exp"%string) TrainPy.ModeTest))
  = Some (TrainPy.FileNotFoundError "out/exp/ckpt.pth"%string).
Proof.
  refine (f_equal snd (proj1 (main_worker_missing_checkpoint
           (TrainPy.mkFileSystem (fun _ => true) (fun _ => false)
              (fun _ => TrainPy.mkCheckpoint None))
           0 0 1
           (TrainPy.mkWorkerCfg false false 2 6 false 42%Z)
           (TrainPy.mkRunArgs (Some "out/exp"%string) TrainPy.ModeTest)
           "out/exp"%string eq_refl _ eq_refl))).
  discriminate.
Defined.

(** ** Validation records and checkpoints *)

Lemma flt_irrefl (a : fnum) : TrainPy.flt a a = false.
Proof.
  destruct a; cbn; try reflexivity.
  destruct (Rlt_dec r r); [lra | reflexivity].
Qed.

Lemma flt_asym (a b : fnum) : TrainPy.flt a b = true -> TrainPy.flt b a = false.
Proof.
  destruct a as [x| | |], b as [y| | |]; cbn; try congruence.
  destruct (Rlt_dec x y), (Rlt_dec y x); try congruence. lra.
Qed.

Lemma flt_nan_r (a : fnum) : TrainPy.flt a NaN = false.
Proof. now destruct a. Qed.

Ltac case_names :=
  repeat match goal with
         | |- context [TrainPy.name_in ?n ?l] => destruct (TrainPy.name_in n l)
         end.

Lemma is_better_irrefl (name : string) (v : fnum) : TrainPy.is_better name v v = false.
Proof.
  unfold TrainPy.is_better. case_names; apply flt_irrefl.
Qed.

Lemma is_better_asym (name : string) (a b : fnum) :
  TrainPy.is_better name a b = true -> TrainPy.is_better name b a = false.
Proof.
  unfold TrainPy.is_better. case_names; apply flt_asym.
Qed.

Lemma is_better_nan (name : string) (a b : fnum) :
  TrainPy.is_better name a b = true -> a <> NaN /\ b <> NaN.
Proof.
  unfold TrainPy.is_better.
  case_names; intros H; split; intros ->;
    cbn in H; rewrite ?flt_nan_r in H; discriminate.
Qed.

Lemma get_set_same {V} (k : string) (v : V) (d : list (string * V)) :
  TrainPy.get k (TrainPy.set k v d) = Some v.
Proof.
  induction d as [|[k' v'] rest IH]; cbn.
  - now rewrite String.eqb_refl.
  - destruct (String.eqb_spec k' k) as [->|Hne]; cbn.
    + now rewrite String.eqb_refl.
    + destruct (String.eqb_spec k' k); [contradiction | exact IH].
Qed.

Lemma get_set_other {V} (k k' : string) (v : V) (d : list (string * V)) :
  k <> k' -> TrainPy.get k' (TrainPy.set k v d) = TrainPy.get k' d.
Proof.
  intros Hne. induction d as [|[k0 v0] rest IH]; cbn.
  - destruct (String.eqb_spec k k'); [contradiction | reflexivity].
  - destruct (String.eqb_spec k0 k) as [->|Hk]; cbn.
    + destruct (String.eqb_spec k k'); [contradiction | reflexivity].
    + destruct (String.eqb_spec k0 k'); [reflexivity | exact IH].
Qed.

Lemma set_keys {V} (k : string) (v x : V) (d : list (string * V)) :
  TrainPy.get k d = Some x -> map fst (TrainPy.set k v d) = map fst d.
Proof.
  induction d as [|[k0 v0] rest IH]; cbn; [discriminate|].
  destruct (String.eqb_spec k0 k) as [->|Hk]; cbn; [reflexivity|].
  intros H. now rewrite IH.
Qed.

Lemma get_none_iff {V} (k : string) (d : list (string * V)) :
  TrainPy.get k d = None <-> ~ In k (map fst d).
Proof.
  induction d as [|[k0 v0] rest IH]; cbn; [tauto|].
  destruct (String.eqb_spec k0 k) as [->|Hk].
  - split; [discriminate | tauto].
  - rewrite IH. tauto.
Qed.

Lemma get_of_in {V} (k : string) (v : V) (d : list (string * V)) :
  NoDup (map fst d) -> In (k, v) d -> TrainPy.get k d = Some v.
Proof.
  induction d as [|[k0 v0] rest IH]; cbn; [tauto|].
  intros Hnd [Heq | Hin].
  - injection Heq as -> ->. now rewrite String.eqb_refl.
  - inversion Hnd as [|? ? Hnotin Hnd']; subst.
    destruct (String.eqb_spec k0 k) as [->|Hk]; [|now apply IH].
    exfalso. apply Hnotin. now apply (in_map fst) in Hin.
Qed.

Lemma flat_map_ext_on {A B} (f g : A -> list B) (l : list A) :
  (forall a, In a l -> f a = g a) -> flat_map f l = flat_map g l.
Proof.
  induction l as [|a rest IH]; intros H; cbn; [reflexivity|].
  rewrite (H a (or_introl eq_refl)), IH; [reflexivity|].
  intros b Hb. apply H. now right.
Qed.

Lemma flat_map_nil {A B} (l : list A) : flat_map (fun _ => @nil B) l = [].
Proof. induction l; [reflexivity | assumption]. Qed.

Lemma saved_paths_app (a b : list TrainPy.disk_op) :
  TrainPy.saved_paths (a ++ b) = TrainPy.saved_paths a ++ TrainPy.saved_paths b.
Proof. unfold TrainPy.saved_paths. apply flat_map_app. Qed.

Lemma save_checkpoint_paths (self : TrainPy.Trainer) (vb : list (string * TrainPy.Best))
    (epoch it : nat) (name : string) :
  TrainPy.saved_paths
    (TrainPy.save_checkpoint (TrainPy.checkpoint_path self) vb epoch it true (Some name))
  = TrainPy.regular_paths self epoch ++ TrainPy.best_paths self name.
Proof.
  unfold TrainPy.save_checkpoint, TrainPy.regular_paths, TrainPy.best_paths.
  rewrite saved_paths_app.
  destruct (epoch mod 20 =? 0)%nat, (TrainPy.truthy_name (Some name)); reflexivity.
Qed.

Lemma save_checkpoint_final (self : TrainPy.Trainer) (vb : list (string * TrainPy.Best))
    (epoch it : nat) :
  TrainPy.save_checkpoint (TrainPy.checkpoint_path self) vb epoch it false None
  = if (epoch mod 20 =? 0)%nat then
      [TrainPy.Makedirs (TrainPy.regular_dir (TrainPy.checkpoint_path self) epoch);
       TrainPy.TorchSave (TrainPy.mkSaved epoch it vb)
         (TrainPy.path_join (TrainPy.regular_dir (TrainPy.checkpoint_path self) epoch)
            "ckpt.pth")]
    else [].
Proof.
  unfold TrainPy.save_checkpoint. rewrite app_nil_r. reflexivity.
Qed.

Lemma val_step_best (self : TrainPy.Trainer) (epoch : nat) (st : TrainPy.ValState)
    (name : string) (m : TrainPy.Meter) :
  TrainPy.vs_val_best (TrainPy.val_step self epoch st (name, m))
  = match TrainPy.get name (TrainPy.vs_val_best st) with
    | Some current =>
        if TrainPy.step_improves name m current
        then TrainPy.set name (TrainPy.mkBest (TrainPy.meter_avg m) epoch)
               (TrainPy.vs_val_best st)
        else TrainPy.vs_val_best st
    | None => TrainPy.vs_val_best st
    end.
Proof.
  unfold TrainPy.val_step, TrainPy.step_improves.
  destruct (0 <? TrainPy.meter_count m)%nat; cbn [andb].
  - destruct (TrainPy.get name (TrainPy.vs_val_best st)) as [cur|]; [|reflexivity].
    cbn [TrainPy.vs_val_best].
    destruct (TrainPy.is_better name (TrainPy.meter_avg m) (TrainPy.best_value cur));
      reflexivity.
  - now destruct (TrainPy.get name (TrainPy.vs_val_best st)).
Qed.

Lemma val_step_paths (self : TrainPy.Trainer) (epoch : nat) (st : TrainPy.ValState)
    (name : string) (m : TrainPy.Meter) :
  TrainPy.saved_paths (TrainPy.vs_ops (TrainPy.val_step self epoch st (name, m)))
  = TrainPy.saved_paths (TrainPy.vs_ops st)
    ++ match TrainPy.get name (TrainPy.vs_val_best st) with
       | Some current =>
           if TrainPy.step_improves name m current
           then TrainPy.regular_paths self epoch ++ TrainPy.best_paths self name
           else []
       | None => []
       end.
Proof.
  unfold TrainPy.val_step, TrainPy.step_improves.
  destruct (0 <? TrainPy.meter_count m)%nat; cbn [andb].
  - destruct (TrainPy.get name (TrainPy.vs_val_best st)) as [cur|];
      [|cbn [TrainPy.vs_ops]; now rewrite app_nil_r].
    cbn [TrainPy.vs_ops]. rewrite saved_paths_app.
    destruct (TrainPy.is_better name (TrainPy.meter_avg m) (TrainPy.best_value cur)).
    + now rewrite save_checkpoint_paths.
    + reflexivity.
  - destruct (TrainPy.get name (TrainPy.vs_val_best st)); now rewrite app_nil_r.
Qed.

Lemma val_step_get_other (self : TrainPy.Trainer) (epoch : nat) (st : TrainPy.ValState)
    (name name' : string) (m : TrainPy.Meter) :
  name <> name' ->
  TrainPy.get name' (TrainPy.vs_val_best (TrainPy.val_step self epoch st (name, m)))
  = TrainPy.get name' (TrainPy.vs_val_best st).
Proof.
  intros Hne. rewrite val_step_best.
  destruct (TrainPy.get name (TrainPy.vs_val_best st)) as [cur|]; [|reflexivity].
  destruct (TrainPy.step_improves name m cur); [|reflexivity].
  now apply get_set_other.
Qed.

Lemma val_step_keys (self : TrainPy.Trainer) (epoch : nat) (st : TrainPy.ValState)
    (entry : string * TrainPy.Meter) :
  map fst (TrainPy.vs_val_best (TrainPy.val_step self epoch st entry))
  = map fst (TrainPy.vs_val_best st).
Proof.
  destruct entry as [name m]. rewrite val_step_best.
  destruct (TrainPy.get name (TrainPy.vs_val_best st)) as [cur|] eqn:E; [|reflexivity].
  destruct (TrainPy.step_improves name m cur); [|reflexivity].
  now apply set_keys with (x := cur).
Qed.

Lemma improves_cons_same (name : string) (m : TrainPy.Meter)
    (rest : list (string * TrainPy.Meter)) (current : TrainPy.Best) :
  TrainPy.improves ((name, m) :: rest) name current
  = if TrainPy.step_improves name m current then Some m else None.
Proof.
  unfold TrainPy.improves, TrainPy.step_improves. cbn [TrainPy.get].
  now rewrite String.eqb_refl.
Qed.

Lemma improves_cons_other (name name' : string) (m : TrainPy.Meter)
    (rest : list (string * TrainPy.Meter)) (current : TrainPy.Best) :
  name <> name' ->
  TrainPy.improves ((name, m) :: rest) name' current
  = TrainPy.improves rest name' current.
Proof.
  intros Hne. unfold TrainPy.improves. cbn [TrainPy.get].
  destruct (String.eqb_spec name name'); [contradiction | reflexivity].
Qed.

Lemma improves_absent (name : string) (l : list (string * TrainPy.Meter))
    (current : TrainPy.Best) :
  ~ In name (map fst l) -> TrainPy.improves l name current = None.
Proof.
  intros H. unfold TrainPy.improves.
  now rewrite (proj2 (get_none_iff name l) H).
Qed.

Lemma improves_of_in (name : string) (m : TrainPy.Meter)
    (l : list (string * TrainPy.Meter)) (current : TrainPy.Best) :
  NoDup (map fst l) -> In (name, m) l ->
  TrainPy.improves l name current
  = if TrainPy.step_improves name m current then Some m else None.
Proof.
  intros Hnd Hin. unfold TrainPy.improves, TrainPy.step_improves.
  now rewrite (get_of_in name m l Hnd Hin).
Qed.

Lemma improves_some (name : string) (l : list (string * TrainPy.Meter))
    (current : TrainPy.Best) (m : TrainPy.Meter) :
  TrainPy.improves l name current = Some m ->
  TrainPy.is_better name (TrainPy.meter_avg m) (TrainPy.best_value current) = true.
Proof.
  unfold TrainPy.improves.
  destruct (TrainPy.get name l) as [m'|]; [|discriminate].
  destruct (0 <? TrainPy.meter_count m')%nat; cbn [andb]; [|discriminate].
  destruct (TrainPy.is_better name (TrainPy.meter_avg m') (TrainPy.best_value current))
    eqn:E; [|discriminate].
  intros H. injection H as <-. exact E.
Qed.

(** The loop over the meters, entry by entry of [self.val_best]. *)
Lemma val_loop_best (self : TrainPy.Trainer) (epoch : nat)
    (l : list (string * TrainPy.Meter)) :
  NoDup (map fst l) ->
  forall (st : TrainPy.ValState) (name : string) (current : TrainPy.Best),
    TrainPy.get name (TrainPy.vs_val_best st) = Some current ->
    TrainPy.get name
      (TrainPy.vs_val_best (fold_left (TrainPy.val_step self epoch) l st))
    = Some match TrainPy.improves l name current with
           | Some m => TrainPy.mkBest (TrainPy.meter_avg m) epoch
           | None => current
           end.
Proof.
  induction l as [|[n m] rest IH]; intros Hnd st name current Hget.
  - exact Hget.
  - cbn [fold_left]. cbn [map fst] in Hnd.
    inversion Hnd as [|? ? Hnotin Hnd']; subst.
    destruct (String.eqb_spec n name) as [->|Hne].
    + rewrite improves_cons_same.
      destruct (TrainPy.step_improves name m current) eqn:Eimp.
      * rewrite (IH Hnd' _ name (TrainPy.mkBest (TrainPy.meter_avg m) epoch)).
        -- now rewrite improves_absent.
        -- rewrite val_step_best, Hget, Eimp. apply get_set_same.
      * rewrite (IH Hnd' _ name current).
        -- now rewrite improves_absent.
        -- now rewrite val_step_best, Hget, Eimp.
    + rewrite improves_cons_other by exact Hne.
      apply (IH Hnd'). now rewrite val_step_get_other.
Qed.

Lemma val_loop_keys (self : TrainPy.Trainer) (epoch : nat)
    (l : list (string * TrainPy.Meter)) (st : TrainPy.ValState) :
  map fst (TrainPy.vs_val_best (fold_left (TrainPy.val_step self epoch) l st))
  = map fst (TrainPy.vs_val_best st).
Proof.
  revert st. induction l as [|e rest IH]; intros st; [reflexivity|].
  cbn [fold_left]. now rewrite IH, val_step_keys.
Qed.

Lemma val_loop_paths (self : TrainPy.Trainer) (epoch : nat)
    (l : list (string * TrainPy.Meter)) :
  NoDup (map fst l) ->
  forall st : TrainPy.ValState,
    TrainPy.saved_paths
      (TrainPy.vs_ops (fold_left (TrainPy.val_step self epoch) l st))
    = TrainPy.saved_paths (TrainPy.vs_ops st)
      ++ flat_map
           (fun entry =>
              match TrainPy.get (fst entry) (TrainPy.vs_val_best st) with
              | Some current =>
                  if TrainPy.step_improves (fst entry) (snd entry) current
                  then TrainPy.regular_paths self epoch
                       ++ TrainPy.best_paths self (fst entry)
                  else []
              | None => []
              end) l.
Proof.
  induction l as [|[n m] rest IH]; intros Hnd st.
  - cbn. now rewrite app_nil_r.
  - cbn [fold_left flat_map fst snd]. cbn [map fst] in Hnd.
    inversion Hnd as [|? ? Hnotin Hnd']; subst.
    rewrite (IH Hnd'), val_step_paths, <- app_assoc. f_equal. f_equal.
    apply flat_map_ext_on. intros [n' m'] Hin. cbn [fst snd].
    rewrite val_step_get_other; [reflexivity|].
    intros ->. apply Hnotin. now apply (in_map fst) in Hin.
Qed.

Lemma val_recording_paths (self : TrainPy.Trainer) (epoch : nat) :
  NoDup (map fst (TrainPy.loss_meters self)) ->
  TrainPy.saved_paths (TrainPy.out_ops (TrainPy.val_recording self epoch))
  = flat_map (TrainPy.improved_paths self epoch) (TrainPy.loss_meters self)
    ++ TrainPy.regular_paths self epoch.
Proof.
  intros Hnd. unfold TrainPy.val_recording. cbn [TrainPy.out_ops].
  rewrite saved_paths_app, (val_loop_paths self epoch _ Hnd).
  cbn [TrainPy.vs_ops TrainPy.vs_val_best TrainPy.saved_paths flat_map app].
  f_equal.
  - apply flat_map_ext_on. intros [n m] Hin. unfold TrainPy.improved_paths.
    cbn [fst snd].
    destruct (TrainPy.get n (TrainPy.val_best self)) as [cur|]; [|reflexivity].
    rewrite (improves_of_in n m _ cur Hnd Hin).
    now destruct (TrainPy.step_improves n m cur).
  - rewrite save_checkpoint_final. unfold TrainPy.regular_paths.
    now destruct (epoch mod 20 =? 0)%nat.
Qed.

Lemma last_saved_snoc (ops : list TrainPy.disk_op) (d p : string) (c : TrainPy.Saved) :
  TrainPy.last_saved (ops ++ [TrainPy.Makedirs d; TrainPy.TorchSave c p]) p = Some c.
Proof.
  unfold TrainPy.last_saved. rewrite fold_left_app. cbn [fold_left].
  now rewrite String.eqb_refl.
Qed.

Lemma val_recording_ops_end (self : TrainPy.Trainer) (epoch : nat) :
  (epoch mod 20 = 0)%nat ->
  exists ops,
    TrainPy.out_ops (TrainPy.val_recording self epoch)
    = ops ++ [TrainPy.Makedirs (TrainPy.regular_dir (TrainPy.checkpoint_path self) epoch);
              TrainPy.TorchSave
                (TrainPy.mkSaved epoch (epoch * TrainPy.train_loader_len self)
                   (TrainPy.out_val_best (TrainPy.val_recording self epoch)))
                (TrainPy.path_join
                   (TrainPy.regular_dir (TrainPy.checkpoint_path self) epoch)
                   "ckpt.pth")].
Proof.
  intros H20. unfold TrainPy.val_recording.
  cbn [TrainPy.out_ops TrainPy.out_val_best].
  rewrite save_checkpoint_final.
  rewrite (proj2 (Nat.eqb_eq _ _) H20). eexists. reflexivity.
Qed.

Lemma disk_of_holds (ops : list TrainPy.disk_op) : TrainPy.holds (TrainPy.disk_of ops) ops.
Proof.
  split.
  - intros d Hin. cbn. apply existsb_exists.
    exists (TrainPy.Makedirs d). split; [exact Hin | apply String.eqb_refl].
  - intros p c H. cbn. now rewrite H.
Qed.

Lemma path_join_nonempty (a b : string) :
  b <> EmptyString -> TrainPy.path_join a b <> EmptyString.
Proof.
  intros Hb. unfold TrainPy.path_join.
  destruct a as [|h t]; [exact Hb|].
  destruct (TrainPy.last_char (String h t)); [|exact Hb].
  destruct (Ascii.eqb a TrainPy.slash); cbn; discriminate.
Qed.

(** X10.  [val_recording] keeps the keys of [self.val_best] and treats
    each of them on its own: the entry of a tracked metric becomes the
    meter's average with the current epoch exactly when the meter has a
    positive count and that average is strictly better than the recorded
    value (lower for every name but ["l1div"] and ["bc"], for which higher
    is better); otherwise the entry is untouched.  Metrics that are not
    keys of [self.val_best] are never added to it. *)
Theorem val_recording_tracks_best (self : TrainPy.Trainer) (epoch : nat)
    (Hkeys : NoDup (map fst (TrainPy.loss_meters self))) :
  let out := TrainPy.val_recording self epoch in
  map fst (TrainPy.out_val_best out) = map fst (TrainPy.val_best self) /\
  (forall name current,
     TrainPy.get name (TrainPy.val_best self) = Some current ->
     TrainPy.get name (TrainPy.out_val_best out)
     = Some match TrainPy.improves (TrainPy.loss_meters self) name current with
            | Some m => TrainPy.mkBest (TrainPy.meter_avg m) epoch
            | None => current
            end) /\
  (forall name,
     TrainPy.get name (TrainPy.val_best self) = None ->
     TrainPy.get name (TrainPy.out_val_best out) = None).
Proof.
  intros out.
  assert (Hk : map fst (TrainPy.out_val_best out) = map fst (TrainPy.val_best self))
    by apply val_loop_keys.
  split; [exact Hk|]. split.
  - intros name current Hget.
    apply (val_loop_best self epoch _ Hkeys
             (TrainPy.mkValState (TrainPy.val_best self) [] []) name current Hget).
  - intros name Hnone. apply get_none_iff. rewrite Hk. now apply get_none_iff.
Qed.

Lemma val_recording_tracks_best_witness :
  TrainPy.get "fgd"%string
    (TrainPy.out_val_best
       (TrainPy.val_recording
          (TrainPy.mkTrainer 0 "out/exp"%string TrainPy.initial_val_best 10
             [("fgd"%string, TrainPy.mkMeter 3 (Fin 1) (Fin 3));
              ("bc"%string, TrainPy.mkMeter 0 (Fin 5) (Fin 0))])
          4))
  = Some (TrainPy.mkBest (Fin 1) 4).
Proof.
  refine (proj1 (proj2 (val_recording_tracks_best
           (TrainPy.mkTrainer 0 "out/exp"%string TrainPy.initial_val_best 10
              [("fgd"%string, TrainPy.mkMeter 3 (Fin 1) (Fin 3));
               ("bc"%string, TrainPy.mkMeter 0 (Fin 5) (Fin 0))])
           4 _)) "fgd"%string (TrainPy.mkBest PInf 0) eq_refl).
  cbn. repeat constructor; cbn; intuition discriminate.
Defined.

(** X11.  A call of [val_recording] never makes a recorded best value
    worse, and never records [nan]: a new entry differs from the old one
    only by holding a strictly better value together with the current
    epoch; an entry that already holds [nan] is never replaced; and when no
    entry holds [nan] before the call (as in the dictionary
    [BaseTrainer.__init__] builds) none does after it. *)
Theorem val_recording_best_never_worse (self : TrainPy.Trainer) (epoch : nat)
    (name : string) (old new : TrainPy.Best)
    (Hkeys : NoDup (map fst (TrainPy.loss_meters self)))
    (Hold : TrainPy.get name (TrainPy.val_best self) = Some old)
    (Hnew : TrainPy.get name
              (TrainPy.out_val_best (TrainPy.val_recording self epoch)) = Some new) :
  TrainPy.is_better name (TrainPy.best_value old) (TrainPy.best_value new) = false /\
  (new = old \/
   TrainPy.best_epoch new = epoch /\
   TrainPy.is_better name (TrainPy.best_value new) (TrainPy.best_value old) = true) /\
  (TrainPy.best_value old = NaN -> new = old) /\
  (TrainPy.best_value old <> NaN -> TrainPy.best_value new <> NaN).
Proof.
  pose proof (val_loop_best self epoch _ Hkeys
                (TrainPy.mkValState (TrainPy.val_best self) [] []) name old Hold)
    as Hspec.
  change (fold_left _ _ _) with
    (fold_left (TrainPy.val_step self epoch) (TrainPy.loss_meters self)
       (TrainPy.mkValState (TrainPy.val_best self) [] [])) in Hspec.
  unfold TrainPy.val_recording in Hnew. cbn [TrainPy.out_val_best] in Hnew.
  rewrite Hspec in Hnew. injection Hnew as Hnew.
  destruct (TrainPy.improves (TrainPy.loss_meters self) name old) as [m|] eqn:Eimp.
  - apply improves_some in Eimp. subst new. cbn [TrainPy.best_value TrainPy.best_epoch].
    destruct (is_better_nan _ _ _ Eimp) as [Hm Ho].
    split; [now apply is_better_asym|]. split; [right; now split|].
    split; [intros H; contradiction | intros _; exact Hm].
  - subst new. split; [apply is_better_irrefl|]. split; [now left|].
    split; [reflexivity | tauto].
Qed.

Lemma val_recording_best_never_worse_witness :
  TrainPy.is_better "bc"%string (Fin 2) (Fin 2) = false.
Proof.
  refine (proj1 (val_recording_best_never_worse
           (TrainPy.mkTrainer 0 "out/exp"%string
              [("bc"%string, TrainPy.mkBest (Fin 2) 1)] 10
              [("bc"%string, TrainPy.mkMeter 0 (Fin 5) (Fin 0))])
           4 "bc"%string (TrainPy.mkBest (Fin 2) 1) (TrainPy.mkBest (Fin 2) 1)
           _ eq_refl eq_refl)).
  cbn. repeat constructor; cbn; intuition discriminate.
Defined.

(** X12.  The checkpoint files a call of [val_recording] writes, in
    order: for each metric that improves, the regular file
    [checkpoint_<epoch>/ckpt.pth] when the epoch is a multiple of 20 and
    then [best_<name>/ckpt.pth] (when the name is not empty); at the end
    the regular file again, when the epoch is a multiple of 20.  So the
    closing call, although commented as always saving, writes nothing at
    an epoch that is not a multiple of 20, and a validation at such an
    epoch in which no metric improves writes no checkpoint at all; at a
    multiple of 20 the regular file ends up holding the epoch, the
    iteration [epoch * len(self.train_loader)] and the final best values. *)
Theorem val_recording_checkpoint_files (self : TrainPy.Trainer) (epoch : nat)
    (Hkeys : NoDup (map fst (TrainPy.loss_meters self))) :
  let out := TrainPy.val_recording self epoch in
  TrainPy.saved_paths (TrainPy.out_ops out)
  = flat_map (TrainPy.improved_paths self epoch) (TrainPy.loss_meters self)
    ++ TrainPy.regular_paths self epoch /\
  ((epoch mod 20 <> 0)%nat ->
   (forall name current,
      TrainPy.get name (TrainPy.val_best self) = Some current ->
      TrainPy.improves (TrainPy.loss_meters self) name current = None) ->
   TrainPy.saved_paths (TrainPy.out_ops out) = []) /\
  ((epoch mod 20 = 0)%nat ->
   TrainPy.last_saved (TrainPy.out_ops out)
     (TrainPy.path_join (TrainPy.regular_dir (TrainPy.checkpoint_path self) epoch)
        "ckpt.pth")
   = Some (TrainPy.mkSaved epoch (epoch * TrainPy.train_loader_len self)
             (TrainPy.out_val_best out))).
Proof.
  intros out. pose proof (val_recording_paths self epoch Hkeys) as Hpaths.
  split; [exact Hpaths|]. split.
  - intros H20 Hnone. unfold out. rewrite Hpaths.
    unfold TrainPy.regular_paths.
    destruct (Nat.eqb_spec (epoch mod 20) 0) as [E|_]; [contradiction|].
    rewrite app_nil_r.
    rewrite (flat_map_ext_on _ (fun _ => @nil string)).
    + apply flat_map_nil.
    + intros [n m] _. unfold TrainPy.improved_paths. cbn [fst].
      destruct (TrainPy.get n (TrainPy.val_best self)) as [cur|] eqn:Eg;
        [|reflexivity].
      now rewrite (Hnone n cur Eg).
  - intros H20. destruct (val_recording_ops_end self epoch H20) as [ops Hops].
    unfold out. rewrite Hops. apply last_saved_snoc.
Qed.

Lemma val_recording_checkpoint_files_witness :
  TrainPy.saved_paths
    (TrainPy.out_ops
       (TrainPy.val_recording
          (TrainPy.mkTrainer 0 "out/exp"%string TrainPy.initial_val_best 10
             [("fgd"%string, TrainPy.mkMeter 3 PInf (Fin 3));
              ("loss"%string, TrainPy.mkMeter 2 (Fin 5) (Fin 10))])
          4))
  = [].
Proof.
  refine (proj1 (proj2 (val_recording_checkpoint_files
           (TrainPy.mkTrainer 0 "out/exp"%string TrainPy.initial_val_best 10
              [("fgd"%string, TrainPy.mkMeter 3 PInf (Fin 3));
               ("loss"%string, TrainPy.mkMeter 2 (Fin 5) (Fin 10))])
           4 _)) _ _).
  - cbn. repeat constructor; cbn; intuition discriminate.
  - cbn. discriminate.
  - intros name current Hget. unfold TrainPy.improves.
    cbn [TrainPy.get TrainPy.loss_meters].
    destruct (String.eqb "fgd" name) eqn:E1.
    + apply String.eqb_eq in E1. subst name. cbn in Hget.
      injection Hget as <-. reflexivity.
    + destruct (String.eqb "loss" name) eqn:E2; [|reflexivity].
      apply String.eqb_eq in E2. subst name. cbn in Hget. discriminate Hget.
Defined.

(** X13.  Saving and resuming fit together.  After a call of
    [val_recording] at an epoch that is a multiple of 20, on any file
    system that holds what the call wrote, a training run started with
    [--resume <checkpoint_path>/checkpoint_<epoch>] (the directory, not the
    file) finds [ckpt.pth] in it, loads it, and trains the epochs
    [epoch + 1, ..., cfg.solver.epochs - 1]: the saved epoch is not trained
    again. *)
Theorem resume_after_val_recording
    (self : TrainPy.Trainer) (epoch : nat)
    (fs : TrainPy.FileSystem) (trainer_rank rank world_size : nat)
    (cfg : TrainPy.WorkerCfg) (a : TrainPy.Args)
    (H20 : (epoch mod 20 = 0)%nat)
    (Hdisk : TrainPy.holds fs (TrainPy.out_ops (TrainPy.val_recording self epoch)))
    (Hresume : TrainPy.resume a
               = Some (TrainPy.regular_dir (TrainPy.checkpoint_path self) epoch))
    (Hmode : TrainPy.mode a = TrainPy.ModeTrain)
    (Hperiod : (1 <= TrainPy.val_period cfg)%nat) :
  let run := TrainPy.main_worker fs trainer_rank rank world_size cfg a in
  snd run = None /\
  In (TrainPy.TorchLoad
        (TrainPy.path_join
           (TrainPy.regular_dir (TrainPy.checkpoint_path self) epoch) "ckpt.pth"))
     (fst run) /\
  TrainPy.start_epoch fs a = (epoch + 1)%nat /\
  TrainPy.trained (fst run)
  = seq (epoch + 1) (TrainPy.solver_epochs cfg - (epoch + 1)).
Proof.
  intros run.
  set (dir := TrainPy.regular_dir (TrainPy.checkpoint_path self) epoch) in *.
  set (file := TrainPy.path_join dir "ckpt.pth").
  destruct (val_recording_ops_end self epoch H20) as [ops Hops].
  fold dir in Hops. fold file in Hops.
  destruct Hdisk as [Hdirs Hfiles]. rewrite Hops in Hdirs, Hfiles.
  assert (Hisdir : TrainPy.isdir fs dir = true).
  { apply Hdirs. apply in_or_app. right. now left. }
  destruct (Hfiles file _ (last_saved_snoc ops dir file _)) as [Hexists Hload].
  cbn [TrainPy.saved_epoch] in Hload.
  assert (Hpath : TrainPy.resume_path a = Some dir).
  { unfold TrainPy.resume_path. rewrite Hresume.
    assert (Hne : dir <> EmptyString).
    { apply path_join_nonempty. cbn. discriminate. }
    destruct dir; [congruence | reflexivity]. }
  assert (Hckpt : TrainPy.resume_ckpt_path fs dir = file).
  { unfold TrainPy.resume_ckpt_path. now rewrite Hisdir. }
  assert (Hfile : forall p, TrainPy.resume_path a = Some p ->
            TrainPy.path_exists fs (TrainPy.resume_ckpt_path fs p) = true).
  { intros p Hp. rewrite Hpath in Hp. injection Hp as <-. now rewrite Hckpt. }
  assert (Hstart : TrainPy.start_epoch fs a = (epoch + 1)%nat).
  { unfold TrainPy.start_epoch. now rewrite Hpath, Hckpt, Hload. }
  destruct (main_worker_train_events fs trainer_rank rank world_size cfg a
              Hmode Hperiod Hfile) as [Hn [Ht _]].
  split; [exact Hn|]. split; [|split; [exact Hstart|]].
  - unfold run, TrainPy.main_worker, TrainPy.resume_from.
    rewrite Hpath. fold (TrainPy.resume_ckpt_path fs dir).
    rewrite Hckpt, Hexists. cbn [negb]. rewrite Hmode.
    destruct (TrainPy.epoch_loop _ _ _ _) as [ev [e|]];
      cbn [fst]; apply in_or_app; right; apply in_or_app; left; now left.
  - unfold run. now rewrite Ht, Hstart.
Qed.

Lemma resume_after_val_recording_witness :
  TrainPy.trained
    (fst (TrainPy.main_worker
            (TrainPy.disk_of
               (TrainPy.out_ops
                  (TrainPy.val_recording
                     (TrainPy.mkTrainer 0 "out/exp"%string TrainPy.initial_val_best 10
                        [("fgd"%string, TrainPy.mkMeter 3 (Fin 1) (Fin 3))])
                     20)))
            0 0 1
            (TrainPy.mkWorkerCfg false false 5 23 false 42%Z)
            (TrainPy.mkRunArgs (Some "out/exp/checkpoint_20"%string)
               TrainPy.ModeTrain)))
  = [21; 22]%nat.
Proof.
  refine (proj2 (proj2 (proj2 (resume_after_val_recording
           (TrainPy.mkTrainer 0 "out/exp"%string TrainPy.initial_val_best 10
              [("fgd"%string, TrainPy.mkMeter 3 (Fin 1) (Fin 3))])
           20 _ 0 0 1
           (TrainPy.mkWorkerCfg false false 5 23 false 42%Z)
           (TrainPy.mkRunArgs (Some "out/exp/checkpoint_20"%string)
              TrainPy.ModeTrain)
           eq_refl (disk_of_holds _) eq_refl eq_refl _)))).
  cbn. lia.
Defined.

(** ** Collating the intention embeddings *)

Lemma find_hidden_uniform (h : nat) (batch : list (list TrainPy.Mat)) :
  TrainPy.uniform_hidden h batch ->
  TrainPy.find_hidden batch
  = if forallb TrainPy.is_empty_sample batch then None else Some h.
Proof.
  unfold TrainPy.uniform_hidden.
  induction batch as [|s rest IH]; intros Hu; [reflexivity|].
  inversion Hu as [|? ? Hs Hrest]; subst.
  destruct s as [|t ts]; cbn.
  - now apply IH.
  - inversion Hs; subst. reflexivity.
Qed.

Lemma collated_hidden_uniform (h : nat) (batch : list (list TrainPy.Mat)) :
  TrainPy.uniform_hidden h batch ->
  TrainPy.collated_hidden batch
  = if forallb TrainPy.is_empty_sample batch then 768%nat else h.
Proof.
  intros Hu. unfold TrainPy.collated_hidden.
  rewrite (find_hidden_uniform h batch Hu).
  now destruct (forallb TrainPy.is_empty_sample batch).
Qed.

Lemma torch_cat_uniform (h : nat) (t : TrainPy.Mat) (rest : list TrainPy.Mat) :
  Forall (fun u => TrainPy.hidden u = h) (t :: rest) ->
  TrainPy.torch_cat (t :: rest)
  = Ok (TrainPy.mkMat h (TrainPy.sample_rows (t :: rest))).
Proof.
  intros Hu. inversion Hu as [|? ? Ht Hrest]; subst.
  unfold TrainPy.torch_cat.
  replace (forallb _ rest) with true; [reflexivity|].
  symmetry. apply forallb_forall. intros u Hin. apply Nat.eqb_eq.
  exact (proj1 (Forall_forall _ _) Hrest u Hin).
Qed.

Lemma collate_samples_closed (h : nat) (batch samples : list (list TrainPy.Mat))
    (hidden_size : option nat) :
  TrainPy.uniform_hidden h samples ->
  hidden_size = None \/ hidden_size = Some (TrainPy.collated_hidden batch) ->
  (forallb TrainPy.is_empty_sample samples = false ->
   TrainPy.collated_hidden batch = h) ->
  TrainPy.collate_samples batch samples hidden_size
  = Ok (map (fun s => TrainPy.mkMat (TrainPy.collated_hidden batch)
                        (TrainPy.slot_rows batch s)) samples,
        map (fun s => length (TrainPy.sample_rows s)) samples).
Proof.
  unfold TrainPy.uniform_hidden.
  revert hidden_size. induction samples as [|s rest IH]; intros hs Hu Hhs Hne;
    [reflexivity|].
  inversion Hu as [|? ? Hs Hrest]; subst.
  destruct s as [|t ts].
  - cbn [TrainPy.collate_samples].
    assert (Hsize : match hs with
                    | Some h0 => h0
                    | None => match TrainPy.find_hidden batch with
                              | Some h0 => h0
                              | None => 768%nat
                              end
                    end = TrainPy.collated_hidden batch).
    { destruct Hhs as [-> | ->]; reflexivity. }
    rewrite Hsize.
    rewrite (IH _ Hrest (or_intror eq_refl)); [reflexivity|].
    intros H. apply Hne. exact H.
  - assert (Hh : TrainPy.collated_hidden batch = h) by (apply Hne; reflexivity).
    cbn [TrainPy.collate_samples].
    rewrite (torch_cat_uniform h t ts Hs).
    cbn [TrainPy.hidden TrainPy.mat_rows].
    rewrite (IH _ Hrest).
    + cbn [map TrainPy.slot_rows]. now rewrite Hh.
    + right. destruct Hhs as [-> | ->]; [now rewrite Hh | reflexivity].
    + intros _. exact Hh.
Qed.

Lemma pad_all_uniform (len h : nat) (ts : list TrainPy.Mat) :
  Forall (fun t => TrainPy.hidden t = h) ts ->
  TrainPy.pad_all len h ts
  = Ok (map (fun t => TrainPy.mat_rows t
                      ++ repeat (repeat 0 h) (len - length (TrainPy.mat_rows t)))
            ts).
Proof.
  induction ts as [|t rest IH]; intros Hu; [reflexivity|].
  inversion Hu as [|? ? Ht Hrest]; subst.
  cbn [TrainPy.pad_all map]. unfold TrainPy.pad_one.
  rewrite Nat.eqb_refl, (IH Hrest). reflexivity.
Qed.

Lemma pad_sequence_uniform (h : nat) (ts : list TrainPy.Mat) :
  ts <> [] -> Forall (fun t => TrainPy.hidden t = h) ts ->
  TrainPy.pad_sequence ts
  = Ok (TrainPy.mkPadded
          (list_max (map (fun t => length (TrainPy.mat_rows t)) ts)) h
          (map (fun t => TrainPy.mat_rows t
                         ++ repeat (repeat 0 h)
                              (list_max (map (fun t => length (TrainPy.mat_rows t)) ts)
                               - length (TrainPy.mat_rows t)))
               ts)).
Proof.
  intros Hne Hu. destruct ts as [|t0 rest]; [contradiction|].
  unfold TrainPy.pad_sequence.
  assert (H0 : TrainPy.hidden t0 = h) by (now inversion Hu).
  rewrite H0. now rewrite (pad_all_uniform _ h (t0 :: rest) Hu).
Qed.

Lemma map_seq_const {A} (f : nat -> A) (b : A) (n a : nat) :
  (forall j, (a <= j < a + n)%nat -> f j = b) -> map f (seq a n) = repeat b n.
Proof.
  revert a. induction n as [|n IH]; intros a H; [reflexivity|].
  cbn [seq map repeat]. rewrite (H a) by lia. f_equal.
  apply IH. intros j Hj. apply H. lia.
Qed.

Lemma skipn_repeat {A} (x : A) (k n : nat) : skipn k (repeat x n) = repeat x (n - k).
Proof.
  revert n. induction k as [|k IH]; intros n.
  - now rewrite Nat.sub_0_r.
  - destruct n as [|n]; [reflexivity|]. cbn [repeat skipn]. apply IH.
Qed.

(** A row of the mask, in closed form. *)
Lemma mask_row_closed (l w : nat) :
  (if (0 <? l)%nat then TrainPy.fill_true l (repeat false w) else repeat false w)
  = map (fun j => (j <? l)%nat) (seq 0 w).
Proof.
  destruct (Nat.ltb_spec 0 l) as [Hpos | Hzero].
  - unfold TrainPy.fill_true. rewrite repeat_length, skipn_repeat.
    replace w with (Nat.min l w + (w - l))%nat at 3 by lia.
    rewrite seq_app, map_app. f_equal.
    + symmetry. apply map_seq_const. intros j Hj. apply Nat.ltb_lt. lia.
    + symmetry. apply map_seq_const. intros j Hj. apply Nat.ltb_ge. lia.
  - symmetry. apply map_seq_const. intros j Hj. apply Nat.ltb_ge. lia.
Qed.

Lemma collate_intentions_closed (h : nat) (batch : list (list TrainPy.Mat)) :
  batch <> [] -> TrainPy.uniform_hidden h batch ->
  TrainPy.collate_intentions batch
  = Ok (TrainPy.mkPadded
          (list_max (map (fun s => length (TrainPy.slot_rows batch s)) batch))
          (TrainPy.collated_hidden batch)
          (map (fun s =>
                  TrainPy.slot_rows batch s
                  ++ repeat (repeat 0 (TrainPy.collated_hidden batch))
                       (list_max (map (fun s => length (TrainPy.slot_rows batch s))
                                      batch)
                        - length (TrainPy.slot_rows batch s)))
               batch),
        map (fun s =>
               map (fun j => (j <? length (TrainPy.sample_rows s))%nat)
                   (seq 0 (list_max (map (fun s => length (TrainPy.sample_rows s))
                                         batch))))
            batch).
Proof.
  intros Hne Hu.
  assert (E : TrainPy.collate_intentions batch
              = TrainPy.collate_intention_entries batch)
    by (destruct batch; [contradiction | reflexivity]).
  rewrite E. unfold TrainPy.collate_intention_entries.
  rewrite (collate_samples_closed h batch batch None Hu (or_introl eq_refl)).
  2:{ intros Hsome. rewrite (collated_hidden_uniform h batch Hu). now rewrite Hsome. }
  set (hid := TrainPy.collated_hidden batch).
  rewrite (pad_sequence_uniform hid).
  2:{ destruct batch; [contradiction | discriminate]. }
  2:{ apply Forall_forall. intros t Hin. apply in_map_iff in Hin.
      destruct Hin as [s [<- _]]. reflexivity. }
  rewrite !map_map. cbn [TrainPy.mat_rows].
  destruct batch as [|s0 rest]; [contradiction|].
  set (batch := s0 :: rest) in *.
  assert (Hlen : match map (fun s => length (TrainPy.sample_rows s)) batch with
                 | [] => 1%nat
                 | _ :: _ => list_max (map (fun s => length (TrainPy.sample_rows s)) batch)
                 end
                 = list_max (map (fun s => length (TrainPy.sample_rows s)) batch))
    by reflexivity.
  rewrite Hlen. rewrite ?map_map. f_equal. f_equal.
  apply map_ext. intros s. apply mask_row_closed.
Qed.

Lemma list_max_ge (x : nat) (l : list nat) : In x l -> (x <= list_max l)%nat.
Proof.
  intros Hin.
  exact (proj1 (Forall_forall _ _) (proj1 (list_max_le l (list_max l)) (le_n _)) x Hin).
Qed.

Lemma list_max_map_max {A} (f g : A -> nat) (l : list A) :
  list_max (map (fun a => Nat.max (f a) (g a)) l)
  = Nat.max (list_max (map f l)) (list_max (map g l)).
Proof.
  induction l as [|a rest IH]; [reflexivity|].
  cbn [map]. change (list_max (?x :: ?r)) with (Nat.max x (list_max r)).
  rewrite IH. lia.
Qed.

Lemma list_max_flags {A} (p : A -> bool) (l : list A) :
  list_max (map (fun a => if p a then 1%nat else 0%nat) l)
  = if existsb p l then 1%nat else 0%nat.
Proof.
  induction l as [|a rest IH]; [reflexivity|].
  cbn [map existsb]. change (list_max (?x :: ?r)) with (Nat.max x (list_max r)).
  rewrite IH. destruct (p a), (existsb p rest); reflexivity.
Qed.

Lemma slot_rows_length (batch : list (list TrainPy.Mat)) (s : list TrainPy.Mat) :
  length (TrainPy.slot_rows batch s)
  = Nat.max (length (TrainPy.sample_rows s))
            (if TrainPy.is_empty_sample s then 1%nat else 0%nat).
Proof.
  destruct s as [|t ts]; [reflexivity|]. cbn [TrainPy.slot_rows TrainPy.is_empty_sample].
  lia.
Qed.

Lemma nth_map_in {A B} (f : A -> B) (l : list A) (i : nat) (d : B) (d' : A) :
  (i < length l)%nat -> nth i (map f l) d = f (nth i l d').
Proof.
  intros Hi. rewrite (nth_indep _ d (f d')) by (now rewrite length_map).
  apply map_nth.
Qed.

(** X14.  For a non-empty batch whose tensors all have the hidden size
    [h], the ['intention_embeddings'] branch of [custom_collate] returns:
    the padded tensor has one slot per sample, holding the rows of the
    sample's tensors in order (a single zero row for a sample without
    tensors) followed by zero rows up to the longest slot; its hidden size
    is [h], or the fallback 768 when no sample has a tensor; and row [i] of
    the mask is true exactly at the positions below the number of rows of
    sample [i], its width being the largest such number. *)
Theorem collate_intentions_result (h : nat) (batch : list (list TrainPy.Mat))
    (Hbatch : batch <> [])
    (Hhidden : TrainPy.uniform_hidden h batch) :
  let hid := TrainPy.collated_hidden batch in
  let len := list_max (map (fun s => length (TrainPy.slot_rows batch s)) batch) in
  let width := list_max (map (fun s => length (TrainPy.sample_rows s)) batch) in
  TrainPy.collate_intentions batch
  = Ok (TrainPy.mkPadded len hid
          (map (fun s => TrainPy.slot_rows batch s
                         ++ repeat (repeat 0 hid)
                              (len - length (TrainPy.slot_rows batch s)))
               batch),
        map (fun s => map (fun j => (j <? length (TrainPy.sample_rows s))%nat)
                          (seq 0 width))
            batch) /\
  hid = (if forallb TrainPy.is_empty_sample batch then 768%nat else h).
Proof.
  intros hid len width. split.
  - exact (collate_intentions_closed h batch Hbatch Hhidden).
  - exact (collated_hidden_uniform h batch Hhidden).
Qed.

Lemma collate_intentions_result_witness :
  TrainPy.collate_intentions
    [[TrainPy.mkMat 2 [[1; 2]]; TrainPy.mkMat 2 [[3; 4]; [5; 6]]];
     [];
     [TrainPy.mkMat 2 [[7; 8]]]]
  = Ok (TrainPy.mkPadded 3 2
          [[[1; 2]; [3; 4]; [5; 6]];
           [[0; 0]; [0; 0]; [0; 0]];
           [[7; 8]; [0; 0]; [0; 0]]],
        [[true; true; true]; [false; false; false]; [true; false; false]]).
Proof.
  refine (proj1 (collate_intentions_result 2
           [[TrainPy.mkMat 2 [[1; 2]]; TrainPy.mkMat 2 [[3; 4]; [5; 6]]];
            [];
            [TrainPy.mkMat 2 [[7; 8]]]] _ _)).
  - discriminate.
  - repeat constructor.
Defined.

(** X15.  Under the same conditions the mask marks exactly the rows that
    come from the samples: row [i] of the mask holds as many [True] as
    sample [i] has rows, all in front; where the mask is true the padded
    tensor holds the corresponding row of the sample, and every other row
    of the padded tensor is zero.  All slots have the same number of rows,
    and all mask rows the same width. *)
Theorem collate_intentions_mask_marks_rows (h : nat)
    (batch : list (list TrainPy.Mat)) (i : nat)
    (Hhidden : TrainPy.uniform_hidden h batch)
    (Hi : (i < length batch)%nat) :
  exists padded mask,
    TrainPy.collate_intentions batch = Ok (padded, mask) /\
    length (TrainPy.pad_data padded) = length batch /\
    length mask = length batch /\
    length (nth i (TrainPy.pad_data padded) []) = TrainPy.pad_len padded /\
    length (nth i mask [])
    = list_max (map (fun s => length (TrainPy.sample_rows s)) batch) /\
    count_occ bool_dec (nth i mask []) true
    = length (TrainPy.sample_rows (nth i batch [])) /\
    forall j,
      (nth j (nth i mask []) false = true <->
       (j < length (TrainPy.sample_rows (nth i batch [])))%nat) /\
      ((j < length (TrainPy.sample_rows (nth i batch [])))%nat ->
       nth j (nth i (TrainPy.pad_data padded) []) []
       = nth j (TrainPy.sample_rows (nth i batch [])) []) /\
      ((length (TrainPy.sample_rows (nth i batch [])) <= j < TrainPy.pad_len padded)%nat ->
       nth j (nth i (TrainPy.pad_data padded) []) []
       = repeat 0 (TrainPy.pad_hidden padded)).
Proof.
  assert (Hbatch : batch <> []) by (destruct batch; [cbn in Hi; lia | discriminate]).
  eexists; eexists. split; [exact (collate_intentions_closed h batch Hbatch Hhidden)|].
  cbn [TrainPy.pad_data TrainPy.pad_len TrainPy.pad_hidden].
  set (hid := TrainPy.collated_hidden batch).
  set (len := list_max (map (fun s => length (TrainPy.slot_rows batch s)) batch)).
  set (width := list_max (map (fun s => length (TrainPy.sample_rows s)) batch)).
  set (s := nth i batch []).
  assert (Hs : In s batch) by (apply nth_In; exact Hi).
  assert (Hslot : (length (TrainPy.slot_rows batch s) <= len)%nat).
  { apply list_max_ge.
    exact (in_map (fun s => length (TrainPy.slot_rows batch s)) batch s Hs). }
  assert (Hrows : (length (TrainPy.sample_rows s) <= width)%nat).
  { apply list_max_ge.
    exact (in_map (fun s => length (TrainPy.sample_rows s)) batch s Hs). }
  rewrite !length_map.
  rewrite (nth_map_in _ batch i [] [] Hi), (nth_map_in _ batch i [] [] Hi).
  fold s.
  split; [reflexivity|]. split; [reflexivity|].
  split; [rewrite length_app, repeat_length; lia|].
  split; [now rewrite length_map, length_seq|].
  split.
  - rewrite <- (mask_row_closed (length (TrainPy.sample_rows s)) width).
    destruct (Nat.ltb_spec 0 (length (TrainPy.sample_rows s))) as [Hpos | Hzero].
    + unfold TrainPy.fill_true. rewrite repeat_length, skipn_repeat.
      rewrite count_occ_app, !count_occ_repeat_eq by reflexivity.
      rewrite count_occ_repeat_neq by discriminate. lia.
    + rewrite count_occ_repeat_neq by discriminate. lia.
  - intros j. split; [|split].
    + destruct (Nat.lt_ge_cases j width) as [Hj | Hj].
      * rewrite nth_map_seq by exact Hj. apply Nat.ltb_lt.
      * rewrite nth_overflow by (now rewrite length_map, length_seq).
        split; [discriminate | lia].
    + intros Hj. rewrite app_nth1.
      * destruct s as [|t ts]; [cbn in Hj; lia | reflexivity].
      * rewrite slot_rows_length. lia.
    + intros Hj. destruct (Nat.lt_ge_cases j (length (TrainPy.slot_rows batch s)))
        as [Hin | Hout].
      * rewrite app_nth1 by exact Hin.
        destruct s as [|t ts].
        -- cbn [TrainPy.slot_rows] in *. cbn in Hin.
           replace j with 0%nat by lia. reflexivity.
        -- cbn [TrainPy.slot_rows] in Hin. lia.
      * rewrite app_nth2 by exact Hout.
        apply nth_repeat_lt. lia.
Qed.

Lemma collate_intentions_mask_marks_rows_witness :
  exists padded mask,
    TrainPy.collate_intentions
      [[TrainPy.mkMat 2 [[1; 2]]; TrainPy.mkMat 2 [[3; 4]; [5; 6]]];
       [];
       [TrainPy.mkMat 2 [[7; 8]]]]
    = Ok (padded, mask) /\
    count_occ bool_dec (nth 2 mask []) true = 1%nat.
Proof.
  destruct (collate_intentions_mask_marks_rows 2
              [[TrainPy.mkMat 2 [[1; 2]]; TrainPy.mkMat 2 [[3; 4]; [5; 6]]];
               [];
               [TrainPy.mkMat 2 [[7; 8]]]] 2)
    as [padded [mask [Hok [_ [_ [_ [_ [Hcount _]]]]]]]].
  - repeat constructor.
  - cbn. lia.
  - exists padded, mask. split; [exact Hok | exact Hcount].
Defined.

(** X16.  The padded tensor and the mask need not have the same length:
    the padded length is the larger of the mask's width and 1 when some
    sample has no tensor (its zero row counts for the padding but not for
    the mask).  They agree as soon as one sample has a row; when no sample
    has a row and one of them has no tensor, the padded tensor is
    [batch, 1, hidden] and the mask [batch, 0]; and when no sample has a
    tensor the hidden size is 768. *)
Theorem collate_intentions_lengths (h : nat) (batch : list (list TrainPy.Mat))
    (Hbatch : batch <> [])
    (Hhidden : TrainPy.uniform_hidden h batch) :
  exists padded mask,
    TrainPy.collate_intentions batch = Ok (padded, mask) /\
    let width := list_max (map (fun s => length (TrainPy.sample_rows s)) batch) in
    Forall (fun row => length row = width) mask /\
    TrainPy.pad_len padded
    = Nat.max width (if existsb TrainPy.is_empty_sample batch then 1 else 0)%nat /\
    ((0 < width)%nat -> TrainPy.pad_len padded = width) /\
    (width = 0%nat -> existsb TrainPy.is_empty_sample batch = true ->
     TrainPy.pad_len padded = 1%nat) /\
    (forallb TrainPy.is_empty_sample batch = true ->
     width = 0%nat /\ TrainPy.pad_len padded = 1%nat /\
     TrainPy.pad_hidden padded = 768%nat).
Proof.
  eexists; eexists. split; [exact (collate_intentions_closed h batch Hbatch Hhidden)|].
  cbn [TrainPy.pad_data TrainPy.pad_len TrainPy.pad_hidden].
  set (width := list_max (map (fun s => length (TrainPy.sample_rows s)) batch)).
  assert (Hlen : list_max (map (fun s => length (TrainPy.slot_rows batch s)) batch)
                 = Nat.max width
                     (if existsb TrainPy.is_empty_sample batch then 1 else 0)%nat).
  { rewrite (map_ext _ _ (slot_rows_length batch)).
    rewrite (list_max_map_max (fun s => length (TrainPy.sample_rows s))
               (fun s => if TrainPy.is_empty_sample s then 1%nat else 0%nat)).
    now rewrite list_max_flags. }
  split; [|split; [exact Hlen | split; [|split]]].
  - apply Forall_forall. intros row Hin. apply in_map_iff in Hin.
    destruct Hin as [s [<- _]]. now rewrite length_map, length_seq.
  - intros Hpos. rewrite Hlen.
    destruct (existsb TrainPy.is_empty_sample batch); lia.
  - intros Hzero Hex. rewrite Hlen, Hex. lia.
  - intros Hall.
    assert (Hex : existsb TrainPy.is_empty_sample batch = true).
    { destruct batch as [|s rest]; [contradiction|].
      cbn in Hall |- *. apply andb_true_iff in Hall. destruct Hall as [-> _].
      reflexivity. }
    assert (Hw : width = 0%nat).
    { unfold width. apply Nat.le_0_r. apply list_max_le.
      apply Forall_forall. intros n Hin. apply in_map_iff in Hin.
      destruct Hin as [s [<- Hs]].
      pose proof (proj1 (forallb_forall _ _) Hall s Hs) as He.
      destruct s; [cbn; lia | discriminate]. }
    split; [exact Hw|]. split.
    + rewrite Hlen, Hex. lia.
    + rewrite (collated_hidden_uniform h batch Hhidden). now rewrite Hall.
Qed.

Lemma collate_intentions_lengths_witness :
  exists padded mask,
    TrainPy.collate_intentions [[]; []] = Ok (padded, mask) /\
    TrainPy.pad_len padded = 1%nat /\ Forall (fun row => length row = 0%nat) mask.
Proof.
  destruct (collate_intentions_lengths 5 [[]; []])
    as [padded [mask [Hok [Hmask [_ [_ [_ Hall]]]]]]].
  - discriminate.
  - repeat constructor.
  - exists padded, mask. split; [exact Hok|]. split.
    + exact (proj1 (proj2 (Hall eq_refl))).
    + exact Hmask.
Defined.

(** ** [sample_t] *)

Lemma map_nth_seq_id {A} (d : A) (t : list A) :
  map (fun i => nth i t d) (seq 0 (length t)) = t.
Proof.
  induction t as [|x rest IH]; [reflexivity|].
  cbn [length seq map nth]. f_equal.
  rewrite <- seq_shift, map_map. exact IH.
Qed.

Lemma index_select_permutation {A} (d : A) (t : list A) (perm : list nat) :
  Permutation perm (seq 0 (length t)) -> Permutation (index_select d t perm) t.
Proof.
  intros Hp. unfold index_select.
  apply Permutation_trans with (map (fun i => nth i t d) (seq 0 (length t))).
  - now apply Permutation_map.
  - now rewrite map_nth_seq_id.
Qed.

Lemma symmetrised_bounds (t : list R) :
  Forall (fun x => 0 <= x <= 1) t -> Forall (fun x => 0 <= x <= 1) (symmetrised t).
Proof.
  intros H. unfold symmetrised. apply Forall_app. split; [exact H|].
  apply Forall_forall. intros v Hv. apply in_map_iff in Hv.
  destruct Hv as [x [<- Hin]].
  pose proof (proj1 (Forall_forall _ _) H x Hin). lra.
Qed.

(** X17.  When the distribution's [rvs(size=n, a=a)] returns [n] values,
    [sample_t] returns [n] values too: they are the first [n] entries of a
    random permutation of the sample together with its mirror image
    [1 - t], each mapped by [x * (t_max - t_min) + t_min] with
    [t_min = 1e-5] and [t_max = 1 - 1e-5]; so every value returned is the
    image of a draw or of its mirror, the [n] values and the [n] discarded
    ones together are exactly the [2n] symmetrised values, and when the
    draws lie in [0, 1] the values returned lie in [t_min, t_max].  The
    call consumes [2n] positions of the torch generator (for
    [torch.randperm]) after [rvs] has run. *)
Theorem sample_t_selects_from_symmetrised
    (rvs : nat -> R -> M (list R)) (num_samples : nat) (a : R)
    (w w1 : World) (draws : list R)
    (Hrvs : rvs num_samples a w = (Ok draws, w1))
    (Hlen : length draws = num_samples) :
  exists out discarded,
    sample_t rvs num_samples a w
    = (Ok out, advance_torch (2 * num_samples) w1) /\
    length out = num_samples /\
    length discarded = num_samples /\
    Permutation (out ++ discarded)
      (rescale (1 / 100000) (1 - 1 / 100000) (symmetrised draws)) /\
    (Forall (fun x => 0 <= x <= 1) draws ->
     Forall (fun v => 1 / 100000 <= v <= 1 - 1 / 100000) out).
Proof.
  set (t := symmetrised draws).
  assert (Ht : length t = (2 * num_samples)%nat).
  { unfold t, symmetrised. rewrite length_app, length_map. lia. }
  set (perm := shuffle (fun k => index_at (torch_gen w1) (torch_pos (torch_gen w1) + k))
                       (length t)).
  set (sel := index_select 0 t perm).
  assert (Hsel : length sel = (2 * num_samples)%nat).
  { unfold sel, index_select, perm. now rewrite length_map, shuffle_length. }
  exists (rescale (1 / 100000) (1 - 1 / 100000) (firstn num_samples sel)),
         (rescale (1 / 100000) (1 - 1 / 100000) (skipn num_samples sel)).
  split; [|split; [|split; [|split]]].
  - unfold sample_t. rewrite (bind_ok _ _ _ _ _ Hrvs).
    fold (symmetrised draws). fold t.
    unfold bind, torch_randperm, with_torch, ret. fold perm. fold sel.
    rewrite Ht. reflexivity.
  - rewrite rescale_length, length_firstn. lia.
  - rewrite rescale_length, length_skipn. lia.
  - unfold rescale. rewrite <- map_app, firstn_skipn.
    apply Permutation_map. apply index_select_permutation.
    apply shuffle_permutation.
  - intros Hrange. apply rescale_bounds; [lra|].
    apply firstn_Forall. apply index_select_Forall.
    + now apply symmetrised_bounds.
    + apply shuffle_in_range.
Qed.

Lemma sample_t_selects_from_symmetrised_witness :
  exists out discarded : list R,
    sample_t (fun _ _ w => (Ok [1 / 4; 1 / 2; 1], w)) 3 2 world0
    = (Ok out, advance_torch 6 world0) /\
    length out = 3%nat /\ length discarded = 3%nat.
Proof.
  destruct (sample_t_selects_from_symmetrised
              (fun _ _ w => (Ok [1 / 4; 1 / 2; 1], w)) 3 2 world0 world0
              [1 / 4; 1 / 2; 1] eq_refl eq_refl)
    as [out [discarded [Hrun [Hout [Hdis _]]]]].
  exists out, discarded. split; [exact Hrun | split; [exact Hout | exact Hdis]].
Defined.

(** ** [sample_t_fast] *)

(** X1.  For a <> 0, [sample_t_fast] maps each of its 2n uniform draws u
    through (1/a) log(1 + u (exp(a) - 1)), which is the inverse of the
    distribution function F(x) = (exp(a x) - 1) / (exp(a) - 1) of the
    density [exponential_pdf(., a)] (F' is that density, which is
    positive, F(0) = 0, F(1) = 1, and F of each mapped value is the draw it
    comes from); it then adds the mirror image 1 - t of every value and
    returns the first n entries of a random permutation of these 4n
    values, each mapped by x * (t_max - t_min) + t_min.  So what it returns
    is drawn from the density mixed with its mirror image, not from the
    density itself.  For a = 0 it raises [ZeroDivisionError] after the
    uniform draw. *)
Theorem sample_t_fast_inverts_cdf_then_mirrors
    (num_samples : nat) (a t_min t_max : R) (w : World)
    (Ha : a <> 0)
    (Hgen : torch_gen_ok (torch_gen w)) :
  let u := draw_from (uniform_at (torch_gen w)) (torch_pos (torch_gen w))
                     (num_samples * 2) in
  let t := map (inverse_transform a) u in
  (forall x, 0 < exponential_pdf x a /\
             derivable_pt_lim (fun z => exponential_cdf z a) x (exponential_pdf x a)) /\
  exponential_cdf 0 a = 0 /\
  exponential_cdf 1 a = 1 /\
  map (fun ti => exponential_cdf ti a) t = u /\
  (exists out discarded,
     sample_t_fast num_samples a t_min t_max w
     = (Ok out, advance_torch (4 * num_samples)
                  (advance_torch (num_samples * 2) w)) /\
     length out = num_samples /\
     length discarded = (3 * num_samples)%nat /\
     Permutation (out ++ discarded) (rescale t_min t_max (symmetrised t))) /\
  fst (sample_t_fast num_samples 0 t_min t_max w) = Raise ZeroDivisionError.
Proof.
  intros u t.
  assert (Hu01 : 0 <= 0 <= 1) by lra.
  split.
  { intros x. destruct (inverse_transform_facts a x 0 Ha Hu01) as [H1 [H2 _]].
    now split. }
  destruct (inverse_transform_facts a 0 0 Ha Hu01) as [_ [_ [H0 [H1 _]]]].
  split; [exact H0|]. split; [exact H1|].
  split.
  { unfold t. rewrite map_map. rewrite <- (map_id u) at 2.
    apply map_ext_in. intros ui Hin.
    assert (Hui : 0 <= ui <= 1).
    { unfold u, draw_from in Hin. apply in_map_iff in Hin.
      destruct Hin as [k [<- _]]. destruct Hgen as [Hu _].
      specialize (Hu k). lra. }
    exact (proj1 (proj2 (proj2 (proj2 (proj2
             (inverse_transform_facts a 0 ui Ha Hui)))))). }
  split.
  - assert (Ht : length (symmetrised t) = (4 * num_samples)%nat).
    { unfold symmetrised, t, u.
      rewrite length_app, !length_map, draw_from_length. lia. }
    set (w1 := advance_torch (num_samples * 2) w).
    set (perm := shuffle (fun k => index_at (torch_gen w1)
                                     (torch_pos (torch_gen w1) + k))
                         (length (symmetrised t))).
    set (sel := index_select 0 (symmetrised t) perm).
    assert (Hsel : length sel = (4 * num_samples)%nat).
    { unfold sel, index_select, perm. now rewrite length_map, shuffle_length. }
    exists (rescale t_min t_max (firstn num_samples sel)),
           (rescale t_min t_max (skipn num_samples sel)).
    split; [|split; [|split]].
    + unfold sample_t_fast, bind, torch_rand, with_torch.
      destruct (Req_EM_T a 0) as [E0 | _]; [contradiction|].
      unfold ret, torch_randperm, with_torch.
      fold u. unfold inverse_transform in t. fold t.
      fold (symmetrised t). cbn [torch_gen]. fold w1 in perm |- *.
      unfold advance_torch. cbn [torch_gen numpy_gen grad_enabled oracle_calls].
      rewrite <- Ht. reflexivity.
    + rewrite rescale_length, length_firstn. lia.
    + rewrite rescale_length, length_skipn. lia.
    + unfold rescale. rewrite <- map_app, firstn_skipn.
      apply Permutation_map. apply index_select_permutation.
      apply shuffle_permutation.
  - unfold sample_t_fast, bind, torch_rand, with_torch, raise.
    destruct (Req_EM_T 0 0) as [_ | Hne]; [reflexivity | contradiction].
Qed.

Lemma sample_t_fast_inverts_cdf_then_mirrors_witness :
  exists out discarded : list R,
    sample_t_fast 2 2 default_t_min default_t_max world0
    = (Ok out, advance_torch 8 (advance_torch 4 world0)) /\
    length out = 2%nat /\ length discarded = 6%nat.
Proof.
  assert (Ha : 2 <> 0) by lra.
  destruct (sample_t_fast_inverts_cdf_then_mirrors 2 2 default_t_min default_t_max
              world0 Ha gen0_ok)
    as [_ [_ [_ [_ [[out [discarded [Hrun [Hout [Hdis _]]]]] _]]]]].
  exists out, discarded. split; [exact Hrun | split; [exact Hout | exact Hdis]].
Defined.

(** ** The search for a free port *)

Lemma some_not_none {A} (x : A) : Some x <> None.
Proof. discriminate. Qed.

Lemma search_port_eq {A B} (a b : A) (x y : nat) :
  Some (a, @inl nat B x) = Some (b, inl y) -> x = y.
Proof. intros H. now injection H. Qed.

Lemma search_error_not_port {A B} {a b : A} {e : B} {y : nat} :
  Some (a, @inr nat B e) = Some (b, inl y) -> False.
Proof. discriminate. Qed.

Lemma find_port_all_busy (bind_fails : nat -> bool) (n fuel port : nat) :
  (port + n = TrainPy.last_port + 1)%nat -> (n < fuel)%nat ->
  (forall q, (port <= q <= TrainPy.last_port)%nat -> bind_fails q = true) ->
  TrainPy.find_port bind_fails fuel port
  = Some (seq port n, inr TrainPy.OverflowError).
Proof.
  revert fuel port. induction n as [|n IH]; intros fuel port Hsum Hfuel Hbusy;
    (destruct fuel as [|fuel]; [lia|]); cbn [TrainPy.find_port];
    unfold TrainPy.is_port_in_use.
  - destruct (Nat.ltb_spec TrainPy.last_port port) as [_|Hle]; [reflexivity | lia].
  - destruct (Nat.ltb_spec TrainPy.last_port port) as [Hgt|Hle]; [lia|].
    rewrite (Hbusy port) by lia.
    rewrite (IH fuel (port + 1)%nat) by (try lia; intros q Hq; apply Hbusy; lia).
    cbn [seq]. now rewrite Nat.add_1_r.
Qed.

Lemma find_port_first_free (bind_fails : nat -> bool) (n fuel port free : nat) :
  (port + n = free)%nat -> (n < fuel)%nat -> (free <= TrainPy.last_port)%nat ->
  bind_fails free = false ->
  (forall q, (port <= q < free)%nat -> bind_fails q = true) ->
  TrainPy.find_port bind_fails fuel port = Some (seq port n, inl free).
Proof.
  revert fuel port. induction n as [|n IH];
    intros fuel port Hsum Hfuel Hlast Hfree Hbusy;
    (destruct fuel as [|fuel]; [lia|]); cbn [TrainPy.find_port];
    unfold TrainPy.is_port_in_use;
    (destruct (Nat.ltb_spec TrainPy.last_port port) as [Hgt|Hle]; [lia|]).
  - replace port with free by lia. now rewrite Hfree.
  - rewrite (Hbusy port) by lia.
    rewrite (IH fuel (port + 1)%nat) by (try lia; try assumption;
                                        intros q Hq; apply Hbusy; lia).
    cbn [seq]. now rewrite Nat.add_1_r.
Qed.

(** X18.  The port search of the entry point, started at 29500, always
    ends within 36037 probes.  When some port from 29500 to 65535 can be
    bound it ends with the lowest such port, having printed exactly the
    busy ports below it; it never returns a port that cannot be bound or
    one below 29500.  When none can be bound it does not loop for ever but
    dies with the [OverflowError] of binding port 65536. *)
Theorem port_search_finds_lowest_free (bind_fails : nat -> bool) (fuel : nat)
    (Hfuel : (TrainPy.last_port + 1 - TrainPy.first_port < fuel)%nat) :
  (forall free,
     (TrainPy.first_port <= free <= TrainPy.last_port)%nat ->
     bind_fails free = false ->
     (forall q, (TrainPy.first_port <= q < free)%nat -> bind_fails q = true) ->
     TrainPy.find_port bind_fails fuel TrainPy.first_port
     = Some (seq TrainPy.first_port (free - TrainPy.first_port), inl free)) /\
  ((forall q, (TrainPy.first_port <= q <= TrainPy.last_port)%nat ->
              bind_fails q = true) ->
   TrainPy.find_port bind_fails fuel TrainPy.first_port
   = Some (seq TrainPy.first_port (TrainPy.last_port + 1 - TrainPy.first_port),
           inr TrainPy.OverflowError)) /\
  (forall printed port,
     TrainPy.find_port bind_fails fuel TrainPy.first_port
     = Some (printed, inl port) ->
     (TrainPy.first_port <= port <= TrainPy.last_port)%nat /\
     bind_fails port = false /\
     forall q, (TrainPy.first_port <= q < port)%nat -> bind_fails q = true) /\
  TrainPy.find_port bind_fails fuel TrainPy.first_port <> None.
Proof.
  assert (Hle : (TrainPy.first_port <= TrainPy.last_port)%nat)
    by (unfold TrainPy.first_port, TrainPy.last_port; lia).
  assert (Hfree : forall free,
     (TrainPy.first_port <= free <= TrainPy.last_port)%nat ->
     bind_fails free = false ->
     (forall q, (TrainPy.first_port <= q < free)%nat -> bind_fails q = true) ->
     TrainPy.find_port bind_fails fuel TrainPy.first_port
     = Some (seq TrainPy.first_port (free - TrainPy.first_port), inl free)).
  { intros free Hrange Hf Hbusy.
    apply find_port_first_free; try assumption; lia. }
  assert (Hbusy : (forall q, (TrainPy.first_port <= q <= TrainPy.last_port)%nat ->
                             bind_fails q = true) ->
     TrainPy.find_port bind_fails fuel TrainPy.first_port
     = Some (seq TrainPy.first_port (TrainPy.last_port + 1 - TrainPy.first_port),
             inr TrainPy.OverflowError)).
  { intros Hall. apply find_port_all_busy; try assumption; lia. }
  (* either some port of the range is free, and then a lowest one, or none *)
  assert (Hcases :
    (exists free, (TrainPy.first_port <= free <= TrainPy.last_port)%nat /\
                  bind_fails free = false /\
                  forall q, (TrainPy.first_port <= q < free)%nat -> bind_fails q = true)
    \/ (forall q, (TrainPy.first_port <= q <= TrainPy.last_port)%nat ->
                  bind_fails q = true)).
  { assert (Hscan : forall n,
      (exists free, (TrainPy.first_port <= free < TrainPy.first_port + n)%nat /\
                    bind_fails free = false /\
                    forall q, (TrainPy.first_port <= q < free)%nat -> bind_fails q = true)
      \/ (forall q, (TrainPy.first_port <= q < TrainPy.first_port + n)%nat ->
                    bind_fails q = true)).
    { induction n as [|n [[free [Hr [Hf Hb]]] | Hall]].
      - right. intros q Hq. lia.
      - left. exists free. split; [lia | now split].
      - destruct (bind_fails (TrainPy.first_port + n)%nat) eqn:E.
        + right. intros q Hq.
          destruct (Nat.eq_dec q (TrainPy.first_port + n)) as [->|Hne];
            [exact E | apply Hall; lia].
        + left. exists (TrainPy.first_port + n)%nat.
          split; [lia|]. split; [exact E|]. intros q Hq. apply Hall. lia. }
    destruct (Hscan (TrainPy.last_port + 1 - TrainPy.first_port)%nat)
      as [[free [Hr [Hf Hb]]] | Hall].
    - left. exists free. split; [lia | now split].
    - right. intros q Hq. apply Hall. lia. }
  split; [exact Hfree|]. split; [exact Hbusy|]. split.
  - intros printed port Hrun.
    destruct Hcases as [[free [Hr [Hf Hb]]] | Hall].
    + rewrite (Hfree free Hr Hf Hb) in Hrun.
      apply search_port_eq in Hrun. subst port.
      split; [exact Hr | split; [exact Hf | exact Hb]].
    + rewrite (Hbusy Hall) in Hrun. exfalso. exact (search_error_not_port Hrun).
  - destruct Hcases as [[free [Hr [Hf Hb]]] | Hall].
    + rewrite (Hfree free Hr Hf Hb). apply some_not_none.
    + rewrite (Hbusy Hall). apply some_not_none.
Qed.

Lemma port_search_finds_lowest_free_witness :
  TrainPy.find_port (fun p => (p <? TrainPy.first_port + 2)%nat)
    (TrainPy.last_port + 2 - TrainPy.first_port) TrainPy.first_port
  = Some ([TrainPy.first_port; S TrainPy.first_port],
          inl (TrainPy.first_port + 2)%nat).
Proof.
  assert (Hfuel : (TrainPy.last_port + 1 - TrainPy.first_port
                   < TrainPy.last_port + 2 - TrainPy.first_port)%nat)
    by (unfold TrainPy.first_port, TrainPy.last_port; lia).
  pose proof (proj1 (port_search_finds_lowest_free
                       (fun p => (p <? TrainPy.first_port + 2)%nat)
                       (TrainPy.last_port + 2 - TrainPy.first_port) Hfuel)
                (TrainPy.first_port + 2)%nat) as H.
  replace (TrainPy.first_port + 2 - TrainPy.first_port)%nat with 2%nat in H by lia.
  cbn [seq] in H. apply H.
  - unfold TrainPy.first_port, TrainPy.last_port. lia.
  - apply Nat.ltb_ge. lia.
  - intros q Hq. apply Nat.ltb_lt. lia.
Defined.

(** ** The first validation *)

(** X19.  With the best values as [BaseTrainer.__init__] sets them
    (infinity for the metrics to minimise, minus infinity for those to
    maximise), the first finite average that [val_recording] sees for one
    of the four tracked metrics ("fgd", "l1div", "bc", "test_clip_fgd")
    always becomes the best value, with the epoch of the call, and the call
    writes [best_<name>/ckpt.pth]. *)
Theorem first_finite_value_becomes_best
    (self : TrainPy.Trainer) (epoch : nat) (name : string)
    (m : TrainPy.Meter) (v : R)
    (Hinit : TrainPy.val_best self = TrainPy.initial_val_best)
    (Hkeys : NoDup (map fst (TrainPy.loss_meters self)))
    (Hname : In name ["fgd"%string; "l1div"%string; "bc"%string;
                      "test_clip_fgd"%string])
    (Hmeter : In (name, m) (TrainPy.loss_meters self))
    (Hcount : (1 <= TrainPy.meter_count m)%nat)
    (Havg : TrainPy.meter_avg m = Fin v) :
  let out := TrainPy.val_recording self epoch in
  TrainPy.get name (TrainPy.out_val_best out)
  = Some (TrainPy.mkBest (Fin v) epoch) /\
  In (TrainPy.path_join (TrainPy.best_dir (TrainPy.checkpoint_path self) name)
        "ckpt.pth")
     (TrainPy.saved_paths (TrainPy.out_ops out)).
Proof.
  intros out.
  assert (Hcur : exists current,
            TrainPy.get name (TrainPy.val_best self) = Some current /\
            TrainPy.step_improves name m current = true /\
            TrainPy.best_paths self name
            = [TrainPy.path_join
                 (TrainPy.best_dir (TrainPy.checkpoint_path self) name) "ckpt.pth"]).
  { rewrite Hinit. unfold TrainPy.step_improves. rewrite Havg.
    replace (0 <? TrainPy.meter_count m)%nat with true
      by (symmetry; apply Nat.ltb_lt; lia).
    destruct Hname as [<- | [<- | [<- | [<- | []]]]];
      eexists; (split; [reflexivity | split; reflexivity]). }
  destruct Hcur as [current [Hget [Himp Hbest]]].
  assert (Himproves : TrainPy.improves (TrainPy.loss_meters self) name current = Some m).
  { rewrite (improves_of_in name m _ current Hkeys Hmeter). now rewrite Himp. }
  split.
  - unfold out, TrainPy.val_recording. cbn [TrainPy.out_val_best].
    rewrite (val_loop_best self epoch _ Hkeys
               (TrainPy.mkValState (TrainPy.val_best self) [] []) name current Hget).
    now rewrite Himproves, Havg.
  - unfold out. rewrite (val_recording_paths self epoch Hkeys).
    apply in_or_app. left. apply in_flat_map. exists (name, m).
    split; [exact Hmeter|]. unfold TrainPy.improved_paths. cbn [fst].
    rewrite Hget, Himproves. apply in_or_app. right. rewrite Hbest. now left.
Qed.

Lemma first_finite_value_becomes_best_witness :
  TrainPy.get "bc"%string
    (TrainPy.out_val_best
       (TrainPy.val_recording
          (TrainPy.mkTrainer 0 "out/exp"%string TrainPy.initial_val_best 10
             [("fgd"%string, TrainPy.mkMeter 3 (Fin 1) (Fin 3));
              ("bc"%string, TrainPy.mkMeter 2 (Fin (-5)) (Fin (-10)))])
          7))
  = Some (TrainPy.mkBest (Fin (-5)) 7).
Proof.
  refine (proj1 (first_finite_value_becomes_best
           (TrainPy.mkTrainer 0 "out/exp"%string TrainPy.initial_val_best 10
              [("fgd"%string, TrainPy.mkMeter 3 (Fin 1) (Fin 3));
               ("bc"%string, TrainPy.mkMeter 2 (Fin (-5)) (Fin (-10)))])
           7 "bc"%string (TrainPy.mkMeter 2 (Fin (-5)) (Fin (-10))) (-5)
           eq_refl _ _ _ _ eq_refl)).
  - cbn. repeat constructor; cbn; intuition discriminate.
  - cbn. tauto.
  - cbn. tauto.
  - cbn. lia.
Defined.
